(** * Fallout save image extractor: a shallow embedding of
      [extract_save_image.py] and the properties of its decoders.

    The development follows the source file top to bottom: the byte cursor
    ([read_exact] and the fixed-width readers), the flat-save header decoder
    ([parse_header]), the clustered container ([PirsType2]), the pixel
    transform ([reorder_channels], [shift_channel]) and [extract_image].
    The functions that read a file take the runtime as an implicit argument;
    the properties are proved for every runtime and then run on sample
    inputs, at the end of the file, with one of them. *)

From Stdlib Require Import ZArith Lia Bool String Ascii.
From Stdlib Require Import Init.Byte.
From stdpp Require Import base list.

Local Open Scope Z_scope.

(** ** Exceptions and the error monad

    A Python call either returns or raises.  Only the class of the exception
    matters to the properties below, so the messages are dropped. *)

Inductive exn : Type :=
| EOFError            (* raised by [read_exact] on a short read *)
| BadMagic            (* ValueError("Bad magic ...") / ("Not a CON package") *)
| BadDivider          (* ValueError("Expected divider ...") *)
| IndexError          (* subscript out of range *)
| ZeroDivisionError   (* [%] with a zero right operand *)
| SeekError           (* seek to a negative absolute position *)
| BadReadLength       (* ValueError: [f.read(n)] with [n < -1] *)
| OverflowError       (* a byte count too large for the runtime *)
| MemoryError.        (* a buffer that the runtime cannot allocate *)

Inductive result (A : Type) : Type :=
| Ok (a : A)
| Raise (e : exn).
Arguments Ok {A} a.
Arguments Raise {A} e.

#[global] Instance result_ret : MRet result := fun _ a => Ok a.
#[global] Instance result_bind : MBind result := fun _ _ k m =>
  match m with
  | Ok a => k a
  | Raise e => Raise e
  end.

(** ** The runtime

    What a read does with a request for more bytes than the file has left
    depends on the interpreter and on the machine, not on the file: the
    buffered reader sizes a [bytes] object for the whole request before it
    reads.  A count above [max_bytes] is refused with [OverflowError] (on a
    64-bit CPython, from [sys.maxsize] + 1 = 2^63 when the argument is
    converted, and from a few bytes below it when the object is sized);
    a count up to [max_bytes] is granted or not by the allocator, and a
    request that is not granted raises [MemoryError]. *)
Class Runtime : Type := {
  max_bytes : Z;
  alloc_ok : Z -> bool
}.

(** ** Byte cursor

    A binary file opened for reading: its bytes and the position of the
    cursor. *)

Record file : Type := File { contents : list byte; tell : nat }.

Definition open_rb (bs : list byte) : file := File bs 0.

Section Source.
Context {RT : Runtime}.

(** [f.read(n)] on the reader that [open("rb")] returns.  [n = -1] asks
    for all the rest, a smaller [n] is refused with a [ValueError].  A
    request that the file can satisfy returns the next [n] bytes and moves
    the cursor past them (memory for bytes that are in the file is taken to
    be there).  A larger request returns the bytes that are left when the
    runtime can size a buffer for [n] bytes; requests of up to 65535 bytes,
    the largest that the header and the table decoders can make, are taken
    to be granted by every runtime. *)
Definition read (f : file) (n : Z) : result (list byte * file) :=
  let rest := drop (tell f) (contents f) in
  let all := (rest, File (contents f) (tell f + length rest)) in
  if n <? -1 then Raise BadReadLength
  else if n =? -1 then Ok all
  else if n <=? Z.of_nat (length rest) then
    let b := take (Z.to_nat n) rest in
    Ok (b, File (contents f) (tell f + length b))
  else if n <=? 65535 then Ok all
  else if max_bytes <? n then Raise OverflowError
  else if alloc_ok n then Ok all
  else Raise MemoryError.

(** [f.seek(off)]: an absolute position; a negative one is refused. *)
Definition seek (f : file) (off : Z) : result file :=
  if off <? 0 then Raise SeekError else Ok (File (contents f) (Z.to_nat off)).

(** [f.seek(n, os.SEEK_CUR)]. *)
Definition seek_cur (f : file) (n : Z) : result file :=
  seek f (Z.of_nat (tell f) + n).

(** [read_exact].  The module defines it twice (lines 24 and 123); a Python
    [def] rebinds the global name, and every caller looks the name up when
    it runs, after the whole module has been executed.  The second
    definition, which raises [EOFError], is therefore the one in force. *)
Definition read_exact (f : file) (n : Z) : result (list byte * file) :=
  '(b, f') ← read f n;
  if Z.of_nat (length b) =? n then Ok (b, f') else Raise EOFError.

Definition byte_val (b : byte) : Z := Z.of_N (Byte.to_N b).

(** [struct.unpack("<I", b)], [("<H", b)], [("<B", b)]: the unsigned
    little-endian value of the bytes. *)
Fixpoint unpack_le (bs : list byte) : Z :=
  match bs with
  | [] => 0
  | b :: bs' => byte_val b + 256 * unpack_le bs'
  end.

(** [struct.unpack("<i", b)]: two's complement on 32 bits. *)
Definition unpack_le_i32 (bs : list byte) : Z :=
  let u := unpack_le bs in
  if u <? 2 ^ 31 then u else u - 2 ^ 32.

Definition read_u32_le (f : file) : result (Z * file) :=
  '(b, f) ← read_exact f 4; Ok (unpack_le b, f).

Definition read_u16_le (f : file) : result (Z * file) :=
  '(b, f) ← read_exact f 2; Ok (unpack_le b, f).

Definition PIPE : Z := 0x7C.

(** "FO3SAVEGAME" *)
Definition MAGIC : list byte :=
  [x46; x4f; x33; x53; x41; x56; x45; x47; x41; x4d; x45].

Definition bytes_eqb (a b : list byte) : bool :=
  (length a =? length b)%nat && forallb (fun p => Byte.eqb (fst p) (snd p)) (combine a b).

(** [read_divider]: [read_exact(f, 1)[0]] cannot fail to index, the slice
    has one byte. *)
Definition read_divider (f : file) : result file :=
  '(b, f) ← read_exact f 1;
  match b with
  | c :: _ => if byte_val c =? PIPE then Ok f else Raise BadDivider
  | [] => Raise IndexError
  end.

(** [read_bzstring]: latin-1 maps every byte to the character of the same
    code, so [errors="replace"] never applies. *)
Definition read_bzstring (f : file) (size : Z) : result (string * file) :=
  if size =? 0 then Ok (EmptyString, f)
  else '(raw, f) ← read_exact f size; Ok (string_of_list_byte raw, f).

(** ** Flat save header *)

Record header : Type := Header {
  width : Z;
  height : Z;
  save_index : Z;
  pc_name : string;
  pc_karma : string;
  pc_level : Z;
  pc_location : string;
  playtime : string;
  unknown1 : Z;
  screenshot_offset : Z;
  header_end_pos : Z;
  header_start_pos : Z
}.

Definition parse_header (f : file) : result (header * file) :=
  let start_pos := Z.of_nat (tell f) in
  '(file_id, f) ← read_exact f 11;
  if negb (bytes_eqb file_id MAGIC) then Raise BadMagic else
  '(save_header_size, f) ← read_u32_le f;
  '(unknown1, f) ← read_u32_le f;
  f ← read_divider f;
  '(val, f) ← read_u32_le f;
  '(width, f) ←
     (if 16384 <? val then
        f ← seek_cur f 60;
        f ← read_divider f;
        read_u32_le f
      else Ok (val, f));
  f ← read_divider f;
  '(height, f) ← read_u32_le f;
  f ← read_divider f;
  '(save_index, f) ← read_u32_le f;
  f ← read_divider f;
  '(pc_name_size, f) ← read_u16_le f;
  f ← read_divider f;
  '(pc_name, f) ← read_bzstring f pc_name_size;
  f ← read_divider f;
  '(pc_karma_size, f) ← read_u16_le f;
  f ← read_divider f;
  '(pc_karma, f) ← read_bzstring f pc_karma_size;
  f ← read_divider f;
  '(pc_level, f) ← read_u32_le f;
  f ← read_divider f;
  '(pc_location_size, f) ← read_u16_le f;
  f ← read_divider f;
  '(pc_location, f) ← read_bzstring f pc_location_size;
  f ← read_divider f;
  '(playtime_size, f) ← read_u16_le f;
  f ← read_divider f;
  '(playtime, f) ← read_bzstring f playtime_size;
  let screenshot_offset := 4 + save_header_size in
  Ok (Header width height save_index pc_name pc_karma pc_level pc_location
        playtime unknown1 screenshot_offset (Z.of_nat (tell f)) start_pos, f).

(** ** Clustered container ([PirsType2]) *)

(** "CON " *)
Definition MAGIC_CON : list byte := [x43; x4f; x4e; x20].

Definition r_u8 (f : file) : result (Z * file) :=
  '(b, f) ← read_exact f 1; Ok (unpack_le b, f).
Definition r_u16le (f : file) : result (Z * file) :=
  '(b, f) ← read_exact f 2; Ok (unpack_le b, f).
Definition r_u32le (f : file) : result (Z * file) :=
  '(b, f) ← read_exact f 4; Ok (unpack_le b, f).
Definition r_i32le (f : file) : result (Z * file) :=
  '(b, f) ← read_exact f 4; Ok (unpack_le_i32 b, f).

(** A decoded Python [str]: its code points. *)
Definition str : Type := list N.

(** [raw.find(b"\x00")] followed by [raw[:i]] when a NUL was found: the
    bytes before the first NUL, all of them when there is none. *)
Fixpoint until_nul (raw : list byte) : list byte :=
  match raw with
  | [] => []
  | b :: raw' => if Byte.eqb b x00 then [] else b :: until_nul raw'
  end.

(** [read_fixed_str].  [decode_strip] stands for the runtime's
    [bytes.decode("utf-8", "replace")] followed by [str.strip()]. *)
Definition read_fixed_str (decode_strip : list byte -> str) (f : file) (n : Z)
  : result (str * file) :=
  '(raw, f) ← read_exact f n;
  Ok (decode_strip (until_nul raw), f).

Definition dos_datetime_from_u32 (v : Z) : Z * Z * Z * Z * Z * Z :=
  let d := Z.land (Z.shiftr v 16) 0xFFFF in
  let t := Z.land v 0xFFFF in
  let year := Z.land (Z.shiftr d 9) 0x7F + 1980 in
  let month := Z.land (Z.shiftr d 5) 0x0F in
  let day := Z.land d 0x1F in
  let hour := Z.land (Z.shiftr t 11) 0x1F in
  let minute := Z.land (Z.shiftr t 5) 0x3F in
  let sec2 := Z.land t 0x1F * 2 in
  (year, month, day, hour, minute, sec2).

Record PirsEntry : Type := {
  Filename : str;
  Unknow : Z;
  BlockLen : Z;
  Cluster : Z;
  Parent : Z;
  Size : Z;
  DateTime1 : Z * Z * Z * Z * Z * Z;
  DateTime2 : Z * Z * Z * Z * Z * Z;
  is_dir : bool
}.

(** The state of a [PirsType2] object: the open file, its size and the
    entry table. *)
Record PirsType2 : Type := {
  self_f : file;
  _pkg_size : Z;
  entries : list PirsEntry
}.

(** [self.con_start] and [self.con_offset], set in [__init__]. *)
Definition con_start : Z := 49152.
Definition con_offset : Z := 8192.

(** [PirsType2._get_offset].  Python's [//] rounds down, as [Z.div] does
    for the positive divisor 170. *)
Definition _get_offset (cluster : Z) : Z :=
  let num := con_start + cluster * 4096 in
  let n2 := cluster / 170 in
  let n3 := n2 / 170 in
  let num := if 0 <? n2 then num + (n2 + 1) * con_offset else num in
  let num := if 0 <? n3 then num + (n3 + 1) * con_offset else num in
  num.

(** [PirsType2._read_entry].  When the name is empty the method returns an
    object on which only [Filename] (the empty string) is set: [None]
    here.  Otherwise all the attributes are set: [Some e]. *)
Definition _read_entry (decode_strip : list byte -> str) (f : file)
  : result (option PirsEntry * file) :=
  '(name, f) ← read_fixed_str decode_strip f 38;
  match name with
  | [] => Ok (None, f)
  | _ =>
    '(unknow, f) ← r_i32le f;
    '(blocklen, f) ← r_i32le f;
    '(raw_cluster, f) ← r_u32le f;
    let cluster := Z.shiftr raw_cluster 8 in
    '(parent, f) ← r_u16le f;
    '(size, f) ← r_u32le f;
    '(dt1, f) ← r_u32le f;
    '(dt2, f) ← r_u32le f;
    Ok (Some {| Filename := name; Unknow := unknow; BlockLen := blocklen;
                Cluster := cluster; Parent := parent; Size := size;
                DateTime1 := dos_datetime_from_u32 dt1;
                DateTime2 := dos_datetime_from_u32 dt2;
                is_dir := (size =? 0) && (cluster =? 0) |}, f)
  end.

(** [PirsType2._read_entries]: the [while True] loop, with the number of
    iterations still allowed as fuel; [None] when the fuel runs out. *)
Fixpoint _read_entries_loop (decode_strip : list byte -> str) (fuel : nat)
    (f : file) (acc : list PirsEntry) (idx : Z)
  : result (option (list PirsEntry * file)) :=
  match fuel with
  | O => Ok None
  | S fuel' =>
    f ← seek f (con_start + idx * 64);
    '(e, f) ← _read_entry decode_strip f;
    match e with
    | None => Ok (Some (acc, f))
    | Some e => _read_entries_loop decode_strip fuel' f (acc ++ [e]) (idx + 1)
    end
  end.

(** [PirsType2.__init__] on the bytes of the package. *)
Definition __init__ (decode_strip : list byte -> str) (fuel : nat) (pkg : list byte)
  : result (option PirsType2) :=
  let f := open_rb pkg in
  let pkg_size := Z.of_nat (length pkg) in
  '(magic, f) ← read_exact f 4;
  if negb (bytes_eqb magic MAGIC_CON) then Raise BadMagic else
  r ← _read_entries_loop decode_strip fuel f [] 0;
  match r with
  | None => Ok None
  | Some (es, f) => Ok (Some {| self_f := f; _pkg_size := pkg_size; entries := es |})
  end.

(** The variables of the block loop of [_extract_entry]: the shared file
    handle, the bytes written to [w] so far, [last_off] and [remainder]. *)
Record xstate : Type := XState {
  xs_f : file;
  xs_w : list byte;
  xs_last_off : Z;
  xs_remainder : Z
}.

(** How an iteration of the block loop ends: it falls through to the next
    index, or leaves the loop by one of its four [break] statements, named
    here in source order (lines 248, 253, 258 and 264).  The source does not
    record which one was taken; the tag only names it. *)
Inductive flow : Type :=
| Next
| BreakNotIncreasing
| BreakPastEnd
| BreakNothingToRead
| BreakShortBlock.

(** The body of [for i in range(full_blocks)]. *)
Definition block_body (pkg_size start_cluster : Z) (st : xstate) (i : Z)
  : result (flow * xstate) :=
  let off := _get_offset (start_cluster + i) in
  if off <=? xs_last_off st then Ok (BreakNotIncreasing, st) else
  let st := XState (xs_f st) (xs_w st) off (xs_remainder st) in
  if pkg_size <=? off then
    Ok (BreakPastEnd, XState (xs_f st) (xs_w st) (xs_last_off st) 0) else
  let to_read := Z.min 4096 (pkg_size - off) in
  if to_read <=? 0 then
    Ok (BreakNothingToRead, XState (xs_f st) (xs_w st) (xs_last_off st) 0) else
  f ← seek (xs_f st) off;
  '(b, f) ← read_exact f to_read;
  let st := XState f (xs_w st ++ b) (xs_last_off st) (xs_remainder st) in
  if to_read <? 4096 then
    Ok (BreakShortBlock, XState (xs_f st) (xs_w st) (xs_last_off st) 0)
  else Ok (Next, st).

(** The loop itself: [n] iterations left, the next index is [i]. *)
Fixpoint block_loop (pkg_size start_cluster : Z) (n : nat) (i : Z) (st : xstate)
  : result (flow * xstate) :=
  match n with
  | O => Ok (Next, st)
  | S n' =>
    '(fl, st') ← block_body pkg_size start_cluster st i;
    match fl with
    | Next => block_loop pkg_size start_cluster n' (i + 1) st'
    | _ => Ok (fl, st')
    end
  end.

(** [PirsType2._extract_entry]: [None] when the method returns before
    opening [dst], otherwise the bytes written to [dst]; with them the file
    handle, whose cursor has moved. *)
Definition _extract_entry (self : PirsType2) (e : PirsEntry)
  : result (option (list byte) * file) :=
  let size := Size e in
  if size <=? 0 then Ok (None, self_f self) else
  let start_cluster := Cluster e in
  let blocks_by_size := Z.shiftr size 12 in
  let blocks_by_blocklen := Z.max 0 (BlockLen e) in
  let full_blocks :=
    if blocks_by_blocklen =? 0 then blocks_by_size
    else Z.min blocks_by_size blocks_by_blocklen in
  let remainder := size - Z.shiftl full_blocks 12 in
  '(_, st) ← block_loop (_pkg_size self) start_cluster (Z.to_nat full_blocks) 0
               (XState (self_f self) [] (-1) remainder);
  if 0 <? xs_remainder st then
    let off := _get_offset (start_cluster + full_blocks) in
    if off <? _pkg_size self then
      let to_read := Z.min (xs_remainder st) (_pkg_size self - off) in
      if 0 <? to_read then
        f ← seek (xs_f st) off;
        '(b, f) ← read_exact f to_read;
        Ok (Some (xs_w st ++ b), f)
      else Ok (Some (xs_w st), xs_f st)
    else Ok (Some (xs_w st), xs_f st)
  else Ok (Some (xs_w st), xs_f st).

(** [PirsType2.extract_all]: the files written under [out_dir], in the
    order of the writes, as (name, bytes). *)
Fixpoint extract_entries (self : PirsType2) (es : list PirsEntry)
  : result (list (str * list byte)) :=
  match es with
  | [] => Ok []
  | e :: es' =>
    if is_dir e then extract_entries self es'
    else
      '(o, f) ← _extract_entry self e;
      let self := {| self_f := f; _pkg_size := _pkg_size self; entries := entries self |} in
      rest ← extract_entries self es';
      match o with
      | Some bs => Ok ((Filename e, bs) :: rest)
      | None => Ok rest
      end
  end.

Definition extract_all (self : PirsType2) : result (list (str * list byte)) :=
  extract_entries self (entries self).

(** ** Pixel transform *)

(** [l[i]] and [l[i] = x] for a non-negative [i], on [bytes] and
    [bytearray]: out of range raises [IndexError]. *)
Definition getitem (l : list byte) (i : nat) : result byte :=
  match l !! i with
  | Some x => Ok x
  | None => Raise IndexError
  end.

Definition setitem (l : list byte) (i : nat) (x : byte) : result (list byte) :=
  if (i <? length l)%nat then Ok (<[i := x]> l) else Raise IndexError.

(** A [for] loop over the indices [idxs], its body threading the value [s]. *)
Fixpoint for_each {S : Type} (body : S -> nat -> result S) (idxs : list nat) (s : S)
  : result S :=
  match idxs with
  | [] => Ok s
  | i :: idxs' => s' ← body s i; for_each body idxs' s'
  end.

(** [range(start, stop, 3)] for [0 <= start]: [start], [start + 3], ...
    below [stop]. *)
Definition range3 (start stop : nat) : list nat :=
  map (fun k => start + 3 * k)%nat (seq 0 ((stop - start + 2) / 3)).

(** The body of the loop of [reorder_channels]; [r_i], [g_i] and [b_i] are
    its local variables. *)
Definition reorder_body (r_i g_i b_i : nat) (buf : list byte) (out : list byte) (i : nat)
  : result (list byte) :=
  x ← getitem buf (i + r_i);
  out ← setitem out (i + 0) x;
  x ← getitem buf (i + g_i);
  out ← setitem out (i + 1) x;
  x ← getitem buf (i + b_i);
  setitem out (i + 2) x.

(** The loop for given [r_i, g_i, b_i]; [bytearray(len(buf))] is filled
    with zeros. *)
Definition permute_channels (r_i g_i b_i : nat) (buf : list byte) : result (list byte) :=
  for_each (reorder_body r_i g_i b_i buf) (range3 0 (length buf))
    (replicate (length buf) x00).

(** [reorder_channels]: [r_i, g_i, b_i = (2, 0, 1)]. *)
Definition reorder_channels (buf : list byte) : result (list byte) :=
  permute_channels 2 0 1 buf.

Inductive channel : Type := ch_r | ch_g | ch_b.

(** [{"r": 0, "g": 1, "b": 2}.get(channel)] *)
Definition ch_idx (c : channel) : nat :=
  match c with ch_r => 0 | ch_g => 1 | ch_b => 2 end%nat.

(** The positions selected by [l[start:stop:3]] for non-negative bounds:
    both are clipped to the length. *)
Definition slice3_indices (l : list byte) (start stop : nat) : list nat :=
  range3 start (stop `min` length l).

(** [l[start:stop:3]] *)
Definition slice3 (l : list byte) (start stop : nat) : list byte :=
  omap (fun i => l !! i) (slice3_indices l start stop).

(** [l[start:stop:3] = v] for [v] as long as the slice, which is the case
    at its one use: element [k] of [v] goes to the [k]-th position. *)
Definition slice3_assign (l : list byte) (start stop : nat) (v : list byte)
  : list byte :=
  fold_left (fun o p => <[fst p := snd p]> o) (zip (slice3_indices l start stop) v) l.

(** [ch_row[-shift:] + ch_row[:-shift]] for [0 < shift]: a negative bound
    counts from the end and is clipped at the start. *)
Definition rotate_right (shift : nat) (ch_row : list byte) : list byte :=
  drop (length ch_row - shift) ch_row ++ take (length ch_row - shift) ch_row.

(** The body of [for y in range(h)] in [shift_channel]. *)
Definition shift_row (w : nat) (c : channel) (shift : nat) (out : list byte) (y : nat)
  : list byte :=
  let row_stride := (w * 3)%nat in
  let row0 := (y * row_stride)%nat in
  let ch_row := slice3 out (row0 + ch_idx c) (row0 + row_stride) in
  let rotated := rotate_right shift ch_row in
  slice3_assign out (row0 + ch_idx c) (row0 + row_stride) rotated.

(** [shift_channel].  [w] and [h] are the unsigned 32-bit fields of the
    header, hence naturals; [shift_px] is any integer.  Python's [%] takes
    the sign of the divisor, as [Z.modulo] does, and raises for a zero
    divisor. *)
Definition shift_channel (buf : list byte) (w h : nat) (c : channel) (shift_px : Z)
  : result (list byte) :=
  if (w =? 0)%nat then Raise ZeroDivisionError else
  let shift := shift_px mod Z.of_nat w in
  if shift =? 0 then Ok buf else
  Ok (fold_left (shift_row w c (Z.to_nat shift)) (seq 0 h) buf).

(** ** [extract_image]

    Lines 316 to 320 of [extract_image]: the four calls that turn the raw
    screenshot into the buffer handed to the image library. *)
Definition pixel_transform (data : list byte) (w h : nat) : result (list byte) :=
  data ← reorder_channels data;
  data ← shift_channel data w h ch_r (-3);
  data ← shift_channel data w h ch_g (-4);
  shift_channel data w h ch_b (-4).

(** [extract_image] up to the call of the image library: the header and
    the buffer given to [Image.frombytes("RGB", (w, h), data)]. *)
Definition extract_image (save : list byte) : result (header * list byte) :=
  let f := open_rb save in
  '(meta, f) ← parse_header f;
  let w := width meta in
  let h := height meta in
  f ← seek f (screenshot_offset meta);
  let expected := w * h * 3 in
  '(data, f) ← read_exact f expected;
  data ← pixel_transform data (Z.to_nat w) (Z.to_nat h);
  Ok (meta, data).

End Source.

(** ** Synthetic inputs

    Encoders used to build save files for the decoders: what
    [struct.pack("<I", v)] and [struct.pack("<H", v)] produce, and the two
    header layouts. *)

Definition byte_of (z : Z) : byte :=
  match Byte.of_N (Z.to_N (z mod 256)) with
  | Some b => b
  | None => x00
  end.

Fixpoint pack_le (n : nat) (v : Z) : list byte :=
  match n with
  | O => []
  | S n' => byte_of v :: pack_le n' (v / 256)
  end.

(** The fields that follow the width. *)
Record tail_fields : Type := {
  t_height : Z;
  t_save_index : Z;
  t_name : list byte;
  t_karma : list byte;
  t_level : Z;
  t_location : list byte;
  t_playtime : list byte
}.

Definition bzstring (s : list byte) : list byte :=
  [x7c] ++ pack_le 2 (Z.of_nat (length s)) ++ [x7c] ++ s.

Definition encode_tail (t : tail_fields) : list byte :=
  [x7c] ++ pack_le 4 (t_height t) ++
  [x7c] ++ pack_le 4 (t_save_index t) ++
  bzstring (t_name t) ++
  bzstring (t_karma t) ++
  [x7c] ++ pack_le 4 (t_level t) ++
  bzstring (t_location t) ++
  bzstring (t_playtime t).

Definition u32 (v : Z) : Prop := 0 <= v < 2 ^ 32.

Definition tail_ok (t : tail_fields) : Prop :=
  u32 (t_height t) /\ u32 (t_save_index t) /\ u32 (t_level t) /\
  Z.of_nat (length (t_name t)) < 65536 /\
  Z.of_nat (length (t_karma t)) < 65536 /\
  Z.of_nat (length (t_location t)) < 65536 /\
  Z.of_nat (length (t_playtime t)) < 65536.

(** The current layout: the width follows the first divider. *)
Definition plain_header (hs unk w : Z) (t : tail_fields) : list byte :=
  MAGIC ++ pack_le 4 hs ++ pack_le 4 unk ++
  [x7c] ++ pack_le 4 w ++ encode_tail t.

(** The legacy layout: a first value, a block of 60 bytes, a divider and
    then the width. *)
Definition legacy_header (hs unk bogus : Z) (skip : list byte) (w : Z)
    (t : tail_fields) : list byte :=
  MAGIC ++ pack_le 4 hs ++ pack_le 4 unk ++
  [x7c] ++ pack_le 4 bogus ++ skip ++
  [x7c] ++ pack_le 4 w ++ encode_tail t.

(** The header that the decoder returns for either layout. *)
Definition decoded_header (hs unk w : Z) (t : tail_fields) (end_pos : nat) : header :=
  Header w (t_height t) (t_save_index t)
    (string_of_list_byte (t_name t)) (string_of_list_byte (t_karma t))
    (t_level t)
    (string_of_list_byte (t_location t)) (string_of_list_byte (t_playtime t))
    unk (4 + hs) (Z.of_nat end_pos) 0.

(** The cursor stands after [pre]; the bytes that follow are [rest]. *)
Definition after (pre rest : list byte) : file := File (pre ++ rest) (length pre).

(** ** Offsets: the correction terms

    What [_get_offset] adds for a group counter [n]: nothing when [n] is 0,
    [n + 1] index blocks otherwise. *)
Definition corr (n : Z) : Z := if 0 <? n then (n + 1) * con_offset else 0.

(** The number of 8192-byte index blocks in the offset of cluster [c]. *)
Definition index_blocks (c : Z) : Z :=
  (if c <? 170 then 0 else c / 170 + 1) +
  (if c <? 170 * 170 then 0 else c / (170 * 170) + 1).

(** The offset as the specification words it: one index block for every
    complete group of 170 clusters passed, and one more for every complete
    group of 170 groups passed. *)
Definition spec_offset (c : Z) : Z :=
  con_start + c * 4096 + (c / 170) * 8192 + (c / (170 * 170)) * 8192.

(** ** Sample inputs *)

Definition sample_tail (h : Z) : tail_fields :=
  {| t_height := h; t_save_index := 7; t_name := [x41; x42]; t_karma := [];
     t_level := 3; t_location := [x56]; t_playtime := [x30] |}.

Definition sample_pixels : list byte := [x01; x02; x03; x04; x05; x06].

(** A 2x1 save in the current layout; the header takes 59 bytes and the
    header-size field says 55, so the pixels start right after it. *)
Definition sample_save : list byte :=
  plain_header 55 0 2 (sample_tail 1) ++ sample_pixels.

(** The same picture in the legacy layout, with a first value of 70000 and
    a block of 60 zero bytes; the header takes 124 bytes. *)
Definition sample_legacy_save : list byte :=
  legacy_header 120 0 70000 (replicate 60 x00) 2 (sample_tail 1) ++ sample_pixels.

(** A legacy header whose width field is itself above 16384. *)
Definition sample_wide_legacy_save : list byte :=
  legacy_header 120 0 70000 (replicate 60 x00) 20000 (sample_tail 1).

(** [sample_save] without its last byte. *)
Definition truncated_save : list byte :=
  plain_header 55 0 2 (sample_tail 1) ++ [x01; x02; x03; x04; x05].

(** A header that declares a width of 0 and a height of 1, with a
    header-size field of 1000, and nothing after the header: the file ends
    before the screenshot offset. *)
Definition zero_width_save : list byte :=
  plain_header 1000 0 0 (sample_tail 1).

(** A legacy header that declares 4294967295 by 4294967295 pixels, more
    bytes than a 64-bit count holds, and nothing after the header. *)
Definition overflow_save : list byte :=
  legacy_header 120 0 70000 (replicate 60 x00) 4294967295 (sample_tail 4294967295).

(** A header that declares 16384 by 4294967295 pixels, about 2 * 10^14
    bytes, and nothing after the header. *)
Definition oversized_save : list byte :=
  plain_header 55 0 16384 (sample_tail 4294967295).

(** A stand-in for the runtime's decoder, exact on names made of ASCII
    letters: each byte gives the code point of the same value. *)
Definition ascii_decode (bs : list byte) : str := map Byte.to_N bs.

(** A 64-byte table record: the name "A", then the fields in the order
    [_read_entry] reads them. *)
Definition entry_record (blocklen raw_cluster size : Z) : list byte :=
  [x41] ++ replicate 37 x00 ++
  pack_le 4 0 ++ pack_le 4 blocklen ++ pack_le 4 raw_cluster ++
  pack_le 2 0 ++ pack_le 4 size ++ pack_le 4 0 ++ pack_le 4 0.

(** The entry that [_read_entry] makes of [entry_record 0 raw_cluster size]. *)
Definition sample_entry (cluster size : Z) (dir : bool) : PirsEntry :=
  {| Filename := [65%N]; Unknow := 0; BlockLen := 0; Cluster := cluster;
     Parent := 0; Size := size;
     DateTime1 := dos_datetime_from_u32 0; DateTime2 := dos_datetime_from_u32 0;
     is_dir := dir |}.

(** A package: the magic, zeros up to the table, a directory record, a
    record of size 0 with cluster 1, and a record with an empty name that
    ends the table. *)
Definition sample_package : list byte :=
  MAGIC_CON ++ replicate (Z.to_nat con_start - 4) x00 ++
  entry_record 0 0 0 ++ entry_record 0 256 0 ++ replicate 64 x00.

(** A package of four bytes, just the magic, already opened. *)
Definition tiny_package : PirsType2 :=
  {| self_f := File MAGIC_CON 4; _pkg_size := 4; entries := [] |}.

(** A package of [con_start + 10] zero bytes: the first cluster has ten
    bytes. *)
Definition short_package_bytes : list byte := replicate (Z.to_nat (con_start + 10)) x00.

(** That package, opened, and an entry of two full blocks at cluster 0. *)
Definition short_package : PirsType2 :=
  {| self_f := File short_package_bytes 4; _pkg_size := con_start + 10; entries := [] |}.

(** [full_blocks] and the initial [remainder] of [_extract_entry]. *)
Definition full_blocks_of (e : PirsEntry) : Z :=
  if Z.max 0 (BlockLen e) =? 0 then Z.shiftr (Size e) 12
  else Z.min (Z.shiftr (Size e) 12) (Z.max 0 (BlockLen e)).

Definition remainder_of (e : PirsEntry) : Z :=
  Size e - Z.shiftl (full_blocks_of e) 12.

(** ** The bytes of an entry

    The [len] bytes of cluster [c], clipped to the end of the package: what
    [f.read(len)] returns at [_get_offset c]. *)
Definition block_at (pkg : list byte) (c len : Z) : list byte :=
  take (Z.to_nat len) (drop (Z.to_nat (_get_offset c)) pkg).

(** The full blocks of an entry followed by its trailing partial block,
    each clipped to the end of the package. *)
Definition clipped_blocks (pkg : list byte) (e : PirsEntry) : list byte :=
  concat (map (fun j => block_at pkg (Cluster e + Z.of_nat j) 4096)
            (seq 0 (Z.to_nat (full_blocks_of e))))
  ++ block_at pkg (Cluster e + full_blocks_of e) (remainder_of e).

(** The files [extract_all] is expected to write for a table: one for each
    entry of positive size that is not a directory, in table order. *)
Definition written_files (pkg : list byte) (es : list PirsEntry) : list (str * list byte) :=
  map (fun e => (Filename e, clipped_blocks pkg e))
    (List.filter (fun e => negb (is_dir e) && (0 <? Size e)) es).

(** A package with one file: the record of "A" (cluster 1, five bytes), the
    empty record that ends the table, zeros up to cluster 1 and the five
    bytes of the file. *)
Definition file_package : list byte :=
  MAGIC_CON ++ replicate (Z.to_nat con_start - 4) x00 ++
  entry_record 0 256 5 ++ replicate 64 x00 ++ replicate (4096 - 128) x00 ++
  [x01; x02; x03; x04; x05].

(** That package, opened: its 53253 bytes and its table. *)
Definition opened_file_package : PirsType2 :=
  {| self_f := File file_package 4; _pkg_size := 53253;
     entries := [sample_entry 1 5 false] |}.

(** ** Positions in the pixel buffer

    Where channel [c] of the output pixel comes from, for the variables
    [r_i, g_i, b_i] of [reorder_channels]. *)
Definition source_channel (r_i g_i b_i c : nat) : nat :=
  match c with 0 => r_i | 1 => g_i | _ => b_i end%nat.

(** Where the element of column [x] comes from when a row of [w] elements
    is rotated to the right by [shift], [0 < shift < w]. *)
Definition right_source (w shift x : nat) : nat :=
  if (x <? shift)%nat then (x + w - shift)%nat else (x - shift)%nat.

(** The same for any integer amount [k], negative for a rotation to the
    left: column [(x - k) mod w]. *)
Definition rotated_source (w : nat) (k : Z) (x : nat) : nat :=
  Z.to_nat ((Z.of_nat x - k) mod Z.of_nat w).

(** ** The inverse of the pixel transform

    The position of channel [c] of the pixel in column [x] of row [y], for
    rows of [w] pixels. *)
Definition px (w y x c : nat) : nat := (y * (w * 3) + c + 3 * x)%nat.

(** The inverse channel permutation: it sends (R, G, B) back to the stored
    order (B, R, G), [out[0] = in[1]], [out[1] = in[2]], [out[2] = in[0]]. *)
Definition unreorder_channels (buf : list byte) : result (list byte) :=
  permute_channels 1 2 0 buf.

(** The inverse transform: each channel rotated to the right by the amount
    it was rotated to the left ([shift_channel] with a positive [shift_px]
    moves the element in column [x] to column [x + shift_px]), then the
    inverse permutation. *)
Definition inverse_transform (data : list byte) (w h : nat) : result (list byte) :=
  data ← shift_channel data w h ch_b 4;
  data ← shift_channel data w h ch_g 4;
  data ← shift_channel data w h ch_r 3;
  unreorder_channels data.

(** ** The inverse of the transform, by positions

    Written from what the inverse is said to do, without the functions of
    the source.  [remap src buf] has at position [j] the byte that [buf] has
    at position [src j]. *)
Definition remap (src : nat -> nat) (buf : list byte) : list byte :=
  map (fun j => default x00 (buf !! src j)) (seq 0 (length buf)).

(** Channel [c] of every scanline of [w] pixels rotated to the right by
    [k] columns: column [x] takes the byte of column [(x - k) mod w], so the
    last [k] columns of the row come first; the other channels stay. *)
Definition rotate_channel_right (w c k : nat) (buf : list byte) : list byte :=
  remap (fun j =>
           let p := (j / 3)%nat in
           if (j mod 3 =? c)%nat
           then px w (p / w) ((p mod w + w - k mod w) mod w) c
           else j) buf.

(** The inverse of the permutation [out[0] = in[2]], [out[1] = in[0]],
    [out[2] = in[1]]: every pixel gets [out[0] = in[1]], [out[1] = in[2]],
    [out[2] = in[0]]. *)
Definition restore_stored_order (buf : list byte) : list byte :=
  remap (fun j => (3 * (j / 3) + (j mod 3 + 1) mod 3)%nat) buf.

(** R rotated to the right by 3, G and B by 4, then the inverse
    permutation. *)
Definition inverse_by_positions (out : list byte) (w : nat) : list byte :=
  restore_stored_order
    (rotate_channel_right w 2 4
       (rotate_channel_right w 1 4
          (rotate_channel_right w 0 3 out))).

(** ** A runtime for the sample runs

    A 64-bit build whose allocator grants up to 2^32 bytes. *)
Definition sample_runtime : Runtime :=
  {| max_bytes := 2 ^ 63 - 34; alloc_ok := fun n => n <=? 2 ^ 32 |}.

(** * Properties *)

Section Properties.
Context {RT : Runtime}.

(** ** The offset of a cluster *)

Lemma get_offset_unfold c :
  _get_offset c = con_start + c * 4096 + corr (c / 170) + corr (c / 170 / 170).
Proof.
  unfold _get_offset, corr.
  destruct (0 <? c / 170); destruct (0 <? c / 170 / 170); lia.
Qed.

Lemma corr_mono a b : a <= b -> corr a <= corr b.
Proof.
  unfold corr, con_offset. intros H.
  destruct (Z.ltb_spec 0 a); destruct (Z.ltb_spec 0 b); lia.
Qed.

(** Strictly increasing on all the integers: the base term grows by 4096
    and neither correction decreases. *)
Lemma get_offset_lt c1 c2 : c1 < c2 -> _get_offset c1 < _get_offset c2.
Proof.
  intros H. rewrite !get_offset_unfold.
  assert (H2 : c1 / 170 <= c2 / 170) by (apply Z.div_le_mono; lia).
  assert (H3 : c1 / 170 / 170 <= c2 / 170 / 170) by (apply Z.div_le_mono; lia).
  pose proof (corr_mono _ _ H2). pose proof (corr_mono _ _ H3). lia.
Qed.

Lemma get_offset_apart c1 c2 : c1 < c2 -> _get_offset c1 + 4096 <= _get_offset c2.
Proof.
  intros H. rewrite !get_offset_unfold.
  assert (H2 : c1 / 170 <= c2 / 170) by (apply Z.div_le_mono; lia).
  assert (H3 : c1 / 170 / 170 <= c2 / 170 / 170) by (apply Z.div_le_mono; lia).
  pose proof (corr_mono _ _ H2). pose proof (corr_mono _ _ H3). lia.
Qed.

Lemma get_offset_blocks c :
  0 <= c -> _get_offset c = con_start + c * 4096 + index_blocks c * con_offset.
Proof.
  intros H. rewrite get_offset_unfold. unfold corr, index_blocks.
  rewrite Z.div_div by lia.
  destruct (Z.ltb_spec c 170); destruct (Z.ltb_spec c (170 * 170));
    destruct (Z.ltb_spec 0 (c / 170)); destruct (Z.ltb_spec 0 (c / (170 * 170)));
    try lia.
  all: try (pose proof (Z.div_small c 170); lia).
  all: try (pose proof (Z.div_small c (170 * 170)); lia).
  all: try (assert (1 <= c / 170) by (apply Z.div_le_lower_bound; lia); lia).
  all: try (assert (1 <= c / (170 * 170)) by (apply Z.div_le_lower_bound; lia); lia).
Qed.

(** ** The byte cursor *)

Lemma read_exact_inv f n b f' :
  read_exact f n = Ok (b, f') ->
  0 <= n /\ b = take (Z.to_nat n) (drop (tell f) (contents f)) /\
  Z.of_nat (length b) = n /\
  f' = File (contents f) (tell f + Z.to_nat n).
Proof.
  unfold read_exact, read. cbv zeta.
  set (rest := drop (tell f) (contents f)).
  assert (Hall : forall r : result (list byte * file),
            n = -1 \/ Z.of_nat (length rest) < n ->
            (if Z.of_nat (length rest) =? n then r else Raise EOFError) = Ok (b, f') -> False).
  { intros r Hn. destruct (Z.eqb_spec (Z.of_nat (length rest)) n); [lia | discriminate]. }
  destruct (Z.ltb_spec n (-1)); [discriminate |].
  destruct (Z.eqb_spec n (-1)).
  { cbn [mbind result_bind]. intros E. exfalso. eapply Hall; [| exact E]. lia. }
  destruct (Z.leb_spec n (Z.of_nat (length rest))).
  - cbn [mbind result_bind].
    destruct (Z.eqb_spec (Z.of_nat (length (take (Z.to_nat n) rest))) n) as [E | E];
      [| discriminate].
    intros [= <- <-]. repeat split; try lia. f_equal. rewrite length_take. lia.
  - destruct (n <=? 65535).
    { cbn [mbind result_bind]. intros E. exfalso. eapply Hall; [| exact E]. lia. }
    destruct (max_bytes <? n); [discriminate |].
    destruct (alloc_ok n); [| discriminate].
    cbn [mbind result_bind]. intros E. exfalso. eapply Hall; [| exact E]. lia.
Qed.

Lemma read_exact_ok f n :
  0 <= n -> Z.of_nat (tell f) + n <= Z.of_nat (length (contents f)) ->
  read_exact f n =
    Ok (take (Z.to_nat n) (drop (tell f) (contents f)), File (contents f) (tell f + Z.to_nat n)).
Proof.
  intros Hn Hlen. unfold read_exact, read. cbv zeta.
  destruct (Z.ltb_spec n (-1)); [lia |].
  destruct (Z.eqb_spec n (-1)); [lia |].
  destruct (Z.leb_spec n (Z.of_nat (length (drop (tell f) (contents f)))));
    [| rewrite length_drop in *; lia].
  cbn [mbind result_bind].
  assert (E : length (take (Z.to_nat n) (drop (tell f) (contents f))) = Z.to_nat n).
  { rewrite length_take, length_drop. lia. }
  rewrite E. destruct (Z.eqb_spec (Z.of_nat (Z.to_nat n)) n); [reflexivity | lia].
Qed.

(** The outcome of a request for more bytes than are left. *)
Lemma read_exact_beyond f n :
  Z.of_nat (length (contents f)) < Z.of_nat (tell f) + n ->
  0 < n ->
  read_exact f n =
    Raise (if n <=? 65535 then EOFError
           else if max_bytes <? n then OverflowError
           else if alloc_ok n then EOFError else MemoryError).
Proof.
  intros Hlen Hn. unfold read_exact, read. cbv zeta.
  destruct (Z.ltb_spec n (-1)); [lia |].
  destruct (Z.eqb_spec n (-1)); [lia |].
  destruct (Z.leb_spec n (Z.of_nat (length (drop (tell f) (contents f)))));
    [rewrite length_drop in *; lia |].
  assert (E : (Z.of_nat (length (drop (tell f) (contents f))) =? n) = false)
    by (apply Z.eqb_neq; lia).
  destruct (n <=? 65535); [cbn [mbind result_bind]; now rewrite E |].
  destruct (max_bytes <? n); [reflexivity |].
  destruct (alloc_ok n); [cbn [mbind result_bind]; now rewrite E | reflexivity].
Qed.

Lemma read_exact_short f n :
  Z.of_nat (length (contents f)) < Z.of_nat (tell f) + n ->
  0 < n -> n <= 65535 ->
  read_exact f n = Raise EOFError.
Proof.
  intros Hlen Hn Hsmall. rewrite read_exact_beyond by assumption.
  destruct (Z.leb_spec n 65535); [reflexivity | lia].
Qed.

Lemma byte_val_range b : 0 <= byte_val b < 256.
Proof.
  unfold byte_val. pose proof (Byte.to_N_bounded b) as H. lia.
Qed.

Lemma unpack_le_range bs : 0 <= unpack_le bs < 256 ^ Z.of_nat (length bs).
Proof.
  induction bs as [| b bs IH]; simpl unpack_le; simpl length.
  - simpl. lia.
  - rewrite Nat2Z.inj_succ, Z.pow_succ_r by lia.
    pose proof (byte_val_range b). lia.
Qed.

Lemma bind_Ok_inv {A B} (m : result A) (k : A -> result B) r :
  m ≫= k = Ok r -> exists a, m = Ok a /\ k a = Ok r.
Proof. destruct m as [a | e]; simpl; [eauto | discriminate]. Qed.

Ltac inv_bind H :=
  let a := fresh "a" in
  let E := fresh "E" in
  apply bind_Ok_inv in H; destruct H as (a & E & H).

Lemma read_u32_le_inv f v f' :
  read_u32_le f = Ok (v, f') ->
  v = unpack_le (take 4 (drop (tell f) (contents f))) /\
  0 <= v < 2 ^ 32 /\
  f' = File (contents f) (tell f + 4).
Proof.
  unfold read_u32_le. intros H. inv_bind H. destruct a as [b f1].
  injection H as <- <-. apply read_exact_inv in E as (_ & -> & Hl & ->).
  split; [reflexivity |]. split; [| reflexivity].
  pose proof (unpack_le_range (take (Z.to_nat 4) (drop (tell f) (contents f)))) as R.
  rewrite Hl in R. exact R.
Qed.

Lemma read_u16_le_inv f v f' :
  read_u16_le f = Ok (v, f') ->
  0 <= v < 2 ^ 16 /\ f' = File (contents f) (tell f + 2).
Proof.
  unfold read_u16_le. intros H. inv_bind H. destruct a as [b f1].
  injection H as <- <-. apply read_exact_inv in E as (_ & -> & Hl & ->).
  split; [| reflexivity].
  pose proof (unpack_le_range (take (Z.to_nat 2) (drop (tell f) (contents f)))) as R.
  rewrite Hl in R. exact R.
Qed.

Lemma read_divider_inv f f' :
  read_divider f = Ok f' ->
  contents f !! tell f = Some x7c /\ f' = File (contents f) (tell f + 1).
Proof.
  unfold read_divider. intros H. inv_bind H. destruct a as [b f1].
  apply read_exact_inv in E as (_ & -> & Hl & ->).
  destruct (drop (tell f) (contents f)) as [| c rest] eqn:D; [discriminate H |].
  change (take (Z.to_nat 1) (c :: rest)) with [c] in H. cbv beta iota in H.
  revert H. destruct (Z.eqb_spec (byte_val c) PIPE) as [Hc | Hc]; [| discriminate].
  intros [= <-]. split; [| reflexivity].
  assert (L : drop (tell f) (contents f) !! 0%nat = Some c) by (rewrite D; reflexivity).
  rewrite lookup_drop, Nat.add_0_r in L. rewrite L. f_equal.
  destruct c; try reflexivity; vm_compute in Hc; discriminate.
Qed.

Lemma seek_cur_inv f n f' :
  seek_cur f n = Ok f' ->
  0 <= n -> f' = File (contents f) (tell f + Z.to_nat n).
Proof.
  unfold seek_cur, seek. intros H Hn.
  destruct (Z.ltb_spec (Z.of_nat (tell f) + n) 0); [discriminate |].
  injection H as <-. f_equal. lia.
Qed.

Lemma read_bzstring_inv f size s f' :
  read_bzstring f size = Ok (s, f') ->
  0 <= size /\ f' = File (contents f) (tell f + Z.to_nat size).
Proof.
  unfold read_bzstring. intros H.
  destruct (Z.eqb_spec size 0) as [-> | Hs].
  - injection H as <- <-. split; [lia |]. destruct f; simpl. f_equal. lia.
  - inv_bind H. destruct a as [raw f1]. injection H as <- <-.
    apply read_exact_inv in E as (Hn & _ & _ & ->). split; [lia | reflexivity].
Qed.

Ltac inv_div H :=
  let a := fresh "a" in let E := fresh "E" in
  apply bind_Ok_inv in H; destruct H as (a & E & H);
  apply read_divider_inv in E as (_ & ->); cbn [contents tell] in H.
Ltac inv_u32 H :=
  let a := fresh "a" in let E := fresh "E" in
  apply bind_Ok_inv in H; destruct H as ([? ?] & E & H);
  apply read_u32_le_inv in E as (_ & _ & ->); cbn [contents tell] in H.
Ltac inv_u16 H :=
  let a := fresh "a" in let E := fresh "E" in
  apply bind_Ok_inv in H; destruct H as ([? ?] & E & H);
  apply read_u16_le_inv in E as (_ & ->); cbn [contents tell] in H.
Ltac inv_bz H :=
  let a := fresh "a" in let E := fresh "E" in
  apply bind_Ok_inv in H; destruct H as ([? ?] & E & H);
  apply read_bzstring_inv in E as (_ & ->); cbn [contents tell] in H.

Lemma parse_header_inv save meta f' :
  parse_header (open_rb save) = Ok (meta, f') ->
  let val := unpack_le (take 4 (drop 20 save)) in
  contents f' = save /\
  screenshot_offset meta = 4 + unpack_le (take 4 (drop 11 save)) /\
  width meta = (if 16384 <? val then unpack_le (take 4 (drop 85 save)) else val) /\
  (16384 < val -> save !! 84%nat = Some x7c) /\
  0 <= width meta < 2 ^ 32 /\
  0 <= height meta < 2 ^ 32 /\
  header_end_pos meta = Z.of_nat (tell f').
Proof.
  unfold parse_header, open_rb. intros H.
  inv_bind H. destruct a as [file_id f1].
  apply read_exact_inv in E as (_ & _ & _ & ->). cbn [contents tell] in H.
  destruct (negb (bytes_eqb file_id MAGIC)); [discriminate H |].
  inv_bind H. destruct a as [hs f2]. apply read_u32_le_inv in E as (Hhs & _ & ->).
  cbn [contents tell] in H, Hhs.
  inv_u32 H. inv_div H.
  inv_bind H. destruct a as [val f5]. apply read_u32_le_inv in E as (Hval & Rval & ->).
  cbn [contents tell] in H, Hval.
  inv_bind H. destruct a as [w f6].
  assert (Hw : exists n, f6 = File save n /\
               w = (if 16384 <? val then unpack_le (take 4 (drop 85 save)) else val) /\
               (16384 < val -> save !! 84%nat = Some x7c) /\ 0 <= w < 2 ^ 32).
  { destruct (Z.ltb_spec 16384 val) as [Hlt | Hge].
    - inv_bind E. apply seek_cur_inv in E0; [| lia]. subst a. cbn [contents tell] in E.
      inv_bind E. apply read_divider_inv in E0 as (Hd & ->). cbn [contents tell] in E, Hd.
      apply read_u32_le_inv in E as (-> & R & ->). cbn [contents tell].
      eexists. split; [reflexivity |]. auto.
    - injection E as <- <-. eexists. split; [reflexivity |].
      split; [reflexivity |]. lia. }
  destruct Hw as (n & -> & Hw & Hd & Rw). clear E.
  inv_div H.
  inv_bind H. destruct a as [h f8]. apply read_u32_le_inv in E as (_ & Rh & ->).
  cbn [contents tell] in H.
  inv_div H. inv_u32 H.
  inv_div H. inv_u16 H. inv_div H. inv_bz H.
  inv_div H. inv_u16 H. inv_div H. inv_bz H.
  inv_div H. inv_u32 H.
  inv_div H. inv_u16 H. inv_div H. inv_bz H.
  inv_div H. inv_u16 H. inv_div H. inv_bz H.
  injection H as <- <-. cbn [contents tell width height screenshot_offset header_end_pos].
  subst hs val. change (Z.to_nat 11) with 11%nat. auto 10.
Qed.

(** ** Encoders against decoders *)

Lemma byte_val_byte_of z : byte_val (byte_of z) = z mod 256.
Proof.
  unfold byte_val, byte_of.
  pose proof (Z.mod_pos_bound z 256 ltac:(lia)) as R.
  destruct (Byte.of_N (Z.to_N (z mod 256))) as [b |] eqn:E.
  - apply Byte.to_of_N in E. rewrite E. lia.
  - apply Byte.of_N_None_iff in E. lia.
Qed.

Lemma length_pack_le n v : length (pack_le n v) = n.
Proof. revert v. induction n as [| n IH]; intros v; simpl; [reflexivity | now rewrite IH]. Qed.

Lemma unpack_pack_le n v : unpack_le (pack_le n v) = v mod 256 ^ Z.of_nat n.
Proof.
  revert v. induction n as [| n IH]; intros v.
  - simpl. now rewrite Z.mod_1_r.
  - cbn [pack_le unpack_le]. rewrite byte_val_byte_of, IH.
    rewrite Nat2Z.inj_succ, Z.pow_succ_r by lia.
    rewrite Z.rem_mul_r by lia. lia.
Qed.

Lemma unpack_pack_u32 v : u32 v -> unpack_le (pack_le 4 v) = v.
Proof. unfold u32. intros R. rewrite unpack_pack_le. apply Z.mod_small. simpl. lia. Qed.

Lemma unpack_pack_u16 v : 0 <= v < 65536 -> unpack_le (pack_le 2 v) = v.
Proof. intros R. rewrite unpack_pack_le. apply Z.mod_small. simpl. lia. Qed.

(** ** Running the readers over a known layout

    The cursor stands after [pre]; the bytes that follow are known. *)

Lemma after_app pre x rest :
  File (pre ++ x ++ rest) (length pre + length x) = after (pre ++ x) rest.
Proof. unfold after. now rewrite <- app_assoc, length_app. Qed.

Lemma read_exact_after pre x rest n :
  n = Z.of_nat (length x) ->
  read_exact (after pre (x ++ rest)) n = Ok (x, after (pre ++ x) rest).
Proof.
  intros ->. unfold after. rewrite read_exact_ok; simpl.
  - rewrite drop_app_length, Nat2Z.id, take_app_length. now rewrite after_app.
  - lia.
  - rewrite !length_app. lia.
Qed.

Lemma read_u32_le_after pre v rest :
  u32 v -> read_u32_le (after pre (pack_le 4 v ++ rest)) = Ok (v, after (pre ++ pack_le 4 v) rest).
Proof.
  intros R. unfold read_u32_le. rewrite read_exact_after by now rewrite length_pack_le.
  cbn [mbind result_bind]. now rewrite unpack_pack_u32.
Qed.

Lemma read_u16_le_after pre v rest :
  0 <= v < 65536 ->
  read_u16_le (after pre (pack_le 2 v ++ rest)) = Ok (v, after (pre ++ pack_le 2 v) rest).
Proof.
  intros R. unfold read_u16_le. rewrite read_exact_after by now rewrite length_pack_le.
  cbn [mbind result_bind]. now rewrite unpack_pack_u16.
Qed.

Lemma read_divider_after pre rest :
  read_divider (after pre ([x7c] ++ rest)) = Ok (after (pre ++ [x7c]) rest).
Proof. unfold read_divider. rewrite read_exact_after by reflexivity. reflexivity. Qed.

Lemma seek_cur_after pre x rest n :
  n = Z.of_nat (length x) ->
  seek_cur (after pre (x ++ rest)) n = Ok (after (pre ++ x) rest).
Proof.
  intros ->. rewrite <- after_app. unfold seek_cur, seek, after. cbn [tell contents].
  destruct (Z.ltb_spec (Z.of_nat (length pre) + Z.of_nat (length x)) 0); [lia |].
  f_equal. f_equal. lia.
Qed.

Lemma read_bzstring_after pre s rest :
  read_bzstring (after pre (s ++ rest)) (Z.of_nat (length s)) =
    Ok (string_of_list_byte s, after (pre ++ s) rest).
Proof.
  unfold read_bzstring. destruct (Z.eqb_spec (Z.of_nat (length s)) 0) as [E | E].
  - destruct s; [| simpl in E; lia]. simpl. now rewrite app_nil_r.
  - now rewrite read_exact_after.
Qed.

Lemma read_divider_after_cons pre rest :
  read_divider (after pre (x7c :: rest)) = Ok (after (pre ++ [x7c]) rest).
Proof. apply read_divider_after. Qed.

Ltac run_reader :=
  first
    [ rewrite read_divider_after_cons
    | rewrite read_u32_le_after by assumption
    | rewrite read_u16_le_after by lia
    | rewrite read_bzstring_after ];
  cbn [mbind result_bind].

Lemma parse_tail_fields {A} pre t rest (k : Z -> Z -> string -> string -> Z -> string -> string -> file -> result A) :
  tail_ok t ->
  (f ← read_divider (after pre (encode_tail t ++ rest));
   '(height, f) ← read_u32_le f;
   f ← read_divider f;
   '(save_index, f) ← read_u32_le f;
   f ← read_divider f;
   '(pc_name_size, f) ← read_u16_le f;
   f ← read_divider f;
   '(pc_name, f) ← read_bzstring f pc_name_size;
   f ← read_divider f;
   '(pc_karma_size, f) ← read_u16_le f;
   f ← read_divider f;
   '(pc_karma, f) ← read_bzstring f pc_karma_size;
   f ← read_divider f;
   '(pc_level, f) ← read_u32_le f;
   f ← read_divider f;
   '(pc_location_size, f) ← read_u16_le f;
   f ← read_divider f;
   '(pc_location, f) ← read_bzstring f pc_location_size;
   f ← read_divider f;
   '(playtime_size, f) ← read_u16_le f;
   f ← read_divider f;
   '(playtime, f) ← read_bzstring f playtime_size;
   k height save_index pc_name pc_karma pc_level pc_location playtime f) =
  k (t_height t) (t_save_index t)
    (string_of_list_byte (t_name t)) (string_of_list_byte (t_karma t)) (t_level t)
    (string_of_list_byte (t_location t)) (string_of_list_byte (t_playtime t))
    (after (pre ++ encode_tail t) rest).
Proof.
  intros (Hh & Hi & Hl & Hn & Hk & Hloc & Hp).
  unfold encode_tail, bzstring. rewrite <- !app_assoc. cbn [app].
  do 22 run_reader.
  rewrite <- !app_assoc. cbn [app]. reflexivity.
Qed.

Lemma open_rb_after bs : open_rb bs = after [] bs.
Proof. reflexivity. Qed.

Lemma parse_plain_header hs unk w t rest :
  u32 hs -> u32 unk -> u32 w -> w <= 16384 -> tail_ok t ->
  parse_header (open_rb (plain_header hs unk w t ++ rest)) =
    Ok (decoded_header hs unk w t (length (plain_header hs unk w t)),
        after (plain_header hs unk w t) rest).
Proof.
  intros Hhs Hunk Hw Hle Ht. rewrite open_rb_after.
  unfold parse_header, plain_header. rewrite <- !app_assoc. cbn [app].
  rewrite (read_exact_after [] MAGIC) by reflexivity. cbn [mbind result_bind].
  change (negb (bytes_eqb MAGIC MAGIC)) with false. cbv iota.
  do 4 run_reader.
  destruct (Z.ltb_spec 16384 w) as [Hlt | _]; [lia |]. cbn [mbind result_bind].
  rewrite parse_tail_fields by assumption.
  unfold decoded_header, after. cbn [tell length app]. rewrite <- !app_assoc. cbn [app].
  reflexivity.
Qed.

Lemma parse_legacy_header hs unk bogus skip w t rest :
  u32 hs -> u32 unk -> u32 bogus -> 16384 < bogus -> length skip = 60%nat ->
  u32 w -> tail_ok t ->
  parse_header (open_rb (legacy_header hs unk bogus skip w t ++ rest)) =
    Ok (decoded_header hs unk w t (length (legacy_header hs unk bogus skip w t)),
        after (legacy_header hs unk bogus skip w t) rest).
Proof.
  intros Hhs Hunk Hb Hlt Hskip Hw Ht. rewrite open_rb_after.
  unfold parse_header, legacy_header. rewrite <- !app_assoc. cbn [app].
  rewrite (read_exact_after [] MAGIC) by reflexivity. cbn [mbind result_bind].
  change (negb (bytes_eqb MAGIC MAGIC)) with false. cbv iota.
  do 4 run_reader.
  destruct (Z.ltb_spec 16384 bogus) as [_ | Hge]; [| lia].
  rewrite seek_cur_after by (rewrite Hskip; reflexivity). cbn [mbind result_bind].
  do 2 run_reader.
  rewrite parse_tail_fields by assumption.
  unfold decoded_header, after. cbn [tell length app].
  rewrite <- ?app_assoc. cbn [app]. rewrite <- ?app_assoc. cbn [app]. rewrite <- ?app_assoc.
  reflexivity.
Qed.

(** ** The header decoder and the offsets: main statements *)

(** C1, as stated, fails: for cluster 170 the specification's wording gives
    one 8192-byte index block, the code adds two. *)
Lemma get_offset_170_not_spec :
  _get_offset 170 = con_start + 170 * 4096 + 2 * 8192 /\
  spec_offset 170 = con_start + 170 * 4096 + 1 * 8192 /\
  _get_offset 170 <> spec_offset 170.
Proof. vm_compute. repeat split; discriminate. Qed.

(** C1, amended: for a non-negative cluster [c] the offset is
    [con_start + c * 4096] plus [index_blocks c] index blocks of 8192
    bytes, that is [c / 170 + 1] blocks once [c] has reached 170 and
    [c / 28900 + 1] more once it has reached 170 * 170; cluster 170 gets two
    blocks and cluster 170 * 170 gets 173. *)
Theorem get_offset_index_blocks (c : Z) :
  0 <= c ->
  _get_offset c = con_start + c * 4096 + index_blocks c * 8192 /\
  (c < 170 -> index_blocks c = 0) /\
  (170 <= c < 170 * 170 -> index_blocks c = c / 170 + 1) /\
  (170 * 170 <= c -> index_blocks c = (c / 170 + 1) + (c / (170 * 170) + 1)) /\
  index_blocks 170 = 2 /\
  index_blocks (170 * 170) = 173.
Proof.
  intros Hc. split; [apply (get_offset_blocks c Hc) |].
  unfold index_blocks.
  repeat split; try reflexivity; intros H;
    destruct (Z.ltb_spec c 170); destruct (Z.ltb_spec c (170 * 170)); lia.
Qed.

(** C3: in every accepted save, when the 32-bit value after the first
    divider (bytes 20 to 23) exceeds 16384 the width is the value read after
    a skip of exactly 60 bytes (bytes 24 to 83) and a divider (byte 84), that
    is the field at bytes 85 to 88; otherwise the width is the first value.
    A header built with a first value above 16384, any block of 60 bytes, a
    divider and a width decodes, and the decoded width is that width; a
    header in the current layout decodes to its width. *)
Theorem legacy_header_detection :
  (forall save meta f',
     parse_header (open_rb save) = Ok (meta, f') ->
     let val := unpack_le (take 4 (drop 20 save)) in
     (16384 < val ->
      save !! 84%nat = Some x7c /\ width meta = unpack_le (take 4 (drop 85 save))) /\
     (val <= 16384 -> width meta = val)) /\
  (forall hs unk bogus skip w t rest,
     u32 hs -> u32 unk -> u32 bogus -> 16384 < bogus -> length skip = 60%nat ->
     u32 w -> tail_ok t ->
     exists meta f',
       parse_header (open_rb (legacy_header hs unk bogus skip w t ++ rest)) = Ok (meta, f') /\
       width meta = w) /\
  (forall hs unk w t rest,
     u32 hs -> u32 unk -> u32 w -> w <= 16384 -> tail_ok t ->
     exists meta f',
       parse_header (open_rb (plain_header hs unk w t ++ rest)) = Ok (meta, f') /\
       width meta = w).
Proof.
  split; [| split].
  - intros save meta f' H val.
    apply parse_header_inv in H as (_ & _ & Hw & Hd & _).
    fold val in Hw, Hd. split.
    + intros Hlt. split; [auto |]. rewrite Hw.
      destruct (Z.ltb_spec 16384 val); [reflexivity | lia].
    + intros Hle. rewrite Hw. destruct (Z.ltb_spec 16384 val); [lia | reflexivity].
  - intros hs unk bogus skip w t rest Hhs Hunk Hb Hlt Hs Hw Ht.
    do 2 eexists. split; [apply parse_legacy_header; assumption | reflexivity].
  - intros hs unk w t rest Hhs Hunk Hw Hle Ht.
    do 2 eexists. split; [apply parse_plain_header; assumption | reflexivity].
Qed.

(** C10: the legacy branch is taken once.  When the first value exceeds
    16384 and the value read after the 60-byte block and the divider exceeds
    16384 too, the decoder raises nothing and takes that second value as the
    width; it goes on with the height right after it and stops at the end of
    the header, so nothing more was skipped or read again. *)
Theorem legacy_branch_taken_once hs unk bogus skip w t rest :
  u32 hs -> u32 unk -> u32 bogus -> 16384 < bogus -> length skip = 60%nat ->
  u32 w -> 16384 < w -> tail_ok t ->
  exists meta f',
    parse_header (open_rb (legacy_header hs unk bogus skip w t ++ rest)) = Ok (meta, f') /\
    width meta = w /\
    height meta = t_height t /\
    header_end_pos meta = Z.of_nat (length (legacy_header hs unk bogus skip w t)) /\
    header_end_pos meta = 11 + 4 + 4 + (1 + 4) + 60 + (1 + 4) + Z.of_nat (length (encode_tail t)) /\
    f' = after (legacy_header hs unk bogus skip w t) rest.
Proof.
  intros Hhs Hunk Hb Hlt Hs Hw Hwide Ht.
  do 2 eexists. split; [apply parse_legacy_header; assumption |].
  cbn [decoded_header width height header_end_pos].
  repeat split. unfold legacy_header.
  rewrite !length_app, !length_pack_le, Hs. cbn [length MAGIC]. lia.
Qed.

(** C8, amended: for every save that the header decoder accepts, that
    declares a non-zero number [width * height * 3] of pixel bytes and whose
    bytes end at least one byte before that many bytes past the screenshot
    offset, [extract_image] raises and returns no image.  The exception is
    [EOFError] when the runtime grants a buffer of the declared length (it
    always does up to 65535 bytes, a 147 by 148 picture); it is
    [OverflowError] when the declared length is above the largest count of
    the runtime, which two 32-bit dimensions can reach, and [MemoryError]
    when the allocator refuses the buffer. *)
Theorem truncated_save_raises (save : list byte) (meta : header) (f' : file) :
  parse_header (open_rb save) = Ok (meta, f') ->
  let expected := width meta * height meta * 3 in
  0 < expected ->
  Z.of_nat (length save) + 1 <= screenshot_offset meta + expected ->
  (forall r, extract_image save <> Ok r) /\
  (expected <= 65535 \/ (expected <= max_bytes /\ alloc_ok expected = true) ->
   extract_image save = Raise EOFError) /\
  (65535 < expected -> max_bytes < expected ->
   extract_image save = Raise OverflowError) /\
  (65535 < expected -> expected <= max_bytes -> alloc_ok expected = false ->
   extract_image save = Raise MemoryError).
Proof.
  intros H expected Hpos Hlen.
  assert (Hrun : extract_image save =
                 Raise (if expected <=? 65535 then EOFError
                        else if max_bytes <? expected then OverflowError
                        else if alloc_ok expected then EOFError else MemoryError)).
  { unfold extract_image. rewrite H. cbn [mbind result_bind].
    apply parse_header_inv in H as (Hc & Hoff & _).
    pose proof (unpack_le_range (take 4 (drop 11 save))) as Rhs.
    unfold seek. destruct (Z.ltb_spec (screenshot_offset meta) 0); [lia |].
    cbn [mbind result_bind]. fold expected.
    rewrite read_exact_beyond; [reflexivity | | exact Hpos].
    cbn [tell contents]. rewrite Hc. lia. }
  rewrite Hrun. split; [intros r; discriminate |]. split; [| split].
  - intros [Hs | [Hm Ha]].
    + destruct (Z.leb_spec expected 65535); [reflexivity | lia].
    + destruct (Z.leb_spec expected 65535); [reflexivity |].
      destruct (Z.ltb_spec max_bytes expected); [lia |]. now rewrite Ha.
  - intros Hs Hm. destruct (Z.leb_spec expected 65535); [lia |].
    destruct (Z.ltb_spec max_bytes expected); [reflexivity | lia].
  - intros Hs Hm Ha. destruct (Z.leb_spec expected 65535); [lia |].
    destruct (Z.ltb_spec max_bytes expected); [lia |]. now rewrite Ha.
Qed.

(** ** The clustered container *)

Lemma read_entry_is_dir decode f e f' :
  _read_entry decode f = Ok (Some e, f') ->
  is_dir e = (Size e =? 0) && (Cluster e =? 0).
Proof.
  unfold _read_entry. intros H.
  inv_bind H. destruct a as [name f1]. destruct name as [| c name]; [discriminate H |].
  repeat (inv_bind H; destruct a as [? ?]).
  injection H as <- _. reflexivity.
Qed.

Lemma is_dir_iff e :
  is_dir e = (Size e =? 0) && (Cluster e =? 0) ->
  (is_dir e = true <-> Size e = 0 /\ Cluster e = 0).
Proof.
  intros ->. rewrite andb_true_iff, !Z.eqb_eq. reflexivity.
Qed.

Lemma read_entries_loop_is_dir decode fuel f acc idx es f' :
  Forall (fun e => is_dir e = (Size e =? 0) && (Cluster e =? 0)) acc ->
  _read_entries_loop decode fuel f acc idx = Ok (Some (es, f')) ->
  Forall (fun e => is_dir e = (Size e =? 0) && (Cluster e =? 0)) es.
Proof.
  revert f acc idx. induction fuel as [| fuel IH]; intros f acc idx Hacc H.
  - discriminate H.
  - cbn [_read_entries_loop] in H.
    inv_bind H. inv_bind H. destruct a0 as [[e |] f1].
    + apply IH in H; [exact H |].
      apply Forall_app. split; [exact Hacc |].
      constructor; [| constructor]. eapply read_entry_is_dir. exact E0.
    + injection H as <- _. exact Hacc.
Qed.

(** C7: every entry that [_read_entry] decodes, and so every entry of the
    table that [__init__] builds, is a directory exactly when its size is 0
    and its start cluster is 0.  Such an entry produces no output: it is
    skipped by [extract_all], and [_extract_entry] returns before opening
    the destination.  An entry of size 0 with a non-zero cluster is not a
    directory. *)
Theorem directory_iff_size_and_cluster_zero :
  (forall decode f e f',
     _read_entry decode f = Ok (Some e, f') ->
     (is_dir e = true <-> Size e = 0 /\ Cluster e = 0) /\
     (Size e = 0 -> Cluster e = 0 ->
      is_dir e = true /\
      forall self,
        extract_entries self [e] = Ok [] /\
        _extract_entry self e = Ok (None, self_f self)) /\
     (Size e = 0 -> Cluster e <> 0 -> is_dir e = false)) /\
  (forall decode fuel pkg self,
     __init__ decode fuel pkg = Ok (Some self) ->
     Forall (fun e => is_dir e = true <-> Size e = 0 /\ Cluster e = 0) (entries self)).
Proof.
  split.
  - intros decode f e f' H. apply read_entry_is_dir in H.
    split; [apply is_dir_iff, H |]. split.
    + intros Hs Hc. rewrite H, Hs, Hc. split; [reflexivity |].
      intros self. cbn [extract_entries]. rewrite H, Hs, Hc. cbn.
      split; [reflexivity |]. unfold _extract_entry. rewrite Hs. reflexivity.
    + intros Hs Hc. rewrite H, Hs. cbn. apply Z.eqb_neq, Hc.
  - intros decode fuel pkg self H. unfold __init__ in H.
    inv_bind H. destruct a as [magic f].
    destruct (negb (bytes_eqb magic MAGIC_CON)); [discriminate H |].
    inv_bind H. destruct a as [[es f1] |]; [| discriminate H].
    injection H as <-. cbn [entries].
    apply read_entries_loop_is_dir in E0; [| constructor].
    eapply Forall_impl; [exact E0 |]. intros e He. apply is_dir_iff, He.
Qed.

Lemma r_u32le_contents f v f' : r_u32le f = Ok (v, f') -> contents f' = contents f.
Proof.
  unfold r_u32le. intros H. inv_bind H. destruct a as [b f1]. injection H as _ <-.
  now apply read_exact_inv in E as (_ & _ & _ & ->).
Qed.

Lemma r_i32le_contents f v f' : r_i32le f = Ok (v, f') -> contents f' = contents f.
Proof.
  unfold r_i32le. intros H. inv_bind H. destruct a as [b f1]. injection H as _ <-.
  now apply read_exact_inv in E as (_ & _ & _ & ->).
Qed.

Lemma r_u16le_contents f v f' : r_u16le f = Ok (v, f') -> contents f' = contents f.
Proof.
  unfold r_u16le. intros H. inv_bind H. destruct a as [b f1]. injection H as _ <-.
  now apply read_exact_inv in E as (_ & _ & _ & ->).
Qed.

Ltac step_contents H :=
  let E := fresh "E" in
  apply bind_Ok_inv in H; destruct H as ([? ?] & E & H);
  first [ apply r_i32le_contents in E
        | apply r_u32le_contents in E
        | apply r_u16le_contents in E ].

Lemma read_entry_contents decode f e f' :
  _read_entry decode f = Ok (e, f') -> contents f' = contents f.
Proof.
  unfold _read_entry, read_fixed_str. intros H.
  inv_bind H. destruct a as [name f1].
  inv_bind E. destruct a as [raw f0]. injection E as <- <-.
  apply read_exact_inv in E0 as (_ & _ & _ & ->).
  destruct (decode (until_nul raw)) as [| c name]; [injection H as <- <-; reflexivity |].
  do 7 step_contents H.
  injection H as _ <-. cbn [contents] in *. congruence.
Qed.

(** The table scan ends: the file is finite and every record read moves 64
    bytes on, so a fuel of one more than the length of the file is never
    used up. *)
Lemma read_entries_loop_fuel decode fuel : forall f acc idx,
  0 <= idx ->
  Z.of_nat (length (contents f)) < con_start + 64 * (idx + Z.of_nat fuel) + 38 ->
  _read_entries_loop decode (S fuel) f acc idx <> Ok None.
Proof.
  induction fuel as [| fuel IH]; intros f acc idx Hidx Hlen.
  - cbn [_read_entries_loop]. unfold seek.
    destruct (Z.ltb_spec (con_start + idx * 64) 0); [discriminate |].
    cbn [mbind result_bind]. unfold _read_entry, read_fixed_str.
    rewrite read_exact_short by (cbn [contents tell]; unfold con_start in *; lia).
    discriminate.
  - cbn [_read_entries_loop]. unfold seek.
    destruct (Z.ltb_spec (con_start + idx * 64) 0); [discriminate |].
    cbn [mbind result_bind].
    destruct (_read_entry decode _) as [[[e |] f'] | err] eqn:E; cbn [mbind result_bind];
      [| discriminate..].
    apply read_entry_contents in E. cbn [contents] in E.
    apply IH; [lia | rewrite E; lia].
Qed.

Lemma init_fuel decode pkg : __init__ decode (S (length pkg)) pkg <> Ok None.
Proof.
  unfold __init__. destruct (read_exact (open_rb pkg) 4) as [[magic f] | err] eqn:E;
    cbn [mbind result_bind]; [| discriminate].
  destruct (negb (bytes_eqb magic MAGIC_CON)); [discriminate |].
  apply read_exact_inv in E as (_ & _ & _ & ->).
  pose proof (read_entries_loop_fuel decode (length pkg)
                (File (contents (open_rb pkg)) (tell (open_rb pkg) + Z.to_nat 4)) [] 0) as H.
  destruct (_read_entries_loop decode (S (length pkg)) _ [] 0) as [[[es f'] |] | err];
    cbn [mbind result_bind]; try discriminate.
  exfalso. apply H; [lia | cbn [contents open_rb]; unfold con_start; lia | reflexivity].
Qed.

(** ** The block loop of [_extract_entry] *)

Lemma corr_nonneg n : 0 <= corr n.
Proof. unfold corr, con_offset. destruct (Z.ltb_spec 0 n); lia. Qed.

Lemma get_offset_lower c : 0 <= c -> con_start <= _get_offset c.
Proof.
  intros Hc. rewrite get_offset_unfold.
  pose proof (corr_nonneg (c / 170)). pose proof (corr_nonneg (c / 170 / 170)). lia.
Qed.

(** The four ways through the body, by the tests it makes. *)
Lemma block_body_not_increasing pkg_size start st i :
  _get_offset (start + i) <= xs_last_off st ->
  block_body pkg_size start st i = Ok (BreakNotIncreasing, st).
Proof.
  intros H. unfold block_body.
  destruct (Z.leb_spec (_get_offset (start + i)) (xs_last_off st)); [reflexivity | lia].
Qed.

Lemma block_body_past_end pkg_size start st i :
  xs_last_off st < _get_offset (start + i) ->
  pkg_size <= _get_offset (start + i) ->
  block_body pkg_size start st i =
    Ok (BreakPastEnd, XState (xs_f st) (xs_w st) (_get_offset (start + i)) 0).
Proof.
  intros H1 H2. unfold block_body.
  destruct (Z.leb_spec (_get_offset (start + i)) (xs_last_off st)); [lia |].
  cbn [xs_f xs_w xs_last_off xs_remainder].
  destruct (Z.leb_spec pkg_size (_get_offset (start + i))); [reflexivity | lia].
Qed.

Lemma block_body_reads pkg_size start st i :
  let off := _get_offset (start + i) in
  let to_read := Z.min 4096 (pkg_size - off) in
  xs_last_off st < off -> 0 <= off -> off < pkg_size ->
  pkg_size = Z.of_nat (length (contents (xs_f st))) ->
  block_body pkg_size start st i =
    let b := take (Z.to_nat to_read) (drop (Z.to_nat off) (contents (xs_f st))) in
    let f := File (contents (xs_f st)) (Z.to_nat off + Z.to_nat to_read) in
    if to_read <? 4096 then Ok (BreakShortBlock, XState f (xs_w st ++ b) off 0)
    else Ok (Next, XState f (xs_w st ++ b) off (xs_remainder st)).
Proof.
  intros off to_read H1 H0 H2 Hsz. unfold block_body. fold off.
  destruct (Z.leb_spec off (xs_last_off st)); [lia |].
  cbn [xs_f xs_w xs_last_off xs_remainder].
  destruct (Z.leb_spec pkg_size off); [lia |]. fold to_read.
  destruct (Z.leb_spec to_read 0); [unfold to_read in *; lia |].
  unfold seek. destruct (Z.ltb_spec off 0); [lia |]. cbn [mbind result_bind].
  rewrite read_exact_ok by (cbn [tell contents]; unfold to_read; lia).
  cbn [mbind result_bind tell contents xs_f xs_w xs_last_off xs_remainder].
  destruct (to_read <? 4096); reflexivity.
Qed.

Lemma block_loop_exit pkg_size start n : forall i st,
  pkg_size = Z.of_nat (length (contents (xs_f st))) ->
  0 <= start + i ->
  xs_last_off st < _get_offset (start + i) ->
  exists fl st',
    block_loop pkg_size start n i st = Ok (fl, st') /\
    fl <> BreakNotIncreasing /\
    contents (xs_f st') = contents (xs_f st) /\
    (fl <> Next -> xs_remainder st' = 0).
Proof.
  induction n as [| n IH]; intros i st Hsz Hi Hlast.
  - exists Next, st. cbn. repeat split; congruence.
  - cbn [block_loop].
    destruct (Z.le_gt_cases pkg_size (_get_offset (start + i))) as [Hpast | Hin].
    + rewrite block_body_past_end by assumption. cbn [mbind result_bind].
      do 2 eexists. split; [reflexivity |]. repeat split; congruence.
    + pose proof (get_offset_lower (start + i) Hi) as Hlow. unfold con_start in Hlow.
      rewrite block_body_reads by (assumption || lia).
      cbv zeta. destruct (Z.ltb_spec (Z.min 4096 (pkg_size - _get_offset (start + i))) 4096).
      * cbn [mbind result_bind]. do 2 eexists. split; [reflexivity |].
        repeat split; congruence.
      * cbn [mbind result_bind].
        replace (start + (i + 1)) with ((start + i) + 1) in IH by lia.
        edestruct (IH (i + 1)) as (fl & st' & Hrun & Hfl & Hc & Hrem);
          [ | | | exists fl, st'; split; [exact Hrun |]; split; [exact Hfl |]; split;
                  [rewrite Hc; reflexivity | exact Hrem] ].
        -- cbn [xs_f contents]. exact Hsz.
        -- lia.
        -- cbn [xs_last_off]. replace (start + (i + 1)) with ((start + i) + 1) by lia.
           apply get_offset_lt. lia.
Qed.

(** C9: the offset is strictly increasing in the cluster index, so the
    block loop, which starts with [last_off = -1] and a non-negative start
    cluster, runs to its end or leaves by another [break]: never by the one
    taken when the offset is not above the previous one. *)
Theorem get_offset_strictly_increasing :
  (forall c1 c2, 0 <= c1 -> c1 < c2 -> _get_offset c1 < _get_offset c2) /\
  (forall pkg pos start n w rem,
     0 <= start ->
     exists fl st',
       block_loop (Z.of_nat (length pkg)) start n 0 (XState (File pkg pos) w (-1) rem)
         = Ok (fl, st') /\
       fl <> BreakNotIncreasing).
Proof.
  split.
  - intros c1 c2 _ H. apply get_offset_lt, H.
  - intros pkg pos start n w rem Hs.
    destruct (block_loop_exit (Z.of_nat (length pkg)) start n 0
                (XState (File pkg pos) w (-1) rem)) as (fl & st' & Hrun & Hfl & _).
    + reflexivity.
    + lia.
    + cbn [xs_last_off]. pose proof (get_offset_lower (start + 0)) as Hlow.
      unfold con_start in Hlow. lia.
    + eauto.
Qed.







(** ** The pixel transform *)

Lemma getitem_Some l i x : l !! i = Some x -> getitem l i = Ok x.
Proof. unfold getitem. now intros ->. Qed.

Lemma setitem_lt l i x : (i < length l)%nat -> setitem l i x = Ok (<[i := x]> l).
Proof.
  intros H. unfold setitem. destruct (Nat.ltb_spec i (length l)); [reflexivity | lia].
Qed.

Lemma range3_count c n : (c < 3)%nat -> ((n * 3 - c + 2) / 3 = n)%nat.
Proof.
  intros Hc. destruct n as [| n]; [destruct c as [| [| [| c]]]; try lia; reflexivity |].
  symmetry. apply (Nat.div_unique _ 3 (S n) (2 - c)); lia.
Qed.

(** The three assignments of one iteration. *)
Lemma reorder_body_ok r_i g_i b_i buf out i x y z :
  buf !! (i + r_i)%nat = Some x -> buf !! (i + g_i)%nat = Some y ->
  buf !! (i + b_i)%nat = Some z -> (i + 2 < length out)%nat ->
  reorder_body r_i g_i b_i buf out i =
    Ok (<[(i + 2)%nat := z]> (<[(i + 1)%nat := y]> (<[(i + 0)%nat := x]> out))).
Proof.
  intros Hx Hy Hz Hi. unfold reorder_body.
  rewrite (getitem_Some _ _ _ Hx). cbn [mbind result_bind].
  rewrite setitem_lt by lia. cbn [mbind result_bind].
  rewrite (getitem_Some _ _ _ Hy). cbn [mbind result_bind].
  rewrite setitem_lt by (rewrite length_insert; lia). cbn [mbind result_bind].
  rewrite (getitem_Some _ _ _ Hz). cbn [mbind result_bind].
  rewrite setitem_lt by (rewrite !length_insert; lia). reflexivity.
Qed.

Lemma reorder_loop r_i g_i b_i buf m :
  (r_i < 3)%nat -> (g_i < 3)%nat -> (b_i < 3)%nat ->
  length buf = (m * 3)%nat ->
  forall n a out,
    (a + n = m)%nat -> length out = (m * 3)%nat ->
    exists out',
      for_each (reorder_body r_i g_i b_i buf) (map (fun k => 0 + 3 * k)%nat (seq a n)) out
        = Ok out' /\
      length out' = (m * 3)%nat /\
      (forall p c, (a <= p < m)%nat -> (c < 3)%nat ->
         out' !! (3 * p + c)%nat = buf !! (3 * p + source_channel r_i g_i b_i c)%nat) /\
      (forall j, (j < 3 * a)%nat -> out' !! j = out !! j).
Proof.
  intros Hr Hg Hb Hlen. induction n as [| n IH]; intros a out Han Hout.
  - exists out. cbn. split; [reflexivity |]. split; [exact Hout |].
    split; [intros; lia | reflexivity].
  - cbn [seq map for_each].
    destruct (lookup_lt_is_Some_2 buf (0 + 3 * a + r_i)) as [x Hx]; [lia |].
    destruct (lookup_lt_is_Some_2 buf (0 + 3 * a + g_i)) as [y Hy]; [lia |].
    destruct (lookup_lt_is_Some_2 buf (0 + 3 * a + b_i)) as [z Hz]; [lia |].
    rewrite (reorder_body_ok _ _ _ _ _ _ x y z) by (assumption || lia).
    cbn [mbind result_bind].
    destruct (IH (S a) (<[(0 + 3 * a + 2)%nat := z]>
                          (<[(0 + 3 * a + 1)%nat := y]> (<[(0 + 3 * a + 0)%nat := x]> out))))
      as (out' & Hrun & Hl' & Hnew & Hold); [lia | rewrite !length_insert; exact Hout |].
    exists out'. split; [exact Hrun |]. split; [exact Hl' |]. split.
    + intros p c Hp Hc. destruct (Nat.eq_dec p a) as [-> | Hne].
      * rewrite Hold by lia.
        destruct c as [| [| [| c]]]; [| | | lia]; cbn [source_channel].
        -- rewrite list_lookup_insert_ne by lia. rewrite list_lookup_insert_ne by lia.
           replace (3 * a + 0)%nat with (0 + 3 * a + 0)%nat by lia.
           rewrite list_lookup_insert_eq by lia. rewrite <- Hx. f_equal; lia.
        -- rewrite list_lookup_insert_ne by lia.
           replace (3 * a + 1)%nat with (0 + 3 * a + 1)%nat by lia.
           rewrite list_lookup_insert_eq by (rewrite length_insert; lia).
           rewrite <- Hy. f_equal; lia.
        -- replace (3 * a + 2)%nat with (0 + 3 * a + 2)%nat by lia.
           rewrite list_lookup_insert_eq by (rewrite !length_insert; lia).
           rewrite <- Hz. f_equal; lia.
      * apply Hnew; lia.
    + intros j Hj. rewrite Hold by lia.
      rewrite !list_lookup_insert_ne by lia. reflexivity.
Qed.

Lemma permute_channels_lookup r_i g_i b_i buf m :
  (r_i < 3)%nat -> (g_i < 3)%nat -> (b_i < 3)%nat ->
  length buf = (m * 3)%nat ->
  exists out,
    permute_channels r_i g_i b_i buf = Ok out /\
    length out = length buf /\
    forall p c, (p < m)%nat -> (c < 3)%nat ->
      out !! (3 * p + c)%nat = buf !! (3 * p + source_channel r_i g_i b_i c)%nat.
Proof.
  intros Hr Hg Hb Hlen. unfold permute_channels, range3.
  rewrite Hlen.
  rewrite (range3_count 0 m) by lia.
  destruct (reorder_loop r_i g_i b_i buf m Hr Hg Hb Hlen m 0%nat (replicate (m * 3) x00))
    as (out & Hrun & Hl & Hnew & _); [lia | apply length_replicate |].
  exists out. split; [exact Hrun |]. split; [lia |].
  intros p c Hp Hc. apply Hnew; lia.
Qed.

(** *** Strided slices *)

(** Reading the positions [s + 3 * k], all inside [l]. *)
Lemma omap_strided (l : list byte) s n : forall a,
  (n = 0 \/ s + 3 * (a + n - 1) < length l)%nat ->
  length (omap (fun i => l !! i) (map (fun k => s + 3 * k)%nat (seq a n))) = n /\
  forall k, (k < n)%nat ->
    omap (fun i => l !! i) (map (fun k => s + 3 * k)%nat (seq a n)) !! k
      = l !! (s + 3 * (a + k))%nat.
Proof.
  unfold omap. induction n as [| n IH]; intros a Hin.
  - split; [reflexivity | intros; lia].
  - cbn [seq map list_omap].
    destruct (lookup_lt_is_Some_2 l (s + 3 * a)) as [x Hx]; [lia |].
    rewrite Hx.
    destruct (IH (S a)) as (Hl & Hk); [lia |].
    split; [cbn [length]; now rewrite Hl |].
    intros [| k] Hlt.
    + cbn. rewrite <- Hx. f_equal; lia.
    + cbn [lookup list_lookup]. rewrite Hk by lia. f_equal; lia.
Qed.

(** Writing [v] at the positions [s + 3 * k], all inside [l]. *)
Lemma assign_strided s n : forall a (v l : list byte),
  length v = n ->
  (n = 0 \/ s + 3 * (a + n - 1) < length l)%nat ->
  let r := fold_left (fun o p => <[fst p := snd p]> o)
             (zip (map (fun k => s + 3 * k)%nat (seq a n)) v) l in
  length r = length l /\
  (forall k, (k < n)%nat -> r !! (s + 3 * (a + k))%nat = v !! k) /\
  (forall j, (forall k, (k < n)%nat -> j <> s + 3 * (a + k))%nat -> r !! j = l !! j).
Proof.
  induction n as [| n IH]; intros a v l Hv Hin.
  - cbn. split; [reflexivity |]. split; [intros; lia | reflexivity].
  - destruct v as [| x v]; [discriminate Hv |]. cbn [seq map zip zip_with fold_left fst snd].
    destruct (IH (S a) v (<[(s + 3 * a)%nat := x]> l)) as (Hl & Hhit & Hmiss);
      [cbn in Hv; lia | rewrite length_insert; lia |].
    cbv zeta. split; [now rewrite Hl, length_insert |]. split.
    + intros [| k] Hk.
      * rewrite Hmiss by (intros; lia).
        replace (s + 3 * (a + 0))%nat with (s + 3 * a)%nat by lia.
        rewrite list_lookup_insert_eq by lia. reflexivity.
      * replace (s + 3 * (a + S k))%nat with (s + 3 * (S a + k))%nat by lia.
        rewrite Hhit by lia. reflexivity.
    + intros j Hj. rewrite Hmiss.
      * apply list_lookup_insert_ne. specialize (Hj 0%nat). lia.
      * intros k Hk. specialize (Hj (S k)). lia.
Qed.

Lemma rotate_right_lookup (shift : nat) (r : list byte) k :
  (0 < shift < length r)%nat -> (k < length r)%nat ->
  rotate_right shift r !! k =
    r !! (if (k <? shift)%nat then k + length r - shift else k - shift)%nat.
Proof.
  intros Hs Hk. unfold rotate_right.
  destruct (Nat.ltb_spec k shift) as [Hlt | Hge].
  - rewrite lookup_app_l by (rewrite length_drop; lia).
    rewrite lookup_drop. f_equal; lia.
  - rewrite lookup_app_r by (rewrite length_drop; lia).
    rewrite length_drop. rewrite lookup_take_lt by lia. f_equal; lia.
Qed.

Lemma length_rotate_right shift (r : list byte) : length (rotate_right shift r) = length r.
Proof.
  unfold rotate_right. rewrite length_app, length_drop, length_take. lia.
Qed.

(** *** One row of [shift_channel] *)

Lemma row_bound w h y : (y < h)%nat -> (y * (w * 3) + w * 3 <= w * h * 3)%nat.
Proof. intros H. nia. Qed.

Lemma shift_row_lookup w h c shift (out : list byte) y :
  length out = (w * h * 3)%nat -> (y < h)%nat -> (0 < shift < w)%nat ->
  let out' := shift_row w c shift out y in
  length out' = length out /\
  (forall x, (x < w)%nat ->
     out' !! px w y x (ch_idx c) =
       out !! px w y (if (x <? shift)%nat then x + w - shift else x - shift)%nat (ch_idx c)) /\
  (forall j, (forall x, (x < w)%nat -> j <> px w y x (ch_idx c)) -> out' !! j = out !! j).
Proof.
  intros Hlen Hy Hs. pose proof (row_bound w h y Hy) as Hrow.
  assert (Hc : (ch_idx c < 3)%nat) by (destruct c; cbn; lia).
  unfold shift_row, slice3_assign, slice3, slice3_indices, range3.
  rewrite Nat.min_l by lia.
  replace (y * (w * 3) + w * 3 - (y * (w * 3) + ch_idx c))%nat
    with (w * 3 - ch_idx c)%nat by lia.
  rewrite range3_count by exact Hc.
  set (s := (y * (w * 3) + ch_idx c)%nat).
  destruct (omap_strided out s w 0%nat) as (Hrl & Hrk); [unfold s; lia |].
  set (row := omap (fun i => out !! i) (map (fun k => s + 3 * k)%nat (seq 0 w))) in *.
  destruct (assign_strided s w 0%nat (rotate_right shift row) out) as (Hl & Hhit & Hmiss);
    [rewrite length_rotate_right; exact Hrl | unfold s; lia |].
  cbv zeta in Hl, Hhit, Hmiss. cbv zeta.
  split; [exact Hl |]. split.
  - intros x Hx. unfold px. fold s.
    replace (s + 3 * x)%nat with (s + 3 * (0 + x))%nat by lia.
    rewrite Hhit by exact Hx.
    rewrite rotate_right_lookup by lia. rewrite Hrl.
    rewrite Hrk by (destruct (Nat.ltb_spec x shift); lia). reflexivity.
  - intros j Hj. apply Hmiss. intros k Hk. specialize (Hj k Hk). unfold px in Hj.
    fold s in Hj. lia.
Qed.

(** *** All the rows *)

Lemma px_inj w y x c y' x' c' :
  (x < w)%nat -> (x' < w)%nat -> (c < 3)%nat -> (c' < 3)%nat ->
  px w y x c = px w y' x' c' -> y = y' /\ x = x' /\ c = c'.
Proof.
  unfold px. intros Hx Hx' Hc Hc' E.
  assert (y = y') as ->.
  { destruct (Nat.lt_trichotomy y y') as [H | [H | H]]; [| exact H |]; exfalso; nia. }
  lia.
Qed.

Lemma px_lt w h y x c :
  (y < h)%nat -> (x < w)%nat -> (c < 3)%nat -> (px w y x c < w * h * 3)%nat.
Proof. unfold px. intros Hy Hx Hc. nia. Qed.

(** Every position of a [w] by [h] buffer is a channel of a pixel. *)
Lemma px_cover w h j :
  (j < w * h * 3)%nat ->
  exists y x c, (y < h)%nat /\ (x < w)%nat /\ (c < 3)%nat /\ j = px w y x c.
Proof.
  intros Hj. assert (Hw : (0 < w)%nat) by nia.
  exists (j / (w * 3))%nat, (j mod (w * 3) / 3)%nat, (j mod (w * 3) mod 3)%nat.
  pose proof (Nat.div_mod_eq j (w * 3)) as E1.
  pose proof (Nat.mod_upper_bound j (w * 3) ltac:(lia)) as B1.
  pose proof (Nat.div_mod_eq (j mod (w * 3)) 3) as E2.
  pose proof (Nat.mod_upper_bound (j mod (w * 3)) 3 ltac:(lia)) as B2.
  unfold px. repeat split; try lia; apply Nat.Div0.div_lt_upper_bound; nia.
Qed.

Lemma right_source_lt w shift x :
  (0 < shift < w)%nat -> (x < w)%nat -> (right_source w shift x < w)%nat.
Proof. unfold right_source. intros. destruct (Nat.ltb_spec x shift); lia. Qed.

Lemma shift_rows_lookup w h c shift (buf : list byte) :
  length buf = (w * h * 3)%nat -> (0 < shift < w)%nat ->
  forall n, (n <= h)%nat ->
    let out := fold_left (shift_row w c shift) (seq 0 n) buf in
    length out = length buf /\
    forall y x c', (y < h)%nat -> (x < w)%nat -> (c' < 3)%nat ->
      out !! px w y x c' =
        buf !! px w y (if (y <? n)%nat && (c' =? ch_idx c)%nat
                       then right_source w shift x else x) c'.
Proof.
  intros Hlen Hs. assert (Hc : (ch_idx c < 3)%nat) by (destruct c; cbn; lia).
  induction n as [| n IH]; intros Hn.
  - cbn. split; [reflexivity |]. intros y x c' _ _ _. reflexivity.
  - rewrite seq_S, fold_left_app. cbn [fold_left Nat.add].
    destruct IH as (Hl & Hpt); [lia |]. cbv zeta in Hl, Hpt.
    set (prev := fold_left (shift_row w c shift) (seq 0 n) buf) in *.
    destruct (shift_row_lookup w h c shift prev n) as (Hl' & Hhit & Hmiss);
      [lia | lia | exact Hs |].
    cbv zeta in Hl', Hhit, Hmiss. cbv zeta.
    split; [lia |].
    intros y x c' Hy Hx Hc'.
    destruct (Nat.eq_dec y n) as [-> | Hyn]; [destruct (Nat.eq_dec c' (ch_idx c)) as [-> | Hcc] |].
    + rewrite Hhit by exact Hx. fold (right_source w shift x).
      rewrite Hpt by (try apply right_source_lt; assumption || lia).
      rewrite Nat.ltb_irrefl. cbn [andb].
      destruct (Nat.ltb_spec n (S n)); [| lia]. rewrite Nat.eqb_refl. reflexivity.
    + rewrite Hmiss.
      * rewrite Hpt by assumption. rewrite Nat.ltb_irrefl.
        destruct (Nat.eqb_spec c' (ch_idx c)); [contradiction |].
        rewrite !andb_false_r. reflexivity.
      * intros x' Hx' E. apply px_inj in E; [lia | assumption..].
    + rewrite Hmiss.
      * rewrite Hpt by assumption.
        destruct (Nat.ltb_spec y n); destruct (Nat.ltb_spec y (S n)); try lia; reflexivity.
      * intros x' Hx' E. apply px_inj in E; [lia | assumption..].
Qed.

Lemma right_source_mod w (shift_px : Z) x :
  (0 < w)%nat -> (x < w)%nat -> shift_px mod Z.of_nat w <> 0 ->
  right_source w (Z.to_nat (shift_px mod Z.of_nat w)) x = rotated_source w shift_px x.
Proof.
  intros Hw Hx Hne. unfold right_source, rotated_source.
  pose proof (Z.mod_pos_bound shift_px (Z.of_nat w) ltac:(lia)) as B.
  pose proof (Z.div_mod shift_px (Z.of_nat w) ltac:(lia)) as E.
  set (sh := shift_px mod Z.of_nat w) in *. set (q := shift_px / Z.of_nat w) in *.
  destruct (Nat.ltb_spec x (Z.to_nat sh)) as [Hlt | Hge].
  - rewrite <- (Z.mod_unique (Z.of_nat x - shift_px) (Z.of_nat w) (- q - 1)
                  (Z.of_nat x - sh + Z.of_nat w)); [lia | lia | lia].
  - rewrite <- (Z.mod_unique (Z.of_nat x - shift_px) (Z.of_nat w) (- q)
                  (Z.of_nat x - sh)); [lia | lia | lia].
Qed.

(** [shift_channel] on a full buffer: channel [c] of every row is rotated
    to the right by [shift_px] columns, the other channels are copied. *)
Lemma shift_channel_lookup (buf : list byte) w h c shift_px :
  (0 < w)%nat -> length buf = (w * h * 3)%nat ->
  exists out,
    shift_channel buf w h c shift_px = Ok out /\
    length out = length buf /\
    forall y x c', (y < h)%nat -> (x < w)%nat -> (c' < 3)%nat ->
      out !! px w y x c' =
        buf !! px w y (if (c' =? ch_idx c)%nat then rotated_source w shift_px x else x) c'.
Proof.
  intros Hw Hlen. unfold shift_channel.
  destruct (Nat.eqb_spec w 0); [lia |].
  pose proof (Z.mod_pos_bound shift_px (Z.of_nat w) ltac:(lia)) as B.
  destruct (Z.eqb_spec (shift_px mod Z.of_nat w) 0) as [Hz | Hnz].
  - exists buf. split; [reflexivity |]. split; [reflexivity |].
    intros y x c' Hy Hx Hc'. destruct (c' =? ch_idx c)%nat; [| reflexivity].
    do 2 f_equal. unfold rotated_source. rewrite Zminus_mod, Hz, Z.sub_0_r, Z.mod_mod by lia.
    rewrite Z.mod_small by lia. lia.
  - eexists. split; [reflexivity |].
    destruct (shift_rows_lookup w h c (Z.to_nat (shift_px mod Z.of_nat w)) buf Hlen
                ltac:(lia) h ltac:(lia)) as (Hl & Hpt).
    cbv zeta in Hl, Hpt. split; [exact Hl |].
    intros y x c' Hy Hx Hc'. rewrite Hpt by assumption.
    destruct (Nat.ltb_spec y h); [| lia]. cbn [andb].
    destruct (c' =? ch_idx c)%nat; [| reflexivity].
    rewrite right_source_mod by assumption. reflexivity.
Qed.

(** *** Composing rotations *)

Lemma rotated_source_lt w k x : (0 < w)%nat -> (rotated_source w k x < w)%nat.
Proof.
  intros Hw. unfold rotated_source.
  pose proof (Z.mod_pos_bound (Z.of_nat x - k) (Z.of_nat w) ltac:(lia)). lia.
Qed.

Lemma rotated_source_compose w k1 k2 x :
  (0 < w)%nat ->
  rotated_source w k1 (rotated_source w k2 x) = rotated_source w (k1 + k2) x.
Proof.
  intros Hw. unfold rotated_source. f_equal.
  pose proof (Z.mod_pos_bound (Z.of_nat x - k2) (Z.of_nat w) ltac:(lia)).
  rewrite Z2Nat.id by lia. rewrite Zminus_mod_idemp_l. f_equal. lia.
Qed.

Lemma rotated_source_0 w x : (x < w)%nat -> rotated_source w 0 x = x.
Proof.
  intros Hx. unfold rotated_source. rewrite Z.sub_0_r, Z.mod_small by lia. lia.
Qed.


Lemma px_triple w y x c : px w y x c = (3 * (y * w + x) + c)%nat.
Proof. unfold px. lia. Qed.

Lemma permute_channels_px r_i g_i b_i (buf : list byte) w h :
  (r_i < 3)%nat -> (g_i < 3)%nat -> (b_i < 3)%nat ->
  length buf = (w * h * 3)%nat ->
  exists out,
    permute_channels r_i g_i b_i buf = Ok out /\
    length out = length buf /\
    forall y x c, (y < h)%nat -> (x < w)%nat -> (c < 3)%nat ->
      out !! px w y x c = buf !! px w y x (source_channel r_i g_i b_i c).
Proof.
  intros Hr Hg Hb Hlen.
  destruct (permute_channels_lookup r_i g_i b_i buf (w * h) Hr Hg Hb Hlen)
    as (out & Hrun & Hl & Hpt).
  exists out. split; [exact Hrun |]. split; [exact Hl |].
  intros y x c Hy Hx Hc. rewrite !px_triple. apply Hpt; [nia | exact Hc].
Qed.

(** Two buffers of the same dimensions with the same channels are equal. *)
Lemma buffer_ext (a b : list byte) w h :
  length a = (w * h * 3)%nat -> length b = (w * h * 3)%nat ->
  (forall y x c, (y < h)%nat -> (x < w)%nat -> (c < 3)%nat ->
     a !! px w y x c = b !! px w y x c) ->
  a = b.
Proof.
  intros Ha Hb H. apply list_eq. intros j.
  destruct (Nat.lt_ge_cases j (w * h * 3)) as [Hj | Hj].
  - destruct (px_cover w h j Hj) as (y & x & c & Hy & Hx & Hc & ->). now apply H.
  - rewrite !lookup_ge_None_2 by lia. reflexivity.
Qed.

(** The stages of [pixel_transform], pointwise. *)
Lemma pixel_transform_stages (buf : list byte) w h :
  (0 < w)%nat -> length buf = (w * h * 3)%nat ->
  exists t out,
    reorder_channels buf = Ok t /\
    pixel_transform buf w h = Ok out /\
    length t = length buf /\
    length out = length buf /\
    (forall y x c, (y < h)%nat -> (x < w)%nat -> (c < 3)%nat ->
       t !! px w y x c = buf !! px w y x (source_channel 2 0 1 c)) /\
    (forall y x c, (y < h)%nat -> (x < w)%nat -> (c < 3)%nat ->
       out !! px w y x c =
         t !! px w y (rotated_source w (match c with 0%nat => -3 | _ => -4 end) x) c).
Proof.
  intros Hw Hlen. unfold pixel_transform, reorder_channels.
  destruct (permute_channels_px 2 0 1 buf w h) as (t & Ht & Lt & Pt); [lia.. | exact Hlen |].
  destruct (shift_channel_lookup t w h ch_r (-3) Hw) as (o1 & H1 & L1 & P1); [lia |].
  destruct (shift_channel_lookup o1 w h ch_g (-4) Hw) as (o2 & H2 & L2 & P2); [lia |].
  destruct (shift_channel_lookup o2 w h ch_b (-4) Hw) as (o3 & H3 & L3 & P3); [lia |].
  exists t, o3. rewrite Ht. cbn [mbind result_bind]. rewrite H1. cbn [mbind result_bind].
  rewrite H2. cbn [mbind result_bind].
  split; [reflexivity |]. split; [exact H3 |]. split; [exact Lt |]. split; [lia |].
  split; [exact Pt |].
  intros y x c Hy Hx Hc.
  pose proof (rotated_source_lt w (-3) x Hw). pose proof (rotated_source_lt w (-4) x Hw).
  destruct c as [| [| [| c]]]; [| | | lia].
  - rewrite P3, P2, P1 by (assumption || lia). reflexivity.
  - rewrite P3 by (assumption || lia). cbn [Nat.eqb ch_idx].
    rewrite P2 by (assumption || lia). cbn [Nat.eqb ch_idx].
    rewrite P1 by (assumption || lia). reflexivity.
  - rewrite P3 by (assumption || lia). cbn [Nat.eqb ch_idx].
    rewrite P2 by (assumption || lia). cbn [Nat.eqb ch_idx].
    rewrite P1 by (assumption || lia). reflexivity.
Qed.



(** *** The inverse by positions *)

Lemma length_remap src (buf : list byte) : length (remap src buf) = length buf.
Proof. unfold remap. now rewrite length_map, length_seq. Qed.

Lemma remap_lookup src (buf : list byte) j :
  (j < length buf)%nat -> (src j < length buf)%nat ->
  remap src buf !! j = buf !! src j.
Proof.
  intros Hj Hs. unfold remap. rewrite list_lookup_fmap, lookup_seq_lt by exact Hj.
  cbn. destruct (lookup_lt_is_Some_2 buf (src j) Hs) as [b Hb]. now rewrite Hb.
Qed.

Lemma px_div_mod w y x c :
  (0 < w)%nat -> (x < w)%nat -> (c < 3)%nat ->
  (px w y x c / 3 = y * w + x)%nat /\ (px w y x c mod 3 = c)%nat /\
  ((y * w + x) / w = y)%nat /\ ((y * w + x) mod w = x)%nat.
Proof.
  intros Hw Hx Hc. rewrite px_triple. repeat split.
  - symmetry. apply (Nat.div_unique _ 3 _ c); lia.
  - symmetry. apply (Nat.mod_unique _ 3 (y * w + x)); lia.
  - symmetry. apply (Nat.div_unique _ w _ x); lia.
  - symmetry. apply (Nat.mod_unique _ w y); lia.
Qed.

(** The column written in [rotate_channel_right] is [rotated_source]. *)
Lemma right_column w (k x : nat) :
  (0 < w)%nat -> (x < w)%nat ->
  ((x + w - k mod w) mod w)%nat = rotated_source w (Z.of_nat k) x.
Proof.
  intros Hw Hx. unfold rotated_source.
  pose proof (Nat.mod_upper_bound k w ltac:(lia)) as Hk.
  pose proof (Nat.div_mod_eq k w) as Ek.
  apply Nat2Z.inj. rewrite Nat2Z.inj_mod.
  rewrite Z2Nat.id by (apply Z.mod_pos_bound; lia).
  replace (Z.of_nat x - Z.of_nat k)
    with (Z.of_nat (x + w - k mod w) + (- Z.of_nat (k / w) - 1) * Z.of_nat w) by nia.
  now rewrite Z_mod_plus_full.
Qed.

Lemma rotate_channel_right_px w h c k (buf : list byte) :
  (0 < w)%nat -> (c < 3)%nat -> length buf = (w * h * 3)%nat ->
  length (rotate_channel_right w c k buf) = length buf /\
  forall y x c', (y < h)%nat -> (x < w)%nat -> (c' < 3)%nat ->
    rotate_channel_right w c k buf !! px w y x c' =
      buf !! px w y (if (c' =? c)%nat then rotated_source w (Z.of_nat k) x else x) c'.
Proof.
  intros Hw Hc Hlen. unfold rotate_channel_right. split; [apply length_remap |].
  intros y x c' Hy Hx Hc'.
  destruct (px_div_mod w y x c' Hw Hx Hc') as (E3 & M3 & Ew & Mw).
  pose proof (px_lt w h y x c' Hy Hx Hc') as Hlt.
  pose proof (rotated_source_lt w (Z.of_nat k) x Hw) as Hrs.
  rewrite remap_lookup.
  - cbv zeta. rewrite E3, M3, Ew, Mw.
    destruct (Nat.eqb_spec c' c) as [-> | Hne]; [| reflexivity].
    now rewrite right_column.
  - lia.
  - cbv zeta. rewrite E3, M3, Ew, Mw.
    destruct (Nat.eqb_spec c' c) as [-> | Hne]; [| lia].
    rewrite right_column by assumption. rewrite Hlen. now apply px_lt.
Qed.

Lemma restore_stored_order_px w h (buf : list byte) :
  (0 < w)%nat -> length buf = (w * h * 3)%nat ->
  length (restore_stored_order buf) = length buf /\
  forall y x c, (y < h)%nat -> (x < w)%nat -> (c < 3)%nat ->
    restore_stored_order buf !! px w y x c = buf !! px w y x ((c + 1) mod 3).
Proof.
  intros Hw Hlen. unfold restore_stored_order. split; [apply length_remap |].
  intros y x c Hy Hx Hc.
  destruct (px_div_mod w y x c Hw Hx Hc) as (E3 & M3 & _).
  pose proof (px_lt w h y x c Hy Hx Hc) as Hlt.
  pose proof (Nat.mod_upper_bound (c + 1) 3 ltac:(lia)) as Hc1.
  pose proof (px_lt w h y x ((c + 1) mod 3) Hy Hx Hc1) as Hlt1.
  assert (E : (3 * (px w y x c / 3) + (px w y x c mod 3 + 1) mod 3)%nat
              = px w y x ((c + 1) mod 3)).
  { rewrite E3, M3. now rewrite px_triple. }
  rewrite remap_lookup by (rewrite ?E; lia). now rewrite E.
Qed.

(** C5: on a buffer of [w * h * 3] bytes with [0 < w], undoing the
    transform gives back the buffer, byte for byte.  The inverse is written
    by positions: in every scanline channel R is rotated to the right by 3
    columns, G and B by 4 (column [x] takes the byte of column
    [(x - k) mod w]), then every pixel gets back its stored order.  The
    functions of the source, applied with the opposite shifts and with the
    inverse permutation, give the buffer back too. *)
Theorem pixel_transform_round_trip (buf : list byte) (w h : nat) :
  (0 < w)%nat -> length buf = (w * h * 3)%nat ->
  exists out,
    pixel_transform buf w h = Ok out /\
    inverse_by_positions out w = buf /\
    inverse_transform out w h = Ok buf.
Proof.
  intros Hw Hlen.
  destruct (pixel_transform_stages buf w h Hw Hlen) as (t & out & _ & Hout & Lt & Lo & Pt & Po).
  exists out. split; [exact Hout |]. split.
  { unfold inverse_by_positions.
    destruct (rotate_channel_right_px w h 0 3 out Hw) as (L1 & P1); [lia | lia |].
    destruct (rotate_channel_right_px w h 1 4 (rotate_channel_right w 0 3 out) Hw)
      as (L2 & P2); [lia | lia |].
    destruct (rotate_channel_right_px w h 2 4
                (rotate_channel_right w 1 4 (rotate_channel_right w 0 3 out)) Hw)
      as (L3 & P3); [lia | lia |].
    set (r3 := rotate_channel_right w 2 4 _) in *.
    destruct (restore_stored_order_px w h r3 Hw) as (L4 & P4); [lia |].
    apply (buffer_ext _ buf w h); [lia | exact Hlen |].
    intros y x c Hy Hx Hc.
    pose proof (rotated_source_lt w (Z.of_nat 3) x Hw) as R3.
    pose proof (rotated_source_lt w (Z.of_nat 4) x Hw) as R4.
    pose proof (Nat.mod_upper_bound (c + 1) 3 ltac:(lia)) as Hc1.
    rewrite P4 by assumption.
    destruct c as [| [| [| c]]]; [| | | lia];
      change ((0 + 1) mod 3)%nat with 1%nat; change ((1 + 1) mod 3)%nat with 2%nat;
      change ((2 + 1) mod 3)%nat with 0%nat.
    - rewrite P3 by (assumption || lia). cbn [Nat.eqb].
      rewrite P2 by (assumption || lia). cbn [Nat.eqb].
      rewrite P1 by (assumption || lia). cbn [Nat.eqb].
      rewrite Po by (assumption || lia).
      rewrite rotated_source_compose by exact Hw.
      rewrite Pt by (try apply rotated_source_lt; assumption || lia).
      cbn [source_channel]. change (-4 + Z.of_nat 4) with 0.
      rewrite rotated_source_0 by exact Hx. reflexivity.
    - rewrite P3 by (assumption || lia). cbn [Nat.eqb].
      rewrite P2 by (assumption || lia). cbn [Nat.eqb].
      rewrite P1 by (assumption || lia). cbn [Nat.eqb].
      rewrite Po by (assumption || lia).
      rewrite rotated_source_compose by exact Hw.
      rewrite Pt by (try apply rotated_source_lt; assumption || lia).
      cbn [source_channel]. change (-4 + Z.of_nat 4) with 0.
      rewrite rotated_source_0 by exact Hx. reflexivity.
    - rewrite P3 by (assumption || lia). cbn [Nat.eqb].
      rewrite P2 by (assumption || lia). cbn [Nat.eqb].
      rewrite P1 by (assumption || lia). cbn [Nat.eqb].
      rewrite Po by (assumption || lia).
      rewrite rotated_source_compose by exact Hw.
      rewrite Pt by (try apply rotated_source_lt; assumption || lia).
      cbn [source_channel]. change (-3 + Z.of_nat 3) with 0.
      rewrite rotated_source_0 by exact Hx. reflexivity. }
  unfold inverse_transform, unreorder_channels.
  destruct (shift_channel_lookup out w h ch_b 4 Hw) as (i1 & H1 & L1 & P1); [lia |].
  destruct (shift_channel_lookup i1 w h ch_g 4 Hw) as (i2 & H2 & L2 & P2); [lia |].
  destruct (shift_channel_lookup i2 w h ch_r 3 Hw) as (i3 & H3 & L3 & P3); [lia |].
  destruct (permute_channels_px 1 2 0 i3 w h) as (u & Hu & Lu & Pu); [lia.. |].
  rewrite H1. cbn [mbind result_bind]. rewrite H2. cbn [mbind result_bind].
  rewrite H3. cbn [mbind result_bind]. rewrite Hu. f_equal.
  apply (buffer_ext u buf w h); [lia | exact Hlen |].
  intros y x c Hy Hx Hc.
  pose proof (rotated_source_lt w 3 x Hw). pose proof (rotated_source_lt w 4 x Hw).
  rewrite Pu by assumption.
  destruct c as [| [| [| c]]]; [| | | lia]; cbn [source_channel].
  - (* stored byte 0 is output channel G *)
    rewrite P3 by (assumption || lia). cbn [Nat.eqb ch_idx].
    rewrite P2 by (assumption || lia). cbn [Nat.eqb ch_idx].
    rewrite P1 by (assumption || lia). cbn [Nat.eqb ch_idx].
    rewrite Po by (assumption || lia).
    rewrite rotated_source_compose by exact Hw.
    rewrite Pt by (try apply rotated_source_lt; assumption || lia).
    cbn [source_channel]. change (-4 + 4) with 0. rewrite rotated_source_0 by exact Hx.
    reflexivity.
  - (* stored byte 1 is output channel B *)
    rewrite P3 by (assumption || lia). cbn [Nat.eqb ch_idx].
    rewrite P2 by (assumption || lia). cbn [Nat.eqb ch_idx].
    rewrite P1 by (assumption || lia). cbn [Nat.eqb ch_idx].
    rewrite Po by (assumption || lia).
    rewrite rotated_source_compose by exact Hw.
    rewrite Pt by (try apply rotated_source_lt; assumption || lia).
    cbn [source_channel]. change (-4 + 4) with 0. rewrite rotated_source_0 by exact Hx.
    reflexivity.
  - (* stored byte 2 is output channel R *)
    rewrite P3 by (assumption || lia). cbn [Nat.eqb ch_idx].
    rewrite P2 by (assumption || lia). cbn [Nat.eqb ch_idx].
    rewrite P1 by (assumption || lia). cbn [Nat.eqb ch_idx].
    rewrite Po by (assumption || lia).
    rewrite rotated_source_compose by exact Hw.
    rewrite Pt by (try apply rotated_source_lt; assumption || lia).
    cbn [source_channel]. change (-3 + 3) with 0. rewrite rotated_source_0 by exact Hx.
    reflexivity.
Qed.

(** ** The pixel data of [extract_image] *)

(** C2: for every save that [parse_header] accepts, the screenshot offset
    is 4 plus the 32-bit field at bytes 11 to 14, whatever the position of
    the cursor after parsing; and the pixel data of [extract_image] is the
    [width * height * 3] bytes of the file from that offset on.  Whenever
    [extract_image] returns, it returns the header with the transform of
    exactly those bytes, as many as declared; and when the file holds that
    many bytes at the offset, [extract_image] is the transform of them. *)
Theorem screenshot_offset_and_pixel_length (save : list byte) (meta : header) (f' : file) :
  parse_header (open_rb save) = Ok (meta, f') ->
  let expected := width meta * height meta * 3 in
  let off := screenshot_offset meta in
  let data := take (Z.to_nat expected) (drop (Z.to_nat off) save) in
  let w := Z.to_nat (width meta) in
  let h := Z.to_nat (height meta) in
  off = 4 + unpack_le (take 4 (drop 11 save)) /\
  (forall m out,
     extract_image save = Ok (m, out) ->
     m = meta /\
     Z.of_nat (length data) = expected /\
     pixel_transform data w h = Ok out /\
     Z.of_nat (length out) = expected) /\
  (off + expected <= Z.of_nat (length save) ->
   Z.of_nat (length data) = expected /\
   extract_image save = (out ← pixel_transform data w h; Ok (meta, out))).
Proof.
  intros H expected off data w h.
  pose proof (parse_header_inv _ _ _ H) as (Hc & Hoff & _ & _ & Rw & Rh & _).
  cbv zeta in Rw, Rh.
  split; [exact Hoff |].
  pose proof (unpack_le_range (take 4 (drop 11 save))) as Rhs.
  assert (Hpos : 0 <= off) by (unfold off; lia).
  assert (He : 0 <= expected) by (unfold expected; nia).
  assert (Hrun : extract_image save =
                 ('(d, f2) ← read_exact (File save (Z.to_nat off)) expected;
                  out ← pixel_transform d w h; Ok (meta, out))).
  { unfold extract_image. rewrite H. cbn [mbind result_bind].
    unfold seek. fold off. destruct (Z.ltb_spec off 0); [lia |].
    cbn [mbind result_bind]. rewrite Hc. reflexivity. }
  split.
  - intros m out Hout. rewrite Hrun in Hout.
    inv_bind Hout. destruct a as [d f2].
    apply read_exact_inv in E as (_ & Hd & Hl & _). cbn [tell contents] in Hd.
    fold data in Hd. subst d.
    inv_bind Hout. injection Hout as <- <-.
    split; [reflexivity |]. split; [exact Hl |]. split; [exact E |].
    destruct (Nat.eq_dec w 0%nat) as [Hw0 | Hw0].
    + exfalso. unfold pixel_transform in E. rewrite Hw0 in E.
      destruct (reorder_channels data) as [t | err]; [| discriminate E].
      discriminate E.
    + destruct (pixel_transform_stages data w h) as (t & out' & _ & Hout' & _ & Lo & _);
        [lia | unfold w, h; nia |].
      rewrite Hout' in E. injection E as <-. lia.
  - intros Hlen. rewrite Hrun.
    rewrite read_exact_ok by (cbn [tell contents]; lia).
    cbn [mbind result_bind tell contents]. fold data.
    split; [| reflexivity]. unfold data. rewrite length_take, length_drop. lia.
Qed.

(** * Further properties *)

(** ** The byte cursor and the header decoder *)

Lemma bytes_eqb_eq a b : bytes_eqb a b = true <-> a = b.
Proof.
  unfold bytes_eqb. rewrite andb_true_iff, Nat.eqb_eq. split.
  - revert b. induction a as [| x a IH]; intros [| y b] [Hl Hall]; try discriminate.
    + reflexivity.
    + cbn in Hl, Hall. apply andb_true_iff in Hall as [Hxy Hall].
      apply Byte.byte_dec_bl in Hxy. subst y. f_equal. apply IH. split; [lia | exact Hall].
  - intros <-. split; [reflexivity |]. induction a as [| x a IH]; [reflexivity |].
    cbn. now rewrite Byte.byte_dec_lb, IH.
Qed.

(** X1: [read_exact] never returns a short read.  With [r] bytes left
    after the cursor, it returns exactly when [0 <= n <= r], and then gives
    the next [n] bytes and moves the cursor by [n].  A request for more
    raises: [EOFError] up to 65535 bytes and whenever the runtime grants the
    buffer, [OverflowError] above the largest count of the runtime,
    [MemoryError] when the allocator refuses.  [n = -1] reads all the rest
    and so raises [EOFError] too; a smaller [n] is refused by the reader
    itself. *)
Theorem read_exact_contract (f : file) (n : Z) :
  let r := Z.of_nat (length (contents f) - tell f) in
  (0 <= n <= r ->
   read_exact f n =
     Ok (take (Z.to_nat n) (drop (tell f) (contents f)),
         File (contents f) (tell f + Z.to_nat n)) /\
   length (take (Z.to_nat n) (drop (tell f) (contents f))) = Z.to_nat n) /\
  (forall b f', read_exact f n = Ok (b, f') -> 0 <= n <= r /\ Z.of_nat (length b) = n) /\
  (r < n -> n <= 65535 -> read_exact f n = Raise EOFError) /\
  (r < n -> 65535 < n ->
   read_exact f n =
     Raise (if max_bytes <? n then OverflowError
            else if alloc_ok n then EOFError else MemoryError)) /\
  (n = -1 -> read_exact f n = Raise EOFError) /\
  (n < -1 -> read_exact f n = Raise BadReadLength).
Proof.
  intros r.
  assert (Hrest : Z.of_nat (length (drop (tell f) (contents f))) = r)
    by (rewrite length_drop; reflexivity).
  split; [| split; [| split; [| split; [| split]]]].
  - intros [H0 Hr].
    destruct (Z.eq_dec n 0) as [-> | Hn].
    + unfold read_exact, read. cbv zeta. rewrite Hrest.
      destruct (Z.leb_spec 0 r); [| lia]. cbn. split; reflexivity.
    + assert (Hin : (tell f <= length (contents f))%nat) by (unfold r in Hr; lia).
      rewrite read_exact_ok by (unfold r in Hr; lia).
      split; [reflexivity |]. rewrite length_take, length_drop. unfold r in Hr. lia.
  - intros b f' H. pose proof (read_exact_inv _ _ _ _ H) as (H0 & -> & Hl & _).
    split; [| exact Hl]. split; [exact H0 |].
    rewrite length_take, length_drop in Hl. unfold r. lia.
  - intros Hr Hs. destruct (Z_lt_le_dec 0 n) as [Hp | Hp].
    + apply read_exact_short; [unfold r in Hr; lia | exact Hp | exact Hs].
    + exfalso. unfold r in Hr. lia.
  - intros Hr Hs. rewrite read_exact_beyond by (unfold r in Hr; lia).
    destruct (Z.leb_spec n 65535); [lia | reflexivity].
  - intros ->. unfold read_exact, read. cbv zeta.
    change (-1 <? -1) with false. change (-1 =? -1) with true. cbv iota.
    cbn [mbind result_bind]. rewrite Hrest.
    destruct (Z.eqb_spec r (-1)); [unfold r in *; lia | reflexivity].
  - intros Hn. unfold read_exact, read. cbv zeta.
    destruct (Z.ltb_spec n (-1)); [reflexivity | lia].
Qed.

(** X2: a file that does not start with the eleven bytes of the magic is
    refused before anything else is read: with [BadMagic] when it has eleven
    bytes or more, with [EOFError] when it is shorter, even if it is a prefix
    of the magic. *)
Theorem parse_header_rejects_bad_magic (save : list byte) :
  ((11 <= length save)%nat -> take 11 save <> MAGIC ->
   parse_header (open_rb save) = Raise BadMagic) /\
  ((length save < 11)%nat -> parse_header (open_rb save) = Raise EOFError).
Proof.
  split.
  - intros Hl Hne. unfold parse_header, open_rb.
    rewrite read_exact_ok by (cbn [tell contents]; lia).
    cbn [mbind result_bind tell contents]. rewrite drop_0. change (Z.to_nat 11) with 11%nat.
    destruct (bytes_eqb (take 11 save) MAGIC) eqn:E; [| reflexivity].
    apply bytes_eqb_eq in E. contradiction.
  - intros Hl. unfold parse_header, open_rb.
    rewrite read_exact_short by (cbn [tell contents]; lia). reflexivity.
Qed.

Lemma byte_val_pipe b : byte_val b = PIPE -> b = x7c.
Proof.
  unfold byte_val, PIPE. intros H. assert (E : Byte.to_N b = 124%N) by lia.
  pose proof (Byte.of_to_N b) as Hb. rewrite E in Hb. cbn in Hb. congruence.
Qed.

Lemma read_u32_le_run f :
  read_u32_le f =
    if (tell f + 4 <=? length (contents f))%nat
    then Ok (unpack_le (take 4 (drop (tell f) (contents f))), File (contents f) (tell f + 4))
    else Raise EOFError.
Proof.
  unfold read_u32_le. destruct (Nat.leb_spec (tell f + 4) (length (contents f))).
  - rewrite read_exact_ok by lia. reflexivity.
  - rewrite read_exact_short by lia. reflexivity.
Qed.

(** X3: the first divider of the header.  In a file that starts with the
    magic, byte 19 (after the two 32-bit fields) has to be the divider: any
    other byte there raises [BadDivider], and a file shorter than twenty
    bytes raises [EOFError], whichever field it ends in. *)
Theorem parse_header_first_divider (save : list byte) :
  take 11 save = MAGIC ->
  ((length save < 20)%nat -> parse_header (open_rb save) = Raise EOFError) /\
  (forall b, save !! 19%nat = Some b -> b <> x7c ->
     parse_header (open_rb save) = Raise BadDivider).
Proof.
  intros Hm.
  assert (H11 : (11 <= length save)%nat).
  { apply (f_equal length) in Hm. rewrite length_take in Hm.
    change (length MAGIC) with 11%nat in Hm. lia. }
  assert (Hrun : forall r,
            ((length save < 19)%nat -> r = EOFError) ->
            ((19 <= length save)%nat -> read_divider (File save 19) = Raise r) ->
            parse_header (open_rb save) = Raise r).
  { intros r Hshort Hdiv. unfold parse_header, open_rb.
    rewrite read_exact_ok by (cbn [tell contents]; lia).
    cbn [mbind result_bind tell contents]. rewrite drop_0. change (Z.to_nat 11) with 11%nat.
    rewrite Hm. change (bytes_eqb MAGIC MAGIC) with true. cbn [negb Nat.add].
    rewrite (read_u32_le_run (File save 11)). cbn [tell contents].
    destruct (Nat.leb_spec (11 + 4) (length save)); [| rewrite Hshort by lia; reflexivity].
    cbn [mbind result_bind Nat.add].
    rewrite (read_u32_le_run (File save 15)). cbn [tell contents].
    destruct (Nat.leb_spec (15 + 4) (length save)); [| rewrite Hshort by lia; reflexivity].
    cbn [mbind result_bind Nat.add]. rewrite Hdiv by lia. reflexivity. }
  split.
  - intros Hlt. apply Hrun; [reflexivity |]. intros H19. unfold read_divider.
    rewrite read_exact_short by (cbn [tell contents]; lia). reflexivity.
  - intros b Hb Hne. pose proof (lookup_lt_Some _ _ _ Hb) as H20.
    apply Hrun; [lia |]. intros _. unfold read_divider.
    rewrite read_exact_ok by (cbn [tell contents]; lia).
    cbn [mbind result_bind tell contents]. rewrite (drop_S _ _ _ Hb).
    change (Z.to_nat 1) with 1%nat. cbn [take].
    destruct (Z.eqb_spec (byte_val b) PIPE) as [E | E]; [| reflexivity].
    apply byte_val_pipe in E. contradiction.
Qed.

Lemma read_exact_pos f n b f' :
  read_exact f n = Ok (b, f') ->
  contents f' = contents f /\ Z.of_nat (tell f') = Z.of_nat (tell f) + n /\
  Z.of_nat (length b) = n /\
  (0 < n -> (tell f' <= length (contents f))%nat).
Proof.
  intros H. apply read_exact_inv in H as (Hn & -> & Hl & ->). cbn [contents tell].
  split; [reflexivity |]. split; [lia |]. split; [exact Hl |].
  intros Hpos. rewrite length_take, length_drop in Hl. lia.
Qed.

Lemma read_u32_le_pos f v f' :
  read_u32_le f = Ok (v, f') ->
  contents f' = contents f /\ (tell f' = tell f + 4)%nat /\
  (tell f' <= length (contents f))%nat /\ 0 <= v < 2 ^ 32.
Proof.
  intros H. pose proof (read_u32_le_inv _ _ _ H) as (_ & R & _).
  unfold read_u32_le in H. inv_bind H. destruct a as [b f1]. injection H as _ <-.
  apply read_exact_pos in E as (Hc & Ht & _ & Hb). repeat split; try lia; auto; apply Hb; lia.
Qed.

Lemma read_u16_le_pos f v f' :
  read_u16_le f = Ok (v, f') ->
  contents f' = contents f /\ (tell f' = tell f + 2)%nat /\
  (tell f' <= length (contents f))%nat /\ 0 <= v < 65536.
Proof.
  intros H. pose proof (read_u16_le_inv _ _ _ H) as (R & _).
  unfold read_u16_le in H. inv_bind H. destruct a as [b f1]. injection H as _ <-.
  apply read_exact_pos in E as (Hc & Ht & _ & Hb).
  repeat split; try lia; auto; apply Hb; lia.
Qed.

Lemma read_divider_pos f f' :
  read_divider f = Ok f' ->
  contents f' = contents f /\ (tell f' = tell f + 1)%nat /\
  (tell f' <= length (contents f))%nat /\ contents f !! tell f = Some x7c.
Proof.
  intros H. pose proof (read_divider_inv _ _ H) as (Hd & ->). cbn [contents tell].
  repeat split; auto. apply lookup_lt_Some in Hd. lia.
Qed.

Lemma length_string_of_list_byte (bs : list byte) :
  String.length (string_of_list_byte bs) = length bs.
Proof.
  unfold string_of_list_byte. induction bs as [| b bs IH]; [reflexivity |].
  cbn. now rewrite IH.
Qed.

Lemma read_bzstring_pos f size s f' :
  read_bzstring f size = Ok (s, f') ->
  contents f' = contents f /\ Z.of_nat (tell f') = Z.of_nat (tell f) + size /\
  Z.of_nat (String.length s) = size /\
  ((tell f <= length (contents f))%nat -> (tell f' <= length (contents f))%nat).
Proof.
  unfold read_bzstring. intros H. destruct (Z.eqb_spec size 0) as [-> | Hs].
  - injection H as <- <-. repeat split; auto; lia.
  - inv_bind H. destruct a as [raw f1]. injection H as <- <-.
    pose proof (read_exact_inv _ _ _ _ E) as (Hn & _).
    apply read_exact_pos in E as (Hc & Ht & Hl & Hb).
    rewrite length_string_of_list_byte. repeat split; auto. intros _. apply Hb. lia.
Qed.

Lemma seek_cur_pos f n f' :
  seek_cur f n = Ok f' -> 0 <= n ->
  contents f' = contents f /\ Z.of_nat (tell f') = Z.of_nat (tell f) + n.
Proof.
  intros H Hn. apply seek_cur_inv in H; [| exact Hn]. subst f'. cbn [contents tell].
  split; [reflexivity | lia].
Qed.

Ltac pos_div H :=
  let E := fresh "E" in let f := fresh "f" in
  apply bind_Ok_inv in H; destruct H as (f & E & H);
  apply read_divider_pos in E as (? & ? & ? & ?).
Ltac pos_u32 H :=
  let E := fresh "E" in
  apply bind_Ok_inv in H; destruct H as ([? ?] & E & H);
  apply read_u32_le_pos in E as (? & ? & ? & ?).
Ltac pos_u16 H :=
  let E := fresh "E" in
  apply bind_Ok_inv in H; destruct H as ([? ?] & E & H);
  apply read_u16_le_pos in E as (? & ? & ? & ?).
Ltac pos_bz H :=
  let E := fresh "E" in
  apply bind_Ok_inv in H; destruct H as ([? ?] & E & H);
  apply read_bzstring_pos in E as (? & ? & ? & ?).

(** X4: the shape of an accepted header.  The file starts with the magic
    and has a divider at byte 19; the decoder starts at byte 0 and stops
    right after the playtime text, at byte 55 plus the lengths of the four
    texts (plus 65 in the legacy layout), which lies inside the file: every
    field was read in full.  The four numbers are below 2^32 and the texts
    are shorter than 65536 characters. *)
Theorem accepted_header_shape (save : list byte) (meta : header) (f' : file) :
  parse_header (open_rb save) = Ok (meta, f') ->
  let legacy := 16384 <? unpack_le (take 4 (drop 20 save)) in
  let texts := Z.of_nat (String.length (pc_name meta) + String.length (pc_karma meta) +
                         String.length (pc_location meta) + String.length (playtime meta)) in
  take 11 save = MAGIC /\
  save !! 19%nat = Some x7c /\
  header_start_pos meta = 0 /\
  header_end_pos meta = Z.of_nat (tell f') /\
  header_end_pos meta = 55 + (if legacy then 65 else 0) + texts /\
  header_end_pos meta <= Z.of_nat (length save) /\
  (0 <= width meta < 2 ^ 32 /\ 0 <= height meta < 2 ^ 32 /\
   0 <= save_index meta < 2 ^ 32 /\ 0 <= pc_level meta < 2 ^ 32) /\
  (Z.of_nat (String.length (pc_name meta)) < 65536 /\
   Z.of_nat (String.length (pc_karma meta)) < 65536 /\
   Z.of_nat (String.length (pc_location meta)) < 65536 /\
   Z.of_nat (String.length (playtime meta)) < 65536).
Proof.
  intros H legacy texts.
  pose proof (parse_header_inv _ _ _ H) as (Hcont & _ & _ & _ & Rw & Rh & Hend).
  cbv zeta in Rw, Rh.
  unfold parse_header, open_rb in H.
  inv_bind H. destruct a as [file_id f1].
  pose proof (read_exact_inv _ _ _ _ E) as (_ & Hid & _).
  apply read_exact_pos in E as (C1 & T1 & _ & _). cbn [contents tell] in *.
  rewrite drop_0 in Hid. change (Z.to_nat 11) with 11%nat in Hid.
  destruct (bytes_eqb file_id MAGIC) eqn:Em; [| discriminate H].
  apply bytes_eqb_eq in Em. cbn [negb] in H.
  pos_u32 H. pos_u32 H. pos_div H.
  inv_bind H. destruct a as [val f5].
  pose proof (read_u32_le_inv _ _ _ E) as (Hval & _).
  apply read_u32_le_pos in E as (C5 & T5 & B5 & R5).
  inv_bind H. destruct a as [w f6].
  assert (Hw : contents f6 = save /\
               Z.of_nat (tell f6) = 24 + (if 16384 <? val then 65 else 0)).
  { destruct (Z.ltb_spec 16384 val).
    - inv_bind E. apply seek_cur_pos in E0 as (? & ?); [| lia].
      pos_div E. apply read_u32_le_pos in E as (? & ? & ? & ?).
      split; [congruence | lia].
    - injection E as _ <-. split; [congruence | lia]. }
  destruct Hw as (C6 & T6). clear E.
  assert (Hleg : (16384 <? val) = legacy).
  { unfold legacy. f_equal. rewrite Hval. f_equal. f_equal. f_equal; [lia | congruence]. }
  rewrite Hleg in T6.
  pos_div H. pos_u32 H. pos_div H. pos_u32 H.
  pos_div H. pos_u16 H. pos_div H. pos_bz H.
  pos_div H. pos_u16 H. pos_div H. pos_bz H.
  pos_div H. pos_u32 H.
  pos_div H. pos_u16 H. pos_div H. pos_bz H.
  pos_div H. pos_u16 H. pos_div H. pos_bz H.
  injection H as <- <-.
  cbn [header_start_pos header_end_pos width height save_index pc_level pc_name pc_karma
       pc_location playtime] in *.
  assert (Hd19 : save !! 19%nat = Some x7c).
  { match goal with
    | Hd : contents ?g !! tell ?g = Some x7c, Ht : tell ?g = (tell _ + 4)%nat |- _ =>
        replace (contents g) with save in Hd by congruence;
        replace (tell g) with 19%nat in Hd by lia; exact Hd
    end. }
  subst texts.
  repeat match goal with
         | Hc : contents ?g = contents ?g' |- _ =>
             assert (contents g = save) by congruence; clear Hc
         end.
  repeat match goal with
         | Hb : (_ <= length (contents ?g))%nat |- _ =>
             replace (contents g) with save in Hb by congruence
         | Hb : (_ <= length (contents ?g))%nat -> _ |- _ =>
             replace (contents g) with save in Hb by congruence
         end.
  split; [congruence |]. split; [exact Hd19 |]. split; [reflexivity |].
  split; [reflexivity |].
  split; [lia |]. split; [lia |]. split; [lia |]. lia.
Qed.

(** X5: decoding a header built from its fields gives the fields back,
    in either layout and whatever follows the header: the numbers, the four
    texts, the unused field, the screenshot offset [4 + hs]; the cursor is
    left at the end of the header. *)
Theorem header_round_trip (hs unk w : Z) (t : tail_fields) (rest : list byte) :
  u32 hs -> u32 unk -> u32 w -> tail_ok t ->
  (w <= 16384 ->
   parse_header (open_rb (plain_header hs unk w t ++ rest)) =
     Ok (decoded_header hs unk w t (length (plain_header hs unk w t)),
         after (plain_header hs unk w t) rest)) /\
  (forall bogus skip,
     u32 bogus -> 16384 < bogus -> length skip = 60%nat ->
     parse_header (open_rb (legacy_header hs unk bogus skip w t ++ rest)) =
       Ok (decoded_header hs unk w t (length (legacy_header hs unk bogus skip w t)),
           after (legacy_header hs unk bogus skip w t) rest)).
Proof.
  intros Hhs Hunk Hw Ht. split.
  - intros Hle. now apply parse_plain_header.
  - intros bogus skip Hb Hlt Hs. now apply parse_legacy_header.
Qed.

(** X6: [extract_image] on a complete save.  When the header is accepted,
    the width is not 0 and the file holds [width * height * 3] bytes from
    the screenshot offset on, the function returns the header and the
    transform of exactly those bytes, a buffer of [width * height * 3] bytes,
    whatever follows them in the file. *)
Theorem extract_image_returns (save : list byte) (meta : header) (f' : file) :
  parse_header (open_rb save) = Ok (meta, f') ->
  0 < width meta ->
  screenshot_offset meta + width meta * height meta * 3 <= Z.of_nat (length save) ->
  exists out,
    extract_image save = Ok (meta, out) /\
    Z.of_nat (length out) = width meta * height meta * 3 /\
    pixel_transform
      (take (Z.to_nat (width meta * height meta * 3))
         (drop (Z.to_nat (screenshot_offset meta)) save))
      (Z.to_nat (width meta)) (Z.to_nat (height meta)) = Ok out.
Proof.
  intros H Hw Hlen. unfold extract_image. rewrite H. cbn [mbind result_bind].
  apply parse_header_inv in H as (Hc & Hoff & _ & _ & Rw & Rh & _).
  pose proof (unpack_le_range (take 4 (drop 11 save))) as Rhs.
  assert (He : 0 <= width meta * height meta * 3) by nia.
  unfold seek. destruct (Z.ltb_spec (screenshot_offset meta) 0); [lia |].
  cbn [mbind result_bind]. rewrite Hc.
  rewrite read_exact_ok by (cbn [tell contents]; lia).
  cbn [mbind result_bind tell contents].
  set (data := take (Z.to_nat (width meta * height meta * 3))
                 (drop (Z.to_nat (screenshot_offset meta)) save)).
  assert (Hd : length data = (Z.to_nat (width meta) * Z.to_nat (height meta) * 3)%nat).
  { unfold data. rewrite length_take, length_drop. nia. }
  destruct (pixel_transform_stages data (Z.to_nat (width meta)) (Z.to_nat (height meta)))
    as (t & out & _ & Hout & _ & Lo & _); [lia | exact Hd |].
  exists out. rewrite Hout. cbn [mbind result_bind].
  split; [reflexivity |]. split; [| reflexivity]. rewrite Lo, Hd. nia.
Qed.

Lemma read_exact_zero f : read_exact f 0 = Ok ([], File (contents f) (tell f + 0)).
Proof.
  unfold read_exact, read. cbv zeta.
  destruct (Z.leb_spec 0 (Z.of_nat (length (drop (tell f) (contents f))))); [| lia].
  reflexivity.
Qed.

(** X7: degenerate dimensions.  A header that declares a width of 0 makes
    [extract_image] raise [ZeroDivisionError] (from [shift_px % w]) whatever
    the height and the length of the file; a header with a height of 0 and a
    width that is not 0 gives the empty buffer, without any read error even
    when the file ends before the screenshot offset. *)
Theorem extract_image_degenerate (save : list byte) (meta : header) (f' : file) :
  parse_header (open_rb save) = Ok (meta, f') ->
  (width meta = 0 -> extract_image save = Raise ZeroDivisionError) /\
  (0 < width meta -> height meta = 0 -> extract_image save = Ok (meta, [])).
Proof.
  intros H. unfold extract_image. rewrite H. cbn [mbind result_bind].
  apply parse_header_inv in H as (Hc & Hoff & _ & _ & Rw & Rh & _).
  pose proof (unpack_le_range (take 4 (drop 11 save))) as Rhs.
  unfold seek. destruct (Z.ltb_spec (screenshot_offset meta) 0); [lia |].
  cbn [mbind result_bind]. split.
  - intros ->. cbn [Z.mul]. rewrite read_exact_zero. reflexivity.
  - intros Hw ->. replace (width meta * 0 * 3) with 0 by lia.
    rewrite read_exact_zero. cbn [mbind result_bind].
    unfold pixel_transform, reorder_channels, permute_channels.
    cbn [length range3 for_each replicate mbind result_bind]. cbn.
    unfold shift_channel. destruct (Nat.eqb_spec (Z.to_nat (width meta)) 0); [lia |].
    destruct (-3 mod _ =? 0); destruct (-4 mod _ =? 0); reflexivity.
Qed.

(** ** The clustered container: offsets, dates and names *)

(** X8: clusters never overlap and stay aligned.  Every offset is a
    multiple of 4096, the offset of a non-negative cluster is at least
    [con_start], and two different clusters are at least 4096 bytes apart, so
    the blocks read for them are disjoint. *)
Theorem get_offset_blocks_disjoint (c1 c2 : Z) :
  c1 < c2 ->
  _get_offset c1 + 4096 <= _get_offset c2 /\
  _get_offset c1 mod 4096 = 0 /\
  (0 <= c1 -> con_start <= _get_offset c1).
Proof.
  intros H. split; [| split].
  - apply get_offset_apart, H.
  - rewrite get_offset_unfold. unfold corr, con_start, con_offset.
    apply Z.mod_divide; [lia |].
    destruct (0 <? c1 / 170); destruct (0 <? c1 / 170 / 170).
    + exists (12 + c1 + 2 * (c1 / 170 + 1) + 2 * (c1 / 170 / 170 + 1)). lia.
    + exists (12 + c1 + 2 * (c1 / 170 + 1)). lia.
    + exists (12 + c1 + 2 * (c1 / 170 / 170 + 1)). lia.
    + exists (12 + c1). lia.
  - apply get_offset_lower.
Qed.

Lemma land_low a n : 0 <= n -> Z.land a (2 ^ n - 1) = a mod 2 ^ n.
Proof.
  intros Hn. rewrite <- Z.land_ones by exact Hn. f_equal. rewrite Z.ones_equiv. lia.
Qed.

(** X9: the DOS date-time decoder loses nothing and checks nothing.  For
    a 32-bit value the six numbers lie in the ranges of their bit fields
    (year 1980 to 2107, month 0 to 15, day 0 to 31, hour 0 to 31, minute 0 to
    63, an even number of seconds up to 62), so months 0 and 13 to 15, day 0,
    hours 24 to 31 and minutes 60 to 63 are returned as they are; and the
    value is recovered from the six numbers. *)
Theorem dos_datetime_fields (v : Z) :
  0 <= v < 2 ^ 32 ->
  let '(year, month, day, hour, minute, sec2) := dos_datetime_from_u32 v in
  1980 <= year <= 2107 /\ 0 <= month <= 15 /\ 0 <= day <= 31 /\
  0 <= hour <= 31 /\ 0 <= minute <= 63 /\ 0 <= sec2 <= 62 /\ sec2 mod 2 = 0 /\
  v = ((year - 1980) * 512 + month * 32 + day) * 65536
      + hour * 2048 + minute * 32 + sec2 / 2.
Proof.
  intros Hv. unfold dos_datetime_from_u32. cbv zeta.
  change 0xFFFF with (2 ^ 16 - 1). change 0x7F with (2 ^ 7 - 1).
  change 0x0F with (2 ^ 4 - 1). change 0x1F with (2 ^ 5 - 1). change 0x3F with (2 ^ 6 - 1).
  rewrite !land_low by lia. rewrite !Z.shiftr_div_pow2 by lia.
  change (2 ^ 16) with 65536. change (2 ^ 7) with 128. change (2 ^ 4) with 16.
  change (2 ^ 5) with 32. change (2 ^ 6) with 64. change (2 ^ 9) with 512.
  change (2 ^ 11) with 2048. change (2 ^ 32) with 4294967296 in Hv.
  repeat split; Z.div_mod_to_equations; lia.
Qed.

(** X10: the name field is cut at its first NUL byte.  What
    [read_fixed_str] hands to the decoder is a prefix of the raw field, holds
    no NUL, is followed in the field by a NUL or by nothing, and is the whole
    field when the field has no NUL. *)
Theorem until_nul_prefix (raw : list byte) :
  exists rest,
    raw = until_nul raw ++ rest /\
    (x00 ∉ until_nul raw) /\
    (rest = [] \/ exists rest', rest = x00 :: rest') /\
    ((x00 ∉ raw) -> until_nul raw = raw).
Proof.
  induction raw as [| b raw (rest & Hraw & Hno & Hrest & Hall)].
  - exists []. cbn. repeat split; auto. apply not_elem_of_nil.
  - cbn [until_nul]. destruct (Byte.eqb b x00) eqn:E.
    + apply Byte.byte_dec_bl in E. subst b. exists (x00 :: raw). cbn.
      split; [reflexivity |]. split; [apply not_elem_of_nil |]. split; [right; eauto |].
      intros Hin. exfalso. apply Hin. left.
    + apply Byte.eqb_false in E. exists rest. cbn [app].
      split; [now rewrite <- Hraw |]. split.
      * rewrite elem_of_cons. intros [Hb | Hin]; [congruence | now apply Hno].
      * split; [exact Hrest |]. intros Hin. f_equal. apply Hall.
        intros Hin'. apply Hin. now right.
Qed.

Lemma r_u32le_pos f v f' :
  r_u32le f = Ok (v, f') ->
  v = unpack_le (take 4 (drop (tell f) (contents f))) /\ 0 <= v < 2 ^ 32 /\
  contents f' = contents f /\ (tell f' = tell f + 4)%nat /\
  (tell f' <= length (contents f))%nat.
Proof.
  unfold r_u32le. intros H. inv_bind H. destruct a as [b f1]. injection H as <- <-.
  pose proof (read_exact_inv _ _ _ _ E) as (_ & Hb & Hl & _).
  apply read_exact_pos in E as (Hc & Ht & _ & Hbound).
  pose proof (unpack_le_range b) as R. rewrite Hl in R.
  split; [now rewrite Hb |]. split; [exact R |]. split; [exact Hc |].
  split; [lia | apply Hbound; lia].
Qed.

Lemma r_i32le_pos f v f' :
  r_i32le f = Ok (v, f') ->
  v = unpack_le_i32 (take 4 (drop (tell f) (contents f))) /\ - 2 ^ 31 <= v < 2 ^ 31 /\
  contents f' = contents f /\ (tell f' = tell f + 4)%nat /\
  (tell f' <= length (contents f))%nat.
Proof.
  unfold r_i32le. intros H. inv_bind H. destruct a as [b f1]. injection H as <- <-.
  pose proof (read_exact_inv _ _ _ _ E) as (_ & Hb & Hl & _).
  apply read_exact_pos in E as (Hc & Ht & _ & Hbound).
  pose proof (unpack_le_range b) as R. rewrite Hl in R.
  split; [now rewrite Hb |]. split.
  - unfold unpack_le_i32. destruct (Z.ltb_spec (unpack_le b) (2 ^ 31)); lia.
  - split; [exact Hc |]. split; [lia | apply Hbound; lia].
Qed.

Lemma r_u16le_pos f v f' :
  r_u16le f = Ok (v, f') ->
  v = unpack_le (take 2 (drop (tell f) (contents f))) /\ 0 <= v < 2 ^ 16 /\
  contents f' = contents f /\ (tell f' = tell f + 2)%nat /\
  (tell f' <= length (contents f))%nat.
Proof.
  unfold r_u16le. intros H. inv_bind H. destruct a as [b f1]. injection H as <- <-.
  pose proof (read_exact_inv _ _ _ _ E) as (_ & Hb & Hl & _).
  apply read_exact_pos in E as (Hc & Ht & _ & Hbound).
  pose proof (unpack_le_range b) as R. rewrite Hl in R.
  split; [now rewrite Hb |]. split; [exact R |]. split; [exact Hc |].
  split; [lia | apply Hbound; lia].
Qed.

(** Shifting a 32-bit little-endian value right by 8 bits drops its first
    byte. *)
Lemma shiftr8_unpack_le (l : list byte) :
  (4 <= length l)%nat ->
  Z.shiftr (unpack_le (take 4 l)) 8 = unpack_le (take 3 (drop 1 l)).
Proof.
  intros Hl. destruct l as [| b0 l]; [cbn in Hl; lia |].
  change (take 4 (b0 :: l)) with (b0 :: take 3 l). change (drop 1 (b0 :: l)) with l.
  cbn [unpack_le]. rewrite Z.shiftr_div_pow2 by lia. change (2 ^ 8) with 256.
  pose proof (byte_val_range b0). Z.div_mod_to_equations. lia.
Qed.

(** X11: what [_read_entry] decodes.  A record with a non-empty name takes
    exactly 64 bytes, all inside the file: the name from the first 38 (cut
    at the first NUL), the signed block-length hint from bytes 42 to 45, the
    cluster from bytes 47 to 49 (the byte before them, the low byte of the
    raw field, is dropped), the size from bytes 52 to 55.  So the cluster is
    below 2^24, the size below 2^32 and neither is negative. *)
Theorem read_entry_fields (decode : list byte -> str) (f : file) (e : PirsEntry) (f' : file) :
  _read_entry decode f = Ok (Some e, f') ->
  let rec := drop (tell f) (contents f) in
  Filename e = decode (until_nul (take 38 rec)) /\ Filename e <> [] /\
  BlockLen e = unpack_le_i32 (take 4 (drop 42 rec)) /\ - 2 ^ 31 <= BlockLen e < 2 ^ 31 /\
  Cluster e = unpack_le (take 3 (drop 47 rec)) /\ 0 <= Cluster e < 2 ^ 24 /\
  Size e = unpack_le (take 4 (drop 52 rec)) /\ 0 <= Size e < 2 ^ 32 /\
  0 <= Parent e < 2 ^ 16 /\
  contents f' = contents f /\ (tell f' = tell f + 64)%nat /\
  (tell f' <= length (contents f))%nat.
Proof.
  intros H rec. unfold _read_entry, read_fixed_str in H.
  inv_bind H. destruct a as [name f1].
  inv_bind E. destruct a as [raw f0]. injection E as <- <-.
  pose proof (read_exact_inv _ _ _ _ E0) as (_ & Hraw & _).
  apply read_exact_pos in E0 as (C0 & T0 & _ & _).
  change (Z.to_nat 38) with 38%nat in Hraw. fold rec in Hraw. subst raw.
  destruct (decode (until_nul (take 38 rec))) as [| c name] eqn:Hname; [discriminate H |].
  inv_bind H. destruct a as [unknow f2]. apply r_i32le_pos in E as (_ & _ & C2 & T2 & _).
  inv_bind H. destruct a as [blocklen f3]. apply r_i32le_pos in E as (Vb & Rb & C3 & T3 & _).
  inv_bind H. destruct a as [raw_cluster f4].
  apply r_u32le_pos in E as (Vc & Rc & C4 & T4 & B4).
  inv_bind H. destruct a as [parent f5]. apply r_u16le_pos in E as (_ & Rp & C5 & T5 & _).
  inv_bind H. destruct a as [size f6]. apply r_u32le_pos in E as (Vs & Rs & C6 & T6 & _).
  inv_bind H. destruct a as [dt1 f7]. apply r_u32le_pos in E as (_ & _ & C7 & T7 & _).
  inv_bind H. destruct a as [dt2 f8]. apply r_u32le_pos in E as (_ & _ & C8 & T8 & B8).
  injection H as <- <-.
  cbn [Filename BlockLen Cluster Size Parent].
  assert (Hat : forall g k, contents g = contents f -> tell g = (tell f + k)%nat ->
                 drop (tell g) (contents g) = drop k rec).
  { intros g k Hc Ht. unfold rec. rewrite Hc, Ht, drop_drop. reflexivity. }
  assert (T0' : tell f0 = (tell f + 38)%nat) by lia.
  rewrite (Hat f2 42%nat) in Vb by (congruence || lia).
  rewrite (Hat f3 46%nat) in Vc by (congruence || lia).
  rewrite (Hat f5 52%nat) in Vs by (congruence || lia).
  assert (Hcl : Z.shiftr raw_cluster 8 = unpack_le (take 3 (drop 47 rec))).
  { rewrite Vc, shiftr8_unpack_le.
    - rewrite drop_drop. reflexivity.
    - unfold rec. rewrite !length_drop.
      replace (contents f3) with (contents f) in B4 by congruence. lia. }
  split; [reflexivity |]. split; [discriminate |].
  split; [exact Vb |]. split; [exact Rb |]. split; [exact Hcl |]. split.
  - rewrite Z.shiftr_div_pow2 by lia. change (2 ^ 8) with 256.
    change (2 ^ 32) with 4294967296 in Rc. change (2 ^ 24) with 16777216.
    Z.div_mod_to_equations. lia.
  - split; [exact Vs |]. split; [exact Rs |]. split; [exact Rp |].
    split; [congruence |].
    replace (contents f7) with (contents f) in B8 by congruence. split; lia.
Qed.

(** An empty name ends [_read_entry] after the 38 bytes of the name. *)
Lemma read_entry_none decode f f' :
  _read_entry decode f = Ok (None, f') ->
  decode (until_nul (take 38 (drop (tell f) (contents f)))) = [] /\
  f' = File (contents f) (tell f + 38) /\
  (tell f + 38 <= length (contents f))%nat.
Proof.
  unfold _read_entry, read_fixed_str. intros H.
  inv_bind H. destruct a as [name f1].
  inv_bind E. destruct a as [raw f0]. injection E as <- <-.
  pose proof (read_exact_inv _ _ _ _ E0) as (_ & Hraw & Hl & Hf).
  change (Z.to_nat 38) with 38%nat in Hraw, Hf. subst raw.
  destruct (decode (until_nul _)) as [| c name] eqn:Hname.
  - injection H as <-. split; [reflexivity |]. split; [exact Hf |].
    rewrite length_take, length_drop in Hl. lia.
  - exfalso. do 7 (inv_bind H; destruct a as [? ?]). discriminate H.
Qed.

(** The invariant of the loop of [_read_entries]: the entries appended are
    the records of consecutive slots, and the slot after them has an empty
    name. *)
Lemma read_entries_loop_table decode fuel : forall f acc idx es f',
  0 <= idx ->
  _read_entries_loop decode fuel f acc idx = Ok (Some (es, f')) ->
  exists new,
    es = acc ++ new /\
    (forall (k : nat) e, new !! k = Some e ->
       exists g, _read_entry decode
                   (File (contents f) (Z.to_nat (con_start + (idx + Z.of_nat k) * 64)))
                 = Ok (Some e, g)) /\
    _read_entry decode
      (File (contents f) (Z.to_nat (con_start + (idx + Z.of_nat (length new)) * 64)))
    = Ok (None, f').
Proof.
  induction fuel as [| fuel IH]; intros f acc idx es f' Hidx H; [discriminate H |].
  cbn [_read_entries_loop] in H. unfold seek in H.
  destruct (Z.ltb_spec (con_start + idx * 64) 0); [unfold con_start in *; lia |].
  cbn [mbind result_bind] in H. inv_bind H. destruct a as [[e |] f1].
  - pose proof (read_entry_contents _ _ _ _ E) as Hc. cbn [contents] in Hc.
    apply IH in H as (new & -> & Hall & Hend); [| lia].
    exists (e :: new). split; [now rewrite <- app_assoc |]. split.
    + intros [| k] e' Hk.
      * injection Hk as <-. exists f1. rewrite <- E. do 3 f_equal. lia.
      * cbn in Hk. destruct (Hall k e' Hk) as (g & Hg). exists g. rewrite <- Hg, Hc.
        do 3 f_equal. lia.
    + rewrite <- Hend, Hc. cbn [length]. do 3 f_equal. lia.
  - injection H as <- <-. exists []. split; [now rewrite app_nil_r |]. split.
    + intros k e' Hk. discriminate Hk.
    + rewrite <- E. cbn [length]. do 3 f_equal. lia.
Qed.

(** More fuel does not change a finished scan. *)
Lemma read_entries_loop_more decode fuel : forall fuel' f acc idx r,
  (fuel <= fuel')%nat ->
  _read_entries_loop decode fuel f acc idx = r -> r <> Ok None ->
  _read_entries_loop decode fuel' f acc idx = r.
Proof.
  induction fuel as [| fuel IH]; intros fuel' f acc idx r Hle H Hne.
  - cbn in H. congruence.
  - destruct fuel' as [| fuel']; [lia |]. cbn [_read_entries_loop] in *.
    destruct (seek f (con_start + idx * 64)) as [f1 | err]; cbn [mbind result_bind] in *;
      [| exact H].
    destruct (_read_entry decode f1) as [[[e |] f2] | err]; cbn [mbind result_bind] in *;
      [| exact H | exact H].
    apply IH; [lia | exact H | exact Hne].
Qed.

(** A slot whose name field does not fit in the file cannot be read. *)
Lemma read_entries_loop_short decode fuel f acc idx :
  0 <= idx ->
  Z.of_nat (length (contents f)) < con_start + 64 * idx + 38 ->
  _read_entries_loop decode (S fuel) f acc idx = Raise EOFError.
Proof.
  intros Hidx Hlen. cbn [_read_entries_loop]. unfold seek.
  destruct (Z.ltb_spec (con_start + idx * 64) 0); [unfold con_start in *; lia |].
  cbn [mbind result_bind]. unfold _read_entry, read_fixed_str.
  rewrite read_exact_short by (cbn [contents tell]; unfold con_start in *; lia).
  reflexivity.
Qed.

(** ** Opening a package *)

(** X12: the packages that [PirsType2.__init__] refuses.  A file shorter
    than four bytes raises [EOFError]; one that does not start with "CON "
    raises [BadMagic] (the source's [ValueError]); one with the magic that is
    too short to hold the name of the first table slot, at byte 49152, raises
    [EOFError]: a package without a table is not an empty package. *)
Theorem init_rejects (decode : list byte -> str) (fuel : nat) (pkg : list byte) :
  ((length pkg < 4)%nat -> __init__ decode fuel pkg = Raise EOFError) /\
  ((4 <= length pkg)%nat -> take 4 pkg <> MAGIC_CON ->
   __init__ decode fuel pkg = Raise BadMagic) /\
  (take 4 pkg = MAGIC_CON -> Z.of_nat (length pkg) < con_start + 38 ->
   __init__ decode (S fuel) pkg = Raise EOFError).
Proof.
  split; [| split].
  - intros Hl. unfold __init__, open_rb.
    rewrite read_exact_short by (cbn [tell contents]; lia). reflexivity.
  - intros Hl Hne. unfold __init__, open_rb.
    rewrite read_exact_ok by (cbn [tell contents]; lia).
    cbn [mbind result_bind tell contents]. rewrite drop_0. change (Z.to_nat 4) with 4%nat.
    destruct (bytes_eqb (take 4 pkg) MAGIC_CON) eqn:E; [| reflexivity].
    apply bytes_eqb_eq in E. contradiction.
  - intros Hm Hl. unfold __init__, open_rb.
    assert (H4 : (4 <= length pkg)%nat).
    { apply (f_equal length) in Hm. rewrite length_take in Hm.
      change (length MAGIC_CON) with 4%nat in Hm. lia. }
    rewrite read_exact_ok by (cbn [tell contents]; lia).
    cbn [mbind result_bind tell contents]. rewrite drop_0. change (Z.to_nat 4) with 4%nat.
    rewrite Hm. change (bytes_eqb MAGIC_CON MAGIC_CON) with true.
    cbn [negb]. rewrite read_entries_loop_short; [reflexivity | lia |].
    cbn [contents]. lia.
Qed.

(** What a successful [__init__] has done. *)
Lemma init_inv decode fuel pkg self :
  __init__ decode fuel pkg = Ok (Some self) ->
  take 4 pkg = MAGIC_CON /\
  _pkg_size self = Z.of_nat (length pkg) /\
  _read_entries_loop decode fuel (File pkg 4) [] 0 = Ok (Some (entries self, self_f self)).
Proof.
  intros H. unfold __init__ in H.
  inv_bind H. destruct a as [magic f].
  pose proof (read_exact_inv _ _ _ _ E) as (_ & Hm & _ & Hf).
  cbn [open_rb contents tell] in Hm, Hf. rewrite drop_0 in Hm.
  change (Z.to_nat 4) with 4%nat in Hm, Hf. cbn [Nat.add] in Hf.
  destruct (bytes_eqb magic MAGIC_CON) eqn:Em; [| discriminate H].
  apply bytes_eqb_eq in Em. cbn [negb] in H.
  inv_bind H. destruct a as [[es f1] |]; [| discriminate H].
  injection H as <-. cbn [entries _pkg_size self_f]. subst f.
  split; [congruence |]. split; [reflexivity | exact E0].
Qed.

(** X13: the table that [__init__] builds.  When it returns, the file
    starts with "CON ", [_pkg_size] is the length of the file, and the entries
    are, in order, what [_read_entry] decodes at the slots 49152, 49152 + 64,
    ...; the slot after the last entry has an empty name, which ended the
    scan and left the cursor 38 bytes into it, inside the file.  So the table
    holds at most [(length - 49190) / 64] entries. *)
Theorem init_table (decode : list byte -> str) (fuel : nat) (pkg : list byte)
    (self : PirsType2) :
  __init__ decode fuel pkg = Ok (Some self) ->
  let n := Z.of_nat (length (entries self)) in
  let slot (k : Z) := File pkg (Z.to_nat (con_start + 64 * k)) in
  take 4 pkg = MAGIC_CON /\
  _pkg_size self = Z.of_nat (length pkg) /\
  (forall (k : nat) e, entries self !! k = Some e ->
     exists g, _read_entry decode (slot (Z.of_nat k)) = Ok (Some e, g)) /\
  _read_entry decode (slot n) = Ok (None, self_f self) /\
  self_f self = File pkg (Z.to_nat (con_start + 64 * n + 38)) /\
  con_start + 64 * n + 38 <= Z.of_nat (length pkg).
Proof.
  intros H n slot. apply init_inv in H as (Hm & Hsz & Hloop).
  apply read_entries_loop_table in Hloop as (new & Hes & Hall & Hend); [| lia].
  cbn [app] in Hes. subst new. cbn [contents] in *.
  assert (Hslot : forall k, File pkg (Z.to_nat (con_start + (0 + k) * 64)) = slot k).
  { intros k. unfold slot. do 2 f_equal. lia. }
  rewrite Hslot in Hend. fold n in Hend.
  pose proof (read_entry_none _ _ _ Hend) as (_ & Hf1 & Hb).
  cbn [slot contents tell] in Hf1, Hb.
  split; [exact Hm |]. split; [exact Hsz |]. split.
  - intros k e Hk. destruct (Hall k e Hk) as (g & Hg). exists g. now rewrite <- Hslot.
  - split; [exact Hend |]. unfold con_start in *. split.
    + rewrite Hf1. f_equal. lia.
    + lia.
Qed.

(** X14: the scan of the table ends.  Every iteration reads a slot 64
    bytes further on and the file is finite, so [length pkg + 1] iterations
    are never used up; and once a number of iterations is enough for
    [__init__] to return or raise, any larger number gives the same outcome.
    The outcome for [length pkg + 1] iterations is therefore the outcome of
    the unbounded [while True] loop. *)
Theorem init_terminates (decode : list byte -> str) (pkg : list byte) :
  __init__ decode (S (length pkg)) pkg <> Ok None /\
  (forall fuel fuel' r,
     __init__ decode fuel pkg = r -> r <> Ok None -> (fuel <= fuel')%nat ->
     __init__ decode fuel' pkg = r).
Proof.
  split; [apply init_fuel |].
  intros fuel fuel' r H Hne Hle. unfold __init__ in *.
  destruct (read_exact (open_rb pkg) 4) as [[magic f] | err]; cbn [mbind result_bind] in *;
    [| exact H].
  destruct (negb (bytes_eqb magic MAGIC_CON)); [exact H |].
  destruct (_read_entries_loop decode fuel f [] 0) as [[[es f1] |] | err] eqn:E.
  - rewrite (read_entries_loop_more decode fuel fuel' f [] 0 _ Hle E) by discriminate.
    exact H.
  - cbn [mbind result_bind] in H. congruence.
  - rewrite (read_entries_loop_more decode fuel fuel' f [] 0 _ Hle E) by discriminate.
    exact H.
Qed.

(** ** Extracting an entry *)

Lemma block_at_past pkg c len :
  Z.of_nat (length pkg) <= _get_offset c -> block_at pkg c len = [].
Proof.
  intros H. unfold block_at. rewrite drop_ge by lia. apply take_nil.
Qed.

Lemma blocks_past pkg start n : forall a,
  Z.of_nat (length pkg) <= _get_offset (start + Z.of_nat a) ->
  concat (map (fun j => block_at pkg (start + Z.of_nat j) 4096) (seq a n)) = [].
Proof.
  induction n as [| n IH]; intros a H; [reflexivity |].
  cbn [seq map concat]. rewrite block_at_past by exact H. cbn [app].
  apply IH. pose proof (get_offset_apart (start + Z.of_nat a) (start + Z.of_nat (S a))). lia.
Qed.

Lemma length_block_at pkg c len : 0 <= len -> Z.of_nat (length (block_at pkg c len)) <= len.
Proof. intros H. unfold block_at. rewrite length_take. lia. Qed.

Lemma length_blocks pkg start n : forall a,
  Z.of_nat (length (concat (map (fun j => block_at pkg (start + Z.of_nat j) 4096) (seq a n))))
  <= 4096 * Z.of_nat n.
Proof.
  induction n as [| n IH]; intros a; [cbn; lia |].
  cbn [seq map concat]. rewrite length_app.
  pose proof (length_block_at pkg (start + Z.of_nat a) 4096 ltac:(lia)).
  specialize (IH (S a)). lia.
Qed.

(** The block loop, from any index: it never raises, and what it has
    written when it ends is the run of blocks, each clipped to the file. *)
Lemma block_loop_clipped pkg_size start n : forall a st,
  pkg_size = Z.of_nat (length (contents (xs_f st))) ->
  0 <= start ->
  xs_last_off st < _get_offset (start + Z.of_nat a) ->
  exists fl st',
    block_loop pkg_size start n (Z.of_nat a) st = Ok (fl, st') /\
    contents (xs_f st') = contents (xs_f st) /\
    xs_w st' = xs_w st ++
      concat (map (fun j => block_at (contents (xs_f st)) (start + Z.of_nat j) 4096) (seq a n)) /\
    (fl = Next -> xs_remainder st' = xs_remainder st) /\
    (fl <> Next ->
     xs_remainder st' = 0 /\ pkg_size <= _get_offset (start + Z.of_nat (a + n))).
Proof.
  induction n as [| n IH]; intros a st Hsz Hstart Hlast.
  - exists Next, st. cbn [block_loop seq map concat]. rewrite app_nil_r.
    repeat split; congruence.
  - cbn [block_loop].
    set (off := _get_offset (start + Z.of_nat a)) in *.
    assert (Hnext : off + 4096 <= _get_offset (start + Z.of_nat (S a))).
    { apply get_offset_apart. lia. }
    assert (Hend : _get_offset (start + Z.of_nat (S a))
                   <= _get_offset (start + Z.of_nat (a + S n))).
    { destruct n as [| n]; [replace (a + 1)%nat with (S a) by lia; lia |].
      pose proof (get_offset_apart (start + Z.of_nat (S a)) (start + Z.of_nat (a + S (S n)))).
      lia. }
    destruct (Z.le_gt_cases pkg_size off) as [Hpast | Hin].
    + rewrite block_body_past_end by assumption. cbn [mbind result_bind].
      do 2 eexists. split; [reflexivity |]. cbn [xs_f xs_w xs_remainder].
      split; [reflexivity |]. split.
      * rewrite blocks_past by (fold off; lia). now rewrite app_nil_r.
      * split; [discriminate |]. intros _. split; [reflexivity | lia].
    + pose proof (get_offset_lower (start + Z.of_nat a) ltac:(lia)) as Hlow.
      fold off in Hlow. unfold con_start in Hlow.
      rewrite block_body_reads by (assumption || (fold off; lia)).
      cbv zeta. fold off.
      assert (Hb : take (Z.to_nat (Z.min 4096 (pkg_size - off)))
                     (drop (Z.to_nat off) (contents (xs_f st)))
                   = block_at (contents (xs_f st)) (start + Z.of_nat a) 4096).
      { unfold block_at. fold off. destruct (Z.le_gt_cases 4096 (pkg_size - off)).
        - rewrite Z.min_l by lia. reflexivity.
        - rewrite Z.min_r by lia. rewrite !take_ge by (rewrite length_drop; lia).
          reflexivity. }
      rewrite Hb.
      destruct (Z.ltb_spec (Z.min 4096 (pkg_size - off)) 4096) as [Hshort | Hfull].
      * cbn [mbind result_bind]. do 2 eexists. split; [reflexivity |].
        cbn [xs_f xs_w xs_remainder contents]. split; [reflexivity |]. split.
        -- cbn [seq map concat]. rewrite blocks_past by lia. now rewrite app_nil_r.
        -- split; [discriminate |]. intros _. split; [reflexivity | lia].
      * cbn [mbind result_bind].
        replace (Z.of_nat a + 1) with (Z.of_nat (S a)) by lia.
        edestruct (IH (S a)) as (fl & st' & Hrun & Hc & Hw & Hrem & Hbrk);
          [ | exact Hstart | | exists fl, st'; split; [exact Hrun |] ].
        -- cbn [xs_f contents]. exact Hsz.
        -- cbn [xs_last_off]. lia.
        -- cbn [xs_f xs_w xs_remainder contents] in Hc, Hw, Hrem, Hbrk.
           split; [exact Hc |]. split.
           ++ rewrite Hw. cbn [seq map concat]. now rewrite <- app_assoc.
           ++ split; [exact Hrem |]. intros Hne. destruct (Hbrk Hne) as (H0 & Hp).
              split; [exact H0 |]. replace (a + S n)%nat with (S a + n)%nat by lia. exact Hp.
Qed.

Lemma full_blocks_bounds e :
  0 <= Size e ->
  0 <= full_blocks_of e <= Size e / 4096 /\
  remainder_of e = Size e - 4096 * full_blocks_of e /\
  0 <= remainder_of e.
Proof.
  intros Hs. unfold remainder_of. rewrite Z.shiftl_mul_pow2 by lia.
  change (2 ^ 12) with 4096.
  assert (Hfb : 0 <= full_blocks_of e <= Size e / 4096).
  { unfold full_blocks_of. rewrite Z.shiftr_div_pow2 by lia. change (2 ^ 12) with 4096.
    pose proof (Z.div_pos (Size e) 4096 Hs ltac:(lia)).
    destruct (Z.eqb_spec (Z.max 0 (BlockLen e)) 0); lia. }
  split; [exact Hfb |]. split; [lia |].
  pose proof (Z.mul_div_le (Size e) 4096 ltac:(lia)). nia.
Qed.

Lemma extract_entry_run self e :
  _pkg_size self = Z.of_nat (length (contents (self_f self))) ->
  0 <= Cluster e -> 0 < Size e ->
  exists f',
    _extract_entry self e = Ok (Some (clipped_blocks (contents (self_f self)) e), f') /\
    contents f' = contents (self_f self).
Proof.
  intros Hsz Hc Hs. unfold _extract_entry.
  destruct (Z.leb_spec (Size e) 0); [lia |].
  fold (full_blocks_of e). fold (remainder_of e).
  destruct (full_blocks_bounds e ltac:(lia)) as ((Hfb0 & _) & _ & Hrem0).
  set (pkg := contents (self_f self)) in *.
  pose proof (get_offset_lower (Cluster e + Z.of_nat 0) ltac:(lia)) as Hlow.
  unfold con_start in Hlow.
  destruct (block_loop_clipped (_pkg_size self) (Cluster e) (Z.to_nat (full_blocks_of e))
              0%nat (XState (self_f self) [] (-1) (remainder_of e)))
    as (fl & st' & Hrun & Hcont & Hw & Hnext & Hbrk);
    [exact Hsz | exact Hc | cbn [xs_last_off]; lia |].
  change (Z.of_nat 0) with 0 in Hrun. rewrite Hrun. cbn [mbind result_bind].
  cbn [xs_f xs_w xs_remainder app] in Hcont, Hw, Hnext, Hbrk. fold pkg in Hcont, Hw.
  replace (Z.of_nat (0 + Z.to_nat (full_blocks_of e))) with (full_blocks_of e) in Hbrk by lia.
  unfold clipped_blocks. rewrite <- Hw.
  set (off := _get_offset (Cluster e + full_blocks_of e)) in *.
  assert (Hoff : 0 <= off).
  { pose proof (get_offset_lower (Cluster e + full_blocks_of e) ltac:(lia)) as Hl.
    fold off in Hl. unfold con_start in Hl. lia. }
  assert (Hfl : fl = Next \/ fl <> Next) by (destruct fl; auto; right; discriminate).
  destruct Hfl as [-> | Hne].
  - rewrite (Hnext eq_refl).
    destruct (Z.ltb_spec 0 (remainder_of e)) as [Hpos | Hzero].
    + destruct (Z.ltb_spec off (_pkg_size self)) as [Hin | Hout].
      * destruct (Z.ltb_spec 0 (Z.min (remainder_of e) (_pkg_size self - off))); [| lia].
        unfold seek. destruct (Z.ltb_spec off 0); [lia |]. cbn [mbind result_bind].
        rewrite read_exact_ok by (cbn [tell contents]; rewrite ?Hcont; fold pkg in Hsz; lia).
        cbn [mbind result_bind tell contents].
        assert (Hb : take (Z.to_nat (Z.min (remainder_of e) (_pkg_size self - off)))
                       (drop (Z.to_nat off) (contents (xs_f st')))
                     = block_at pkg (Cluster e + full_blocks_of e) (remainder_of e)).
        { unfold block_at. fold off. rewrite Hcont. fold pkg in Hsz.
          destruct (Z.le_gt_cases (remainder_of e) (_pkg_size self - off)).
          - rewrite Z.min_l by lia. reflexivity.
          - rewrite Z.min_r by lia. rewrite !take_ge by (rewrite length_drop; lia).
            reflexivity. }
        rewrite Hb. eexists. split; [reflexivity | exact Hcont].
      * exists (xs_f st'). split; [| exact Hcont].
        rewrite block_at_past by (fold off; fold pkg in Hsz; lia). now rewrite app_nil_r.
    + exists (xs_f st'). split; [| exact Hcont].
      unfold block_at. replace (Z.to_nat (remainder_of e)) with 0%nat by lia.
      rewrite take_0. now rewrite app_nil_r.
  - destruct (Hbrk Hne) as (H0 & Hp). rewrite H0. cbn.
    exists (xs_f st'). split; [| exact Hcont].
    rewrite block_at_past by (fold off; fold pkg in Hsz; lia). now rewrite app_nil_r.
Qed.

Lemma length_clipped_blocks pkg e :
  0 <= Size e -> Z.of_nat (length (clipped_blocks pkg e)) <= Size e.
Proof.
  intros Hs. destruct (full_blocks_bounds e Hs) as ((Hfb0 & _) & Hrem & Hrem0).
  unfold clipped_blocks. rewrite length_app.
  pose proof (length_blocks pkg (Cluster e) (Z.to_nat (full_blocks_of e)) 0%nat).
  pose proof (length_block_at pkg (Cluster e + full_blocks_of e) (remainder_of e) Hrem0).
  lia.
Qed.

(** X15: [_extract_entry] never raises on a truncated package.  For an
    entry of positive size whose start cluster is not negative (every entry
    of a decoded table), on a package whose recorded size is its length, the
    method returns, whatever the length of the package; what it writes is the
    run of the entry's blocks at their offsets, each clipped to the end of
    the file, so never more than [Size] bytes; and the package is not
    modified.  An entry whose size is not positive writes no file. *)
Theorem extract_entry_never_raises (self : PirsType2) (e : PirsEntry) :
  _pkg_size self = Z.of_nat (length (contents (self_f self))) ->
  0 <= Cluster e ->
  (0 < Size e ->
   exists f',
     _extract_entry self e = Ok (Some (clipped_blocks (contents (self_f self)) e), f') /\
     contents f' = contents (self_f self) /\
     Z.of_nat (length (clipped_blocks (contents (self_f self)) e)) <= Size e) /\
  (Size e <= 0 -> _extract_entry self e = Ok (None, self_f self)).
Proof.
  intros Hsz Hc. split.
  - intros Hs. destruct (extract_entry_run self e Hsz Hc Hs) as (f' & Hrun & Hcont).
    exists f'. split; [exact Hrun |]. split; [exact Hcont |].
    apply length_clipped_blocks. lia.
  - intros Hs. unfold _extract_entry. destruct (Z.leb_spec (Size e) 0); [reflexivity | lia].
Qed.

Lemma get_offset_linear c : 0 <= c < 170 -> _get_offset c = con_start + 4096 * c.
Proof.
  intros H. rewrite get_offset_unfold. rewrite (Z.div_small c 170) by lia.
  change (0 / 170) with 0. unfold corr. cbn. lia.
Qed.

(** Below cluster 170 the blocks follow one another in the file. *)
Lemma blocks_linear pkg start n : forall a,
  0 <= start -> start + Z.of_nat (a + n) <= 170 ->
  concat (map (fun j => block_at pkg (start + Z.of_nat j) 4096) (seq a n))
  = take (4096 * n) (drop (Z.to_nat (con_start + 4096 * (start + Z.of_nat a))) pkg).
Proof.
  induction n as [| n IH]; intros a Hs Hn.
  - cbn [seq map concat]. rewrite Nat.mul_0_r. now rewrite take_0.
  - cbn [seq map concat]. rewrite IH by lia.
    unfold block_at. rewrite get_offset_linear by lia.
    change (Z.to_nat 4096) with 4096%nat.
    set (x := Z.to_nat (con_start + 4096 * (start + Z.of_nat a))).
    replace (Z.to_nat (con_start + 4096 * (start + Z.of_nat (S a)))) with (x + 4096)%nat
      by (unfold x, con_start; lia).
    rewrite <- drop_drop. rewrite take_take_drop. f_equal. lia.
Qed.

Lemma length_blocks_full pkg start n : forall a,
  _get_offset (start + Z.of_nat (a + n)) <= Z.of_nat (length pkg) ->
  0 <= start ->
  length (concat (map (fun j => block_at pkg (start + Z.of_nat j) 4096) (seq a n)))
  = (4096 * n)%nat.
Proof.
  induction n as [| n IH]; intros a Hlen Hs; [reflexivity |].
  cbn [seq map concat]. rewrite length_app.
  rewrite IH by (try replace (S a + n)%nat with (a + S n)%nat by lia; assumption).
  pose proof (get_offset_lower (start + Z.of_nat a) ltac:(lia)) as Hlow.
  unfold con_start in Hlow.
  assert (Hap : _get_offset (start + Z.of_nat a) + 4096
                <= _get_offset (start + Z.of_nat (a + S n))).
  { apply get_offset_apart. lia. }
  unfold block_at. rewrite length_take, length_drop. lia.
Qed.

(** X16: an entry that lies in the file is extracted whole, and below
    cluster 170 it is one slice of the file.  When the file reaches the end
    of the entry's last block, the output has exactly [Size] bytes.  When the
    entry ends before cluster 170, where no index block lies between its
    clusters, the output is the [Size] bytes that follow the offset of its
    start cluster (fewer if the file ends first), whatever the block-length
    hint says. *)
Theorem extract_entry_complete (self : PirsType2) (e : PirsEntry) :
  _pkg_size self = Z.of_nat (length (contents (self_f self))) ->
  0 <= Cluster e -> 0 < Size e ->
  exists out f',
    _extract_entry self e = Ok (Some out, f') /\
    (_get_offset (Cluster e + full_blocks_of e) + remainder_of e <= _pkg_size self ->
     Z.of_nat (length out) = Size e) /\
    (Cluster e + Size e / 4096 < 170 ->
     out = take (Z.to_nat (Size e))
             (drop (Z.to_nat (con_start + 4096 * Cluster e)) (contents (self_f self)))).
Proof.
  intros Hsz Hc Hs. destruct (extract_entry_run self e Hsz Hc Hs) as (f' & Hrun & _).
  destruct (full_blocks_bounds e ltac:(lia)) as ((Hfb0 & Hfb) & Hrem & Hrem0).
  set (pkg := contents (self_f self)) in *.
  exists (clipped_blocks pkg e), f'. split; [exact Hrun |]. split.
  - intros Hin. unfold clipped_blocks. rewrite length_app.
    rewrite length_blocks_full by (try replace (Z.of_nat (0 + Z.to_nat (full_blocks_of e)))
                                     with (full_blocks_of e) by lia; lia).
    pose proof (get_offset_lower (Cluster e + full_blocks_of e) ltac:(lia)) as Hlow.
    unfold con_start in Hlow.
    unfold block_at. rewrite length_take, length_drop. lia.
  - intros Hlin. unfold clipped_blocks.
    rewrite blocks_linear by lia.
    unfold block_at. rewrite get_offset_linear by lia.
    change (Z.of_nat 0) with 0. rewrite Z.add_0_r.
    set (x := Z.to_nat (con_start + 4096 * Cluster e)).
    replace (Z.to_nat (con_start + 4096 * (Cluster e + full_blocks_of e)))
      with (x + 4096 * Z.to_nat (full_blocks_of e))%nat by (unfold x, con_start; lia).
    rewrite <- drop_drop. rewrite take_take_drop. f_equal. lia.
Qed.

(** ** Extracting the whole table *)

Lemma read_entry_nonneg decode f e f' :
  _read_entry decode f = Ok (Some e, f') -> 0 <= Cluster e /\ 0 <= Size e.
Proof.
  unfold _read_entry. intros H.
  inv_bind H. destruct a as [name f1]. destruct name as [| c name]; [discriminate H |].
  inv_bind H. destruct a as [unknow f2].
  inv_bind H. destruct a as [blocklen f3].
  inv_bind H. destruct a as [raw_cluster f4].
  inv_bind H. destruct a as [parent f5].
  inv_bind H. destruct a as [size f6].
  inv_bind H. destruct a as [dt1 f7].
  inv_bind H. destruct a as [dt2 f8].
  injection H as <- _. cbn [Cluster Size].
  repeat match goal with
         | E : r_u32le _ = Ok _ |- _ => apply r_u32le_pos in E as (_ & ? & _)
         end.
  split; [| lia]. apply Z.shiftr_nonneg. lia.
Qed.

Lemma read_entry_name decode f e f' :
  _read_entry decode f = Ok (Some e, f') -> Filename e <> [].
Proof.
  unfold _read_entry. intros H.
  inv_bind H. destruct a as [name f1]. destruct name as [| c name]; [discriminate H |].
  do 7 (inv_bind H; destruct a as [? ?]).
  injection H as <- _. discriminate.
Qed.

Lemma read_entries_loop_Forall (P : PirsEntry -> Prop) decode :
  (forall f e f', _read_entry decode f = Ok (Some e, f') -> P e) ->
  forall fuel f acc idx es f',
    Forall P acc ->
    _read_entries_loop decode fuel f acc idx = Ok (Some (es, f')) ->
    Forall P es /\ contents f' = contents f.
Proof.
  intros HP. induction fuel as [| fuel IH]; intros f acc idx es f' Hacc H.
  - discriminate H.
  - cbn [_read_entries_loop] in H.
    inv_bind H. inv_bind H. destruct a0 as [[e |] f1].
    + pose proof (read_entry_contents _ _ _ _ E0) as Hc.
      apply IH in H as (HF & Hc').
      * split; [exact HF |]. rewrite Hc', Hc. unfold seek in E.
        destruct (_ <? 0); [discriminate E |]. injection E as <-. reflexivity.
      * apply Forall_app. split; [exact Hacc |].
        constructor; [| constructor]. eapply HP. exact E0.
    + injection H as <- <-. split; [exact Hacc |].
      rewrite (read_entry_contents _ _ _ _ E0). unfold seek in E.
      destruct (_ <? 0); [discriminate E |]. injection E as <-. reflexivity.
Qed.

Lemma extract_entries_run es : forall self,
  _pkg_size self = Z.of_nat (length (contents (self_f self))) ->
  Forall (fun e => 0 <= Cluster e) es ->
  extract_entries self es = Ok (written_files (contents (self_f self)) es).
Proof.
  induction es as [| e es IH]; intros self Hsz Hall; [reflexivity |].
  apply Forall_cons in Hall as (Hc & Hall).
  cbn [extract_entries]. unfold written_files. cbn [List.filter].
  destruct (is_dir e); cbn [negb andb].
  - apply IH; assumption.
  - destruct (Z.ltb_spec 0 (Size e)) as [Hs | Hs].
    + destruct (extract_entry_run self e Hsz Hc Hs) as (f' & Hrun & Hcont).
      rewrite Hrun. cbn [mbind result_bind].
      rewrite IH by (cbn [self_f _pkg_size]; rewrite ?Hcont; assumption).
      cbn [mbind result_bind self_f map]. unfold written_files. rewrite Hcont. reflexivity.
    + unfold _extract_entry at 1. destruct (Z.leb_spec (Size e) 0); [| lia].
      cbn [mbind result_bind].
      rewrite IH by (cbn [self_f _pkg_size]; assumption).
      cbn [mbind result_bind self_f]. reflexivity.
Qed.

Lemma filter_positive_size es :
  Forall (fun e => is_dir e = (Size e =? 0) && (Cluster e =? 0)) es ->
  List.filter (fun e => negb (is_dir e) && (0 <? Size e)) es
  = List.filter (fun e => 0 <? Size e) es.
Proof.
  induction 1 as [| e es He _ IH]; [reflexivity |].
  cbn [List.filter]. rewrite IH, He.
  destruct (Z.ltb_spec 0 (Size e)); destruct (Z.eqb_spec (Size e) 0); try lia;
    cbn [negb andb]; rewrite ?andb_false_r; reflexivity.
Qed.

(** X17: [extract_all] on a package that [__init__] has opened.  It never
    raises, however short the package is after its table, and it writes one
    file for each entry of positive size, in table order, under the entry's
    name (which is not empty): the entry's blocks, clipped to the end of the
    package.  Entries of size 0, directories among them, give no file. *)
Theorem extract_all_writes (decode : list byte -> str) (fuel : nat) (pkg : list byte)
    (self : PirsType2) :
  __init__ decode fuel pkg = Ok (Some self) ->
  extract_all self =
    Ok (map (fun e => (Filename e, clipped_blocks pkg e))
          (List.filter (fun e => 0 <? Size e) (entries self))) /\
  Forall (fun e => Filename e <> []) (entries self).
Proof.
  intros H. apply init_inv in H as (_ & Hsz & Hloop).
  pose proof (read_entries_loop_Forall
                (fun e => (0 <= Cluster e /\
                           is_dir e = (Size e =? 0) && (Cluster e =? 0)) /\
                          Filename e <> []) decode) as HF.
  destruct (HF ltac:(intros f e f' He; split; [split |];
                     [ eapply read_entry_nonneg, He
                     | eapply read_entry_is_dir, He
                     | eapply read_entry_name, He ])
              fuel _ _ _ _ _ (Forall_nil_2 _) Hloop) as (Hall & Hc).
  cbn [contents] in Hc.
  apply Forall_and in Hall as (Hall & Hname). apply Forall_and in Hall as (Hcl & Hdir).
  split; [| exact Hname].
  unfold extract_all. rewrite extract_entries_run by (rewrite ?Hc; assumption).
  unfold written_files. rewrite Hc, filter_positive_size by exact Hdir. reflexivity.
Qed.

(** ** The pixel transform on its own *)

Lemma for_each_app {S : Type} (body : S -> nat -> result S) l1 l2 (s : S) :
  for_each body (l1 ++ l2) s = s' ← for_each body l1 s; for_each body l2 s'.
Proof.
  revert s. induction l1 as [| i l1 IH]; intros s; [reflexivity |].
  cbn [app for_each]. destruct (body s i) as [s' | err]; cbn [mbind result_bind];
    [apply IH | reflexivity].
Qed.

(** The iterations of [reorder_channels] over whole pixels succeed. *)
Lemma reorder_prefix_ok buf n : forall a out,
  length out = length buf -> (3 * (a + n) <= length buf)%nat ->
  exists out',
    for_each (reorder_body 2 0 1 buf) (map (fun k => 0 + 3 * k)%nat (seq a n)) out = Ok out' /\
    length out' = length buf.
Proof.
  induction n as [| n IH]; intros a out Hout Hlen.
  - exists out. split; [reflexivity | exact Hout].
  - cbn [seq map for_each].
    destruct (lookup_lt_is_Some_2 buf (0 + 3 * a + 2)) as [x Hx]; [lia |].
    destruct (lookup_lt_is_Some_2 buf (0 + 3 * a + 0)) as [y Hy]; [lia |].
    destruct (lookup_lt_is_Some_2 buf (0 + 3 * a + 1)) as [z Hz]; [lia |].
    rewrite (reorder_body_ok _ _ _ _ _ _ x y z) by (assumption || lia).
    cbn [mbind result_bind]. apply IH; [rewrite !length_insert; exact Hout | lia].
Qed.

(** X18: [reorder_channels] needs whole pixels.  On a buffer whose length
    is a multiple of 3 it returns a buffer of the same length; on any other
    buffer it raises [IndexError], from the read of [buf[i + 2]] in the last,
    incomplete pixel.  ([extract_image] only passes it [w * h * 3] bytes.) *)
Theorem reorder_channels_whole_pixels (buf : list byte) :
  ((length buf mod 3 = 0)%nat ->
   exists out, reorder_channels buf = Ok out /\ length out = length buf) /\
  ((length buf mod 3 <> 0)%nat -> reorder_channels buf = Raise IndexError).
Proof.
  pose proof (Nat.div_mod_eq (length buf) 3) as Hdm.
  pose proof (Nat.mod_upper_bound (length buf) 3 ltac:(lia)) as Hr.
  set (m := (length buf / 3)%nat) in *. set (r := (length buf mod 3)%nat) in *.
  split.
  - intros H0. destruct (permute_channels_lookup 2 0 1 buf m) as (out & Hrun & Hl & _);
      [lia.. |]. exists out. split; [exact Hrun | exact Hl].
  - intros Hne. unfold reorder_channels, permute_channels, range3.
    replace ((length buf - 0 + 2) / 3)%nat with (S m)
      by (apply (Nat.div_unique _ 3 (S m) (r - 1)); lia).
    rewrite seq_S, map_app, for_each_app.
    destruct (reorder_prefix_ok buf m 0%nat (replicate (length buf) x00)) as (out & Hrun & Hl);
      [apply length_replicate | lia |].
    rewrite Hrun. cbn [mbind result_bind map for_each]. unfold reorder_body.
    assert (Hg : getitem buf (0 + 3 * (0 + m) + 2) = Raise IndexError)
      by (unfold getitem; rewrite lookup_ge_None_2 by lia; reflexivity).
    rewrite Hg. reflexivity.
Qed.

(** X19: applying [reorder_channels] three times gives the buffer back:
    the permutation (2, 0, 1) of the three channels has order 3.  So two
    applications undo one. *)
Theorem reorder_channels_order_three (buf : list byte) :
  (length buf mod 3 = 0)%nat ->
  exists t1 t2,
    reorder_channels buf = Ok t1 /\ reorder_channels t1 = Ok t2 /\
    reorder_channels t2 = Ok buf.
Proof.
  intros H0. pose proof (Nat.div_mod_eq (length buf) 3) as Hdm.
  set (m := (length buf / 3)%nat) in *.
  assert (Hlen : length buf = (m * 3)%nat) by lia.
  unfold reorder_channels.
  destruct (permute_channels_lookup 2 0 1 buf m) as (t1 & H1 & L1 & P1); [lia.. |].
  destruct (permute_channels_lookup 2 0 1 t1 m) as (t2 & H2 & L2 & P2); [lia.. |].
  destruct (permute_channels_lookup 2 0 1 t2 m) as (t3 & H3 & L3 & P3); [lia.. |].
  exists t1, t2. split; [exact H1 |]. split; [exact H2 |]. rewrite H3. f_equal.
  apply list_eq. intros j.
  destruct (Nat.lt_ge_cases j (m * 3)) as [Hj | Hj].
  - pose proof (Nat.div_mod_eq j 3) as Ej.
    pose proof (Nat.mod_upper_bound j 3 ltac:(lia)) as Bj.
    set (p := (j / 3)%nat) in *. set (c := (j mod 3)%nat) in *.
    assert (Hp : (p < m)%nat) by lia.
    rewrite Ej.
    destruct c as [| [| [| c]]]; [| | | lia].
    + rewrite P3 by lia. cbn [source_channel].
      rewrite P2 by lia. cbn [source_channel].
      rewrite P1 by lia. reflexivity.
    + rewrite P3 by lia. cbn [source_channel].
      rewrite P2 by lia. cbn [source_channel].
      rewrite P1 by lia. reflexivity.
    + rewrite P3 by lia. cbn [source_channel].
      rewrite P2 by lia. cbn [source_channel].
      rewrite P1 by lia. reflexivity.
  - rewrite !lookup_ge_None_2 by lia. reflexivity.
Qed.

(** X20: shifts of one channel add up, and only their value modulo the
    width counts.  On a [w] by [h] buffer, shifting a channel by [a] and then
    by [b] is shifting it by [a + b]; shifting by a multiple of [w] changes
    nothing.  So a shift by [-k] undoes a shift by [k]. *)
Theorem shift_channel_adds (buf : list byte) (w h : nat) (c : channel) (a b k : Z) :
  (0 < w)%nat -> length buf = (w * h * 3)%nat ->
  (exists t out,
     shift_channel buf w h c a = Ok t /\ shift_channel t w h c b = Ok out /\
     shift_channel buf w h c (a + b) = Ok out) /\
  shift_channel buf w h c (k * Z.of_nat w) = Ok buf.
Proof.
  intros Hw Hlen. split.
  - destruct (shift_channel_lookup buf w h c a Hw Hlen) as (t & Ht & Lt & Pt).
    destruct (shift_channel_lookup t w h c b Hw) as (o & Ho & Lo & Po); [lia |].
    destruct (shift_channel_lookup buf w h c (a + b) Hw Hlen) as (o' & Ho' & Lo' & Po').
    exists t, o. split; [exact Ht |]. split; [exact Ho |]. rewrite Ho'. f_equal.
    apply (buffer_ext o' o w h); [lia | lia |].
    intros y x c' Hy Hx Hc'. rewrite Po', Po by assumption.
    destruct (Nat.eqb_spec c' (ch_idx c)) as [-> | Hne].
    + rewrite Pt by (try apply rotated_source_lt; assumption).
      rewrite Nat.eqb_refl. rewrite rotated_source_compose by exact Hw. reflexivity.
    + rewrite Pt by assumption.
      destruct (Nat.eqb_spec c' (ch_idx c)); [contradiction | reflexivity].
  - unfold shift_channel. destruct (Nat.eqb_spec w 0); [lia |].
    rewrite Z.mod_mul by lia. reflexivity.
Qed.

(** X21: shifts of different channels do not interfere.  Each shift
    leaves the other two channels of every pixel as they are, so two shifts
    of different channels give the same buffer in either order; the order of
    the three calls in [extract_image] does not matter. *)
Theorem shift_channel_commutes (buf : list byte) (w h : nat) (c1 c2 : channel) (a b : Z) :
  (0 < w)%nat -> length buf = (w * h * 3)%nat -> c1 <> c2 ->
  exists t1 t2 out,
    shift_channel buf w h c1 a = Ok t1 /\ shift_channel t1 w h c2 b = Ok out /\
    shift_channel buf w h c2 b = Ok t2 /\ shift_channel t2 w h c1 a = Ok out /\
    (forall y x c', (y < h)%nat -> (x < w)%nat -> (c' < 3)%nat -> c' <> ch_idx c1 ->
       t1 !! px w y x c' = buf !! px w y x c').
Proof.
  intros Hw Hlen Hne.
  assert (Hidx : ch_idx c1 <> ch_idx c2) by (destruct c1, c2; cbn; congruence).
  destruct (shift_channel_lookup buf w h c1 a Hw Hlen) as (t1 & H1 & L1 & P1).
  destruct (shift_channel_lookup t1 w h c2 b Hw) as (o1 & Ho1 & Lo1 & Po1); [lia |].
  destruct (shift_channel_lookup buf w h c2 b Hw Hlen) as (t2 & H2 & L2 & P2).
  destruct (shift_channel_lookup t2 w h c1 a Hw) as (o2 & Ho2 & Lo2 & Po2); [lia |].
  exists t1, t2, o1. split; [exact H1 |]. split; [exact Ho1 |]. split; [exact H2 |]. split.
  - rewrite Ho2. f_equal. apply (buffer_ext o2 o1 w h); [lia | lia |].
    intros y x c' Hy Hx Hc'. rewrite Po2, Po1 by assumption.
    destruct (Nat.eqb_spec c' (ch_idx c1)) as [E1 | N1];
      destruct (Nat.eqb_spec c' (ch_idx c2)) as [E2 | N2]; [congruence | | |].
    + rewrite P2, P1 by (try apply rotated_source_lt; assumption).
      destruct (Nat.eqb_spec c' (ch_idx c1)); [| contradiction].
      destruct (Nat.eqb_spec c' (ch_idx c2)); [congruence | reflexivity].
    + rewrite P2, P1 by (try apply rotated_source_lt; assumption).
      destruct (Nat.eqb_spec c' (ch_idx c1)); [contradiction |].
      destruct (Nat.eqb_spec c' (ch_idx c2)); [reflexivity | contradiction].
    + rewrite P2, P1 by assumption.
      destruct (Nat.eqb_spec c' (ch_idx c1)); [contradiction |].
      destruct (Nat.eqb_spec c' (ch_idx c2)); [contradiction | reflexivity].
  - intros y x c' Hy Hx Hc' Hn. rewrite P1 by assumption.
    destruct (Nat.eqb_spec c' (ch_idx c1)); [contradiction | reflexivity].
Qed.

End Properties.

(** * Runs on sample inputs

    The statements above hold for every runtime; they are run here on the
    sample inputs, with [sample_runtime]. *)

#[local] Existing Instance sample_runtime.

Lemma get_offset_index_blocks_witness :
  _get_offset 500 = con_start + 500 * 4096 + index_blocks 500 * 8192 /\
  (500 < 170 -> index_blocks 500 = 0) /\
  (170 <= 500 < 170 * 170 -> index_blocks 500 = 500 / 170 + 1) /\
  (170 * 170 <= 500 -> index_blocks 500 = (500 / 170 + 1) + (500 / (170 * 170) + 1)) /\
  index_blocks 170 = 2 /\
  index_blocks (170 * 170) = 173.
Proof. apply (get_offset_index_blocks 500). lia. Defined.

Lemma screenshot_offset_and_pixel_length_witness :
  let save := sample_save in
  let meta := decoded_header 55 0 2 (sample_tail 1) 59 in
  let expected := width meta * height meta * 3 in
  let off := screenshot_offset meta in
  let data := take (Z.to_nat expected) (drop (Z.to_nat off) save) in
  let w := Z.to_nat (width meta) in
  let h := Z.to_nat (height meta) in
  off = 4 + unpack_le (take 4 (drop 11 save)) /\
  (forall m out,
     extract_image save = Ok (m, out) ->
     m = meta /\
     Z.of_nat (length data) = expected /\
     pixel_transform data w h = Ok out /\
     Z.of_nat (length out) = expected) /\
  (off + expected <= Z.of_nat (length save) ->
   Z.of_nat (length data) = expected /\
   extract_image save = (out ← pixel_transform data w h; Ok (meta, out))).
Proof.
  apply (screenshot_offset_and_pixel_length sample_save
           (decoded_header 55 0 2 (sample_tail 1) 59)
           (after (plain_header 55 0 2 (sample_tail 1)) sample_pixels)).
  vm_compute. reflexivity.
Defined.

Lemma legacy_header_detection_witness :
  exists meta f',
    parse_header (open_rb (legacy_header 120 0 70000 (replicate 60 x00) 2 (sample_tail 1)
                             ++ sample_pixels)) = Ok (meta, f') /\
    width meta = 2.
Proof.
  apply (proj1 (proj2 legacy_header_detection));
    first [ unfold tail_ok, u32; cbn; lia | unfold u32; lia | reflexivity ].
Defined.

Lemma legacy_branch_taken_once_witness :
  exists meta f',
    parse_header (open_rb (sample_wide_legacy_save ++ [])) = Ok (meta, f') /\
    width meta = 20000 /\
    height meta = t_height (sample_tail 1) /\
    header_end_pos meta = Z.of_nat (length sample_wide_legacy_save) /\
    header_end_pos meta =
      11 + 4 + 4 + (1 + 4) + 60 + (1 + 4) + Z.of_nat (length (encode_tail (sample_tail 1))) /\
    f' = after sample_wide_legacy_save [].
Proof.
  apply (legacy_branch_taken_once 120 0 70000 (replicate 60 x00) 20000 (sample_tail 1) []);
    first [ unfold tail_ok, u32; cbn; lia | unfold u32; lia | reflexivity | lia ].
Defined.

(** C8, as stated, fails: [zero_width_save] is accepted by the header
    decoder, declares 0 * 1 * 3 = 0 pixel bytes at offset 1004 and ends at
    byte 59, before that offset; reading 0 bytes succeeds and the decode
    stops in [shift_channel] on [shift_px % 0], not on an end of file. *)
Lemma zero_width_not_eof :
  exists meta f',
    parse_header (open_rb zero_width_save) = Ok (meta, f') /\
    Z.of_nat (length zero_width_save) + 1 <=
      screenshot_offset meta + width meta * height meta * 3 /\
    extract_image zero_width_save = Raise ZeroDivisionError /\
    extract_image zero_width_save <> Raise EOFError.
Proof.
  do 2 eexists. split; [vm_compute; reflexivity |].
  split; [vm_compute; discriminate |].
  split; [vm_compute; reflexivity | vm_compute; discriminate].
Qed.

Lemma truncated_save_raises_witness :
  extract_image truncated_save = Raise EOFError /\
  extract_image overflow_save = Raise OverflowError /\
  extract_image oversized_save = Raise MemoryError.
Proof.
  split; [| split].
  - apply (proj1 (proj2 (truncated_save_raises truncated_save
             (decoded_header 55 0 2 (sample_tail 1) 59)
             (after (plain_header 55 0 2 (sample_tail 1)) [x01; x02; x03; x04; x05])
             ltac:(vm_compute; reflexivity) ltac:(vm_compute; reflexivity)
             ltac:(vm_compute; discriminate)))).
    left. vm_compute. discriminate.
  - apply (proj1 (proj2 (proj2 (truncated_save_raises overflow_save
             (decoded_header 120 0 4294967295 (sample_tail 4294967295) 124)
             (after overflow_save [])
             ltac:(vm_compute; reflexivity) ltac:(vm_compute; reflexivity)
             ltac:(vm_compute; discriminate))))); vm_compute; reflexivity.
  - apply (proj2 (proj2 (proj2 (truncated_save_raises oversized_save
             (decoded_header 55 0 16384 (sample_tail 4294967295) 59)
             (after oversized_save [])
             ltac:(vm_compute; reflexivity) ltac:(vm_compute; reflexivity)
             ltac:(vm_compute; discriminate)))));
      vm_compute; first [reflexivity | discriminate].
Defined.

Lemma directory_iff_size_and_cluster_zero_witness :
  (is_dir (sample_entry 0 0 true) = true <->
   Size (sample_entry 0 0 true) = 0 /\ Cluster (sample_entry 0 0 true) = 0) /\
  (Size (sample_entry 0 0 true) = 0 -> Cluster (sample_entry 0 0 true) = 0 ->
   is_dir (sample_entry 0 0 true) = true /\
   forall self,
     extract_entries self [sample_entry 0 0 true] = Ok [] /\
     _extract_entry self (sample_entry 0 0 true) = Ok (None, self_f self)) /\
  (Size (sample_entry 0 0 true) = 0 -> Cluster (sample_entry 0 0 true) <> 0 ->
   is_dir (sample_entry 0 0 true) = false).
Proof.
  apply (proj1 directory_iff_size_and_cluster_zero ascii_decode
           (open_rb (entry_record 0 0 0)) (sample_entry 0 0 true)
           (File (entry_record 0 0 0) 64)).
  vm_compute. reflexivity.
Defined.

(** The table of [sample_package]: three loop iterations read it, the
    first entry is a directory, the second is not, and nothing is written
    for either. *)
Example init_sample_package :
  match __init__ ascii_decode 3 sample_package with
  | Ok (Some self) => Some (entries self, extract_all self)
  | _ => None
  end = Some ([sample_entry 0 0 true; sample_entry 1 0 false], Ok []).
Proof. vm_compute. reflexivity. Qed.

Lemma get_offset_strictly_increasing_witness :
  _get_offset 169 < _get_offset 170 /\
  exists fl st',
    block_loop (Z.of_nat (length MAGIC_CON)) 3 2 0 (XState (File MAGIC_CON 0) [] (-1) 5)
      = Ok (fl, st') /\
    fl <> BreakNotIncreasing.
Proof.
  split.
  - apply (proj1 get_offset_strictly_increasing 169 170); lia.
  - apply (proj2 get_offset_strictly_increasing MAGIC_CON 0%nat 3 2%nat [] 5). lia.
Defined.


(** The same entry, run: of its two full blocks and no remainder, the ten
    bytes that the file has at cluster 0 are written and nothing else. *)
Example extract_short_package :
  match _extract_entry short_package (sample_entry 0 8192 false) with
  | Ok (Some bs, _) => Some bs
  | _ => None
  end = Some (replicate 10 x00).
Proof. vm_compute. reflexivity. Qed.


Lemma pixel_transform_round_trip_witness :
  exists out,
    pixel_transform sample_pixels 2 1 = Ok out /\
    inverse_by_positions out 2 = sample_pixels /\
    inverse_transform out 2 1 = Ok sample_pixels.
Proof.
  apply (pixel_transform_round_trip sample_pixels 2 1); [lia | reflexivity].
Defined.

(** The direction of [rotate_channel_right]: in a row of three pixels,
    channel 0 holds 1, 4, 7; rotated to the right by one column it holds
    7, 1, 4, and the other channels are as they were. *)
Example rotate_channel_right_direction :
  rotate_channel_right 3 0 1 [x01; x02; x03; x04; x05; x06; x07; x08; x09]
  = [x07; x02; x03; x01; x05; x06; x04; x08; x09] /\
  restore_stored_order [x01; x02; x03] = [x02; x03; x01].
Proof. vm_compute. split; reflexivity. Qed.

Lemma read_exact_contract_witness :
  read_exact (File sample_pixels 4) 2 = Ok ([x05; x06], File sample_pixels 6) /\
  read_exact (File sample_pixels 4) 3 = Raise EOFError /\
  read_exact (File sample_pixels 4) (-2) = Raise BadReadLength.
Proof.
  split; [| split].
  - apply (proj1 (read_exact_contract (File sample_pixels 4) 2)). vm_compute.
    split; discriminate.
  - apply (proj1 (proj2 (proj2 (read_exact_contract (File sample_pixels 4) 3))));
      vm_compute; [reflexivity | discriminate].
  - apply (proj2 (proj2 (proj2 (proj2 (proj2
             (read_exact_contract (File sample_pixels 4) (-2))))))).
    vm_compute. reflexivity.
Defined.

Lemma parse_header_rejects_bad_magic_witness :
  parse_header (open_rb (MAGIC_CON ++ MAGIC)) = Raise BadMagic /\
  parse_header (open_rb (take 10 MAGIC)) = Raise EOFError.
Proof.
  split.
  - apply (proj1 (parse_header_rejects_bad_magic (MAGIC_CON ++ MAGIC)));
      vm_compute; [lia | discriminate].
  - apply (proj2 (parse_header_rejects_bad_magic (take 10 MAGIC))). vm_compute. lia.
Defined.

Lemma parse_header_first_divider_witness :
  parse_header (open_rb MAGIC) = Raise EOFError /\
  parse_header (open_rb (MAGIC ++ MAGIC)) = Raise BadDivider.
Proof.
  split.
  - apply (proj1 (parse_header_first_divider MAGIC eq_refl)). vm_compute. lia.
  - apply (proj2 (parse_header_first_divider (MAGIC ++ MAGIC) eq_refl) x41);
      [reflexivity | discriminate].
Defined.

Lemma accepted_header_shape_witness :
  let save := sample_legacy_save in
  let meta := decoded_header 120 0 2 (sample_tail 1) 124 in
  let legacy := 16384 <? unpack_le (take 4 (drop 20 save)) in
  let texts := Z.of_nat (String.length (pc_name meta) + String.length (pc_karma meta) +
                         String.length (pc_location meta) + String.length (playtime meta)) in
  take 11 save = MAGIC /\
  save !! 19%nat = Some x7c /\
  header_start_pos meta = 0 /\
  header_end_pos meta = Z.of_nat (tell (File save 124)) /\
  header_end_pos meta = 55 + (if legacy then 65 else 0) + texts /\
  header_end_pos meta <= Z.of_nat (length save) /\
  (0 <= width meta < 2 ^ 32 /\ 0 <= height meta < 2 ^ 32 /\
   0 <= save_index meta < 2 ^ 32 /\ 0 <= pc_level meta < 2 ^ 32) /\
  (Z.of_nat (String.length (pc_name meta)) < 65536 /\
   Z.of_nat (String.length (pc_karma meta)) < 65536 /\
   Z.of_nat (String.length (pc_location meta)) < 65536 /\
   Z.of_nat (String.length (playtime meta)) < 65536).
Proof.
  apply (accepted_header_shape sample_legacy_save). vm_compute. reflexivity.
Defined.

Lemma header_round_trip_witness :
  parse_header (open_rb (plain_header 55 0 2 (sample_tail 1) ++ sample_pixels)) =
    Ok (decoded_header 55 0 2 (sample_tail 1) (length (plain_header 55 0 2 (sample_tail 1))),
        after (plain_header 55 0 2 (sample_tail 1)) sample_pixels).
Proof.
  apply (proj1 (header_round_trip 55 0 2 (sample_tail 1) sample_pixels
                  ltac:(unfold u32; lia) ltac:(unfold u32; lia) ltac:(unfold u32; lia)
                  ltac:(unfold tail_ok, u32; cbn; lia))).
  lia.
Defined.

Lemma extract_image_returns_witness :
  exists out,
    extract_image sample_legacy_save = Ok (decoded_header 120 0 2 (sample_tail 1) 124, out) /\
    Z.of_nat (length out) = 2 * 1 * 3 /\
    pixel_transform (take (Z.to_nat (2 * 1 * 3)) (drop (Z.to_nat (4 + 120)) sample_legacy_save))
      (Z.to_nat 2) (Z.to_nat 1) = Ok out.
Proof.
  apply (extract_image_returns sample_legacy_save
           (decoded_header 120 0 2 (sample_tail 1) 124)
           (File sample_legacy_save 124));
    [vm_compute; reflexivity | vm_compute; reflexivity | vm_compute; discriminate].
Defined.

Lemma extract_image_degenerate_witness :
  extract_image zero_width_save = Raise ZeroDivisionError.
Proof.
  apply (proj1 (extract_image_degenerate zero_width_save
                  (decoded_header 1000 0 0 (sample_tail 1) 59)
                  (File zero_width_save 59) ltac:(vm_compute; reflexivity))).
  reflexivity.
Defined.

Lemma get_offset_blocks_disjoint_witness :
  _get_offset 169 + 4096 <= _get_offset 170 /\
  _get_offset 169 mod 4096 = 0 /\
  (0 <= 169 -> con_start <= _get_offset 169).
Proof. apply (get_offset_blocks_disjoint 169 170). lia. Defined.

Lemma dos_datetime_fields_witness :
  let '(year, month, day, hour, minute, sec2) := dos_datetime_from_u32 1234567890 in
  1980 <= year <= 2107 /\ 0 <= month <= 15 /\ 0 <= day <= 31 /\
  0 <= hour <= 31 /\ 0 <= minute <= 63 /\ 0 <= sec2 <= 62 /\ sec2 mod 2 = 0 /\
  1234567890 = ((year - 1980) * 512 + month * 32 + day) * 65536
               + hour * 2048 + minute * 32 + sec2 / 2.
Proof. apply (dos_datetime_fields 1234567890). lia. Defined.

Lemma read_entry_fields_witness :
  let e := sample_entry 1 0 false in
  let rec := drop 0 (entry_record 0 256 0) in
  Filename e = ascii_decode (until_nul (take 38 rec)) /\ Filename e <> [] /\
  BlockLen e = unpack_le_i32 (take 4 (drop 42 rec)) /\ - 2 ^ 31 <= BlockLen e < 2 ^ 31 /\
  Cluster e = unpack_le (take 3 (drop 47 rec)) /\ 0 <= Cluster e < 2 ^ 24 /\
  Size e = unpack_le (take 4 (drop 52 rec)) /\ 0 <= Size e < 2 ^ 32 /\
  0 <= Parent e < 2 ^ 16 /\
  contents (File (entry_record 0 256 0) 64) = entry_record 0 256 0 /\
  (tell (File (entry_record 0 256 0) 64) = 0 + 64)%nat /\
  (tell (File (entry_record 0 256 0) 64) <= length (entry_record 0 256 0))%nat.
Proof.
  apply (read_entry_fields ascii_decode (open_rb (entry_record 0 256 0))).
  vm_compute. reflexivity.
Defined.

Lemma init_rejects_witness :
  __init__ ascii_decode 5 (take 3 MAGIC_CON) = Raise EOFError /\
  __init__ ascii_decode 5 MAGIC = Raise BadMagic /\
  __init__ ascii_decode 5 MAGIC_CON = Raise EOFError.
Proof.
  split; [| split].
  - apply (proj1 (init_rejects ascii_decode 5 (take 3 MAGIC_CON))). vm_compute. lia.
  - apply (proj1 (proj2 (init_rejects ascii_decode 5 MAGIC))); vm_compute;
      [lia | discriminate].
  - apply (proj2 (proj2 (init_rejects ascii_decode 4 MAGIC_CON))); vm_compute; reflexivity.
Defined.

Lemma init_table_witness :
  let self := {| self_f := File sample_package (Z.to_nat 49318); _pkg_size := 49344;
                 entries := [sample_entry 0 0 true; sample_entry 1 0 false] |} in
  let n := Z.of_nat (length (entries self)) in
  let slot (k : Z) := File sample_package (Z.to_nat (con_start + 64 * k)) in
  take 4 sample_package = MAGIC_CON /\
  _pkg_size self = Z.of_nat (length sample_package) /\
  (forall (k : nat) e, entries self !! k = Some e ->
     exists g, _read_entry ascii_decode (slot (Z.of_nat k)) = Ok (Some e, g)) /\
  _read_entry ascii_decode (slot n) = Ok (None, self_f self) /\
  self_f self = File sample_package (Z.to_nat (con_start + 64 * n + 38)) /\
  con_start + 64 * n + 38 <= Z.of_nat (length sample_package).
Proof.
  apply (init_table ascii_decode 3 sample_package). reflexivity.
Defined.

Lemma init_terminates_witness :
  __init__ ascii_decode (S (length MAGIC)) MAGIC <> Ok None /\
  __init__ ascii_decode 7 MAGIC = Raise BadMagic.
Proof.
  split.
  - apply (proj1 (init_terminates ascii_decode MAGIC)).
  - apply (proj2 (init_terminates ascii_decode MAGIC) 0%nat 7%nat (Raise BadMagic));
      [reflexivity | discriminate | lia].
Defined.

Lemma extract_entry_never_raises_witness :
  let self := tiny_package in
  let e := sample_entry 0 4097 false in
  (0 < Size e ->
   exists f',
     _extract_entry self e = Ok (Some (clipped_blocks (contents (self_f self)) e), f') /\
     contents f' = contents (self_f self) /\
     Z.of_nat (length (clipped_blocks (contents (self_f self)) e)) <= Size e) /\
  (Size e <= 0 -> _extract_entry self e = Ok (None, self_f self)).
Proof.
  apply (extract_entry_never_raises tiny_package (sample_entry 0 4097 false));
    [reflexivity | vm_compute; discriminate].
Defined.

Lemma extract_entry_complete_witness :
  let self := opened_file_package in
  let e := sample_entry 1 5 false in
  exists out f',
    _extract_entry self e = Ok (Some out, f') /\
    (_get_offset (Cluster e + full_blocks_of e) + remainder_of e <= _pkg_size self ->
     Z.of_nat (length out) = Size e) /\
    (Cluster e + Size e / 4096 < 170 ->
     out = take (Z.to_nat (Size e))
             (drop (Z.to_nat (con_start + 4096 * Cluster e)) (contents (self_f self)))).
Proof.
  apply (extract_entry_complete opened_file_package (sample_entry 1 5 false));
    [vm_compute; reflexivity | vm_compute; discriminate | reflexivity].
Defined.

Lemma extract_all_writes_witness :
  let self := {| self_f := File file_package (Z.to_nat 49254); _pkg_size := 53253;
                 entries := [sample_entry 1 5 false] |} in
  extract_all self =
    Ok (map (fun e => (Filename e, clipped_blocks file_package e))
          (List.filter (fun e => 0 <? Size e) (entries self))) /\
  Forall (fun e => Filename e <> []) (entries self).
Proof.
  apply (extract_all_writes ascii_decode 2 file_package). reflexivity.
Defined.

(** The same package, run: one file, "A", with the five bytes. *)
Example extract_file_package :
  match __init__ ascii_decode 2 file_package with
  | Ok (Some self) => Some (extract_all self)
  | _ => None
  end = Some (Ok [([65%N], [x01; x02; x03; x04; x05])]).
Proof. vm_compute. reflexivity. Qed.

Lemma reorder_channels_whole_pixels_witness :
  (exists out, reorder_channels sample_pixels = Ok out /\ length out = length sample_pixels) /\
  reorder_channels [x01; x02; x03; x04] = Raise IndexError.
Proof.
  split.
  - apply (proj1 (reorder_channels_whole_pixels sample_pixels)). reflexivity.
  - apply (proj2 (reorder_channels_whole_pixels [x01; x02; x03; x04])). vm_compute.
    discriminate.
Defined.

Lemma reorder_channels_order_three_witness :
  exists t1 t2,
    reorder_channels sample_pixels = Ok t1 /\ reorder_channels t1 = Ok t2 /\
    reorder_channels t2 = Ok sample_pixels.
Proof. apply (reorder_channels_order_three sample_pixels). reflexivity. Defined.

Lemma shift_channel_adds_witness :
  (exists t out,
     shift_channel sample_pixels 2 1 ch_r 3 = Ok t /\ shift_channel t 2 1 ch_r (-3) = Ok out /\
     shift_channel sample_pixels 2 1 ch_r (3 + -3) = Ok out) /\
  shift_channel sample_pixels 2 1 ch_r (5 * Z.of_nat 2) = Ok sample_pixels.
Proof.
  apply (shift_channel_adds sample_pixels 2 1 ch_r 3 (-3) 5); [lia | reflexivity].
Defined.

Lemma shift_channel_commutes_witness :
  exists t1 t2 out,
    shift_channel sample_pixels 2 1 ch_r (-3) = Ok t1 /\
    shift_channel t1 2 1 ch_g (-4) = Ok out /\
    shift_channel sample_pixels 2 1 ch_g (-4) = Ok t2 /\
    shift_channel t2 2 1 ch_r (-3) = Ok out /\
    (forall y x c', (y < 1)%nat -> (x < 2)%nat -> (c' < 3)%nat -> c' <> ch_idx ch_r ->
       t1 !! px 2 y x c' = sample_pixels !! px 2 y x c').
Proof.
  apply (shift_channel_commutes sample_pixels 2 1 ch_r ch_g (-3) (-4));
    [lia | reflexivity | discriminate].
Defined.
